(** * Flappy bird with neuro-evolution: the game step and the neural controller

    A shallow embedding of [GAME_CONFIG] (src/constants/gameConfig.ts), of the
    [NeuralNetwork] class and of the [Game] component's simulation code
    ([createPlayerBird], [createAIBirds], [nextGeneration], [update]).

    Numbers.  The program computes with JavaScript numbers.  The embedding is
    written once over an interface [Number] of the operations the program
    uses, and is run at two representations:
    - [float], IEEE binary64 as the kernel provides it: the program's own
      arithmetic, used to evaluate runs;
    - [Q], exact rationals kept in lowest terms: the arithmetic with rounding
      left out, used for the statements that need laws of order.
    The two differ where a rounded sum decides a comparison or reaches a
    bound: in the pipe collision test, the mutation offsets, the sigmoid and
    the frame loop.  There the statements are made for every [Number], on
    the values the program computes, or they bound only what rounding cannot
    move, and the edge is shown in binary64 (module [Rounding]).  The
    statements made at [Q] alone are about integers (scores, distances,
    fitness), about the thresholds the program compares with, and about
    ranges that rounding keeps.
    [Math.exp], [Math.random] and [JSON.parse] are library functions of the
    host; they are parameters of the embedding. *)

From Stdlib Require Import ZArith QArith Qreduction Qround Lia Lqa List Bool String Floats.
Import ListNotations.
Close Scope Q_scope.

Set Implicit Arguments.
Set Warnings "-register-all".

(** ** Numbers *)

Class Number (R : Type) := {
  lit : Q -> R;                 (* a numeric literal *)
  add : R -> R -> R;
  sub : R -> R -> R;
  mul : R -> R -> R;
  div : R -> R -> R;
  neg : R -> R;
  ltb : R -> R -> bool;         (* a < b *)
  leb : R -> R -> bool;         (* a <= b *)
  Math_floor : R -> R;
  Math_min : R -> R -> R;
  Math_max : R -> R -> R;
  Math_PI : R;
  asLength : R -> option nat    (* the argument of Array(n): an integer in [0, 2^32) *)
}.

Definition gtb {R} `{Number R} (a b : R) : bool := ltb b a.   (* a > b *)
Definition geb {R} `{Number R} (a b : R) : bool := leb b a.   (* a >= b *)
Definition int {R} `{Number R} (z : Z) : R := lit (inject_Z z).
Definition ofNat {R} `{Number R} (n : nat) : R := int (Z.of_nat n).

(** *** Exact rationals *)

Module Exact.

Definition Qlt_bool (a b : Q) : bool := negb (Qle_bool b a).

Definition Qfloor_Q (a : Q) : Q := inject_Z (Qfloor a).

Definition QasLength (a : Q) : option nat :=
  let a' := Qred a in
  if Pos.eqb (Qden a') 1 && Z.leb 0 (Qnum a') && Z.ltb (Qnum a') (2 ^ 32)
  then Some (Z.to_nat (Qnum a')) else None.

#[export] Instance Number_Q : Number Q := {|
  lit q := Qred q;
  add a b := Qred (a + b)%Q;
  sub a b := Qred (a - b)%Q;
  mul a b := Qred (a * b)%Q;
  div a b := Qred (a / b)%Q;
  neg a := Qred (- a)%Q;
  ltb := Qlt_bool;
  leb := Qle_bool;
  Math_floor := Qfloor_Q;
  Math_min a b := if Qle_bool a b then a else b;
  Math_max a b := if Qle_bool a b then b else a;
  Math_PI := (884279719003555 # 281474976710656)%Q;
  asLength := QasLength
|}.

End Exact.

(** *** Binary64 *)

Module Binary64.

Definition of_Z (z : Z) : float := SF2Prim (binary_normalize prec emax z 0 false).

Definition of_Q (q : Q) : float := PrimFloat.div (of_Z (Qnum q)) (of_Z (Zpos (Qden q))).

(* The integer part of a finite float, rounded towards minus infinity. *)
Definition floorZ (x : float) : option Z :=
  match Prim2SF x with
  | S754_zero _ => Some 0%Z
  | S754_finite s m e =>
      let v := if Z.leb 0 e then (Zpos m * 2 ^ e)%Z else Z.shiftr (Zpos m) (- e) in
      if s
      then Some (if Z.leb 0 e then - v
                 else if Z.eqb (Z.shiftl v (- e)) (Zpos m) then - v else - v - 1)%Z
      else Some v
  | _ => None
  end.

Definition floor (x : float) : float :=
  match Prim2SF x with
  | S754_finite _ _ _ => match floorZ x with Some z => of_Z z | None => x end
  | _ => x
  end.

Definition min (a b : float) : float :=
  if PrimFloat.is_nan a then a else if PrimFloat.is_nan b then b
  else if PrimFloat.ltb a b then a else if PrimFloat.ltb b a then b
  else if PrimFloat.get_sign a then a else b.

Definition max (a b : float) : float :=
  if PrimFloat.is_nan a then a else if PrimFloat.is_nan b then b
  else if PrimFloat.ltb a b then b else if PrimFloat.ltb b a then a
  else if PrimFloat.get_sign a then b else a.

Definition arrayLength (x : float) : option nat :=
  match floorZ x with
  | Some z => if PrimFloat.eqb (of_Z z) x && Z.leb 0 z && Z.ltb z (2 ^ 32)
              then Some (Z.to_nat z) else None
  | None => None
  end.

#[export] Instance Number_float : Number float := {|
  lit := of_Q;
  add := PrimFloat.add;
  sub := PrimFloat.sub;
  mul := PrimFloat.mul;
  div := PrimFloat.div;
  neg := PrimFloat.opp;
  ltb := PrimFloat.ltb;
  leb := PrimFloat.leb;
  Math_floor := floor;
  Math_min := min;
  Math_max := max;
  Math_PI := of_Q (884279719003555 # 281474976710656)%Q;
  asLength := arrayLength
|}.

End Binary64.

(** ** Effects: exceptions and the random source *)

(** A JavaScript computation either returns or throws. *)
Inductive Outcome (A : Type) : Type :=
| Val (a : A)
| Throw.
Arguments Val {A} a.
Arguments Throw {A}.

Definition obind {A B} (m : Outcome A) (k : A -> Outcome B) : Outcome B :=
  match m with Val a => k a | Throw => Throw end.

(** [Math.random()] is the [n]-th draw of an oracle; a computation that draws
    threads the index of the next draw. *)
Definition Rand (A : Type) : Type := nat -> A * nat.

Definition ret {A} (a : A) : Rand A := fun n => (a, n).
Definition bind {A B} (m : Rand A) (k : A -> Rand B) : Rand B :=
  fun n => let (a, n') := m n in k a n'.

Declare Scope rand_scope.
Delimit Scope rand_scope with rand.
Notation "x <- m ;; k" := (bind m (fun x => k))
  (at level 61, m at next level, right associativity) : rand_scope.

(** [Array(n).fill(0).map(() => f())], the calls made from left to right. *)
Fixpoint replicateM {A} (n : nat) (m : Rand A) : Rand (list A) :=
  match n with
  | O => ret []
  | S k => (x <- m ;; xs <- replicateM k m ;; ret (x :: xs))%rand
  end.

(** [l.map(f)] for an [f] that draws. *)
Fixpoint mapM {A B} (f : A -> Rand B) (l : list A) : Rand (list B) :=
  match l with
  | [] => ret []
  | a :: t => (b <- f a ;; bs <- mapM f t ;; ret (b :: bs))%rand
  end.

Section Model.

Context (R : Type) `{Number R}.

(** The host's [Math.exp] and the oracle behind [Math.random]. *)
Variable Math_exp : R -> R.
Variable Math_random : nat -> R.

Definition random : Rand R := fun n => (Math_random n, S n).

(** ** The neural controller (class [NeuralNetwork]) *)

Record NeuralNetwork : Type := {
  inputNodes : nat;
  hiddenNodes : nat;
  outputNodes : nat;
  weightsIH : list (list R);   (* Input -> Hidden *)
  weightsHO : list (list R);   (* Hidden -> Output *)
  biasH : list R;
  biasO : list R
}.

(** [Math.random() * 2 - 1] *)
Definition randomWeight : Rand R :=
  (r <- random ;; ret (sub (mul r (lit 2)) (lit 1)))%rand.

(** [new NeuralNetwork(i, h, o)] *)
Definition new_NeuralNetwork (i h o : nat) : Rand NeuralNetwork :=
  (wih <- replicateM i (replicateM h randomWeight) ;;
   who <- replicateM h (replicateM o randomWeight) ;;
   bh <- replicateM h randomWeight ;;
   bo <- replicateM o randomWeight ;;
   ret {| inputNodes := i; hiddenNodes := h; outputNodes := o;
          weightsIH := wih; weightsHO := who; biasH := bh; biasO := bo |})%rand.

(** A number read from a place that may hold [undefined]: arithmetic on
    [undefined] gives NaN, written [None]. *)
Definition num : Type := option R.

Definition nadd (a b : num) : num :=
  match a, b with Some x, Some y => Some (add x y) | _, _ => None end.
Definition nmul (a b : num) : num :=
  match a, b with Some x, Some y => Some (mul x y) | _, _ => None end.

Definition sigmoid (x : R) : R := div (lit 1) (add (lit 1) (Math_exp (neg x))).
Definition nsigmoid (x : num) : num := option_map sigmoid x.

(** [m[i][j]]: a missing row makes the second index throw a TypeError, a
    missing entry reads [undefined]. *)
Definition index2 (m : list (list R)) (i j : nat) : Outcome num :=
  match nth_error m i with
  | Some row => Val (nth_error row j)
  | None => Throw
  end.

(** [let sum = 0; for (let i = 0; i < n; i++) sum += x[i] * m[i][j];] *)
Definition weightedSum (x : nat -> num) (m : list (list R)) (j n : nat) : Outcome num :=
  fold_left
    (fun acc i =>
       obind acc (fun sum =>
       obind (index2 m i j) (fun w => Val (nadd sum (nmul (x i) w)))))
    (seq 0 n) (Val (Some (lit 0))).

(** One layer: for each [j] of [js], [sigmoid(sum + bias[j])]. *)
Fixpoint layer (x : nat -> num) (m : list (list R)) (bias : list R) (n : nat)
         (js : list nat) : Outcome (list num) :=
  match js with
  | [] => Val []
  | j :: js' =>
      obind (weightedSum x m j n) (fun sum =>
      obind (layer x m bias n js') (fun rest =>
      Val (nsigmoid (nadd sum (nth_error bias j)) :: rest)))
  end.

Definition at_ (l : list num) (i : nat) : num :=
  match nth_error l i with Some v => v | None => None end.

Definition predict (nn : NeuralNetwork) (inputs : list R) : Outcome (list num) :=
  obind (layer (nth_error inputs) (weightsIH nn) (biasH nn) (inputNodes nn)
               (seq 0 (hiddenNodes nn))) (fun hidden =>
  layer (at_ hidden) (weightsHO nn) (biasO nn) (hiddenNodes nn)
        (seq 0 (outputNodes nn))).

Definition copy (nn : NeuralNetwork) : Rand NeuralNetwork :=
  (fresh <- new_NeuralNetwork (inputNodes nn) (hiddenNodes nn) (outputNodes nn) ;;
   ret {| inputNodes := inputNodes fresh;
          hiddenNodes := hiddenNodes fresh;
          outputNodes := outputNodes fresh;
          weightsIH := map (fun row => map (fun v => v) row) (weightsIH nn);
          weightsHO := map (fun row => map (fun v => v) row) (weightsHO nn);
          biasH := map (fun v => v) (biasH nn);
          biasO := map (fun v => v) (biasO nn) |})%rand.

Definition mutateValue (rate : R) (val : R) : Rand R :=
  (r <- random ;;
   if ltb r rate then
     r' <- random ;;
     if ltb r' (lit 0.05) then
       d <- random ;; ret (add val (sub (mul d (lit 1.0)) (lit 0.5)))
     else
       d <- random ;; ret (add val (sub (mul d (lit 0.2)) (lit 0.1)))
   else ret val)%rand.

Definition mutate (rate : R) (nn : NeuralNetwork) : Rand NeuralNetwork :=
  (wih <- mapM (mapM (mutateValue rate)) (weightsIH nn) ;;
   who <- mapM (mapM (mutateValue rate)) (weightsHO nn) ;;
   bh <- mapM (mutateValue rate) (biasH nn) ;;
   bo <- mapM (mutateValue rate) (biasO nn) ;;
   ret {| inputNodes := inputNodes nn; hiddenNodes := hiddenNodes nn;
          outputNodes := outputNodes nn;
          weightsIH := wih; weightsHO := who; biasH := bh; biasO := bo |})%rand.

(** *** Serialization

    [toJSON] returns and [fromJSON] takes a value of type [any]. *)

Inductive any : Type :=
| Undefined
| Null
| Boolean (b : bool)
| Num (r : R)
| Str (s : string)
| Arr (items : list any)
| Obj (fields : list (string * any)).

Fixpoint lookup (key : string) (fields : list (string * any)) : any :=
  match fields with
  | [] => Undefined
  | (k, v) :: rest => if String.eqb k key then v else lookup key rest
  end.

(** [data.key]: reading a property of [undefined] or [null] throws; the
    other values have none of the seven properties unless they are objects
    that carry them. *)
Definition get (data : any) (key : string) : Outcome any :=
  match data with
  | Undefined | Null => Throw
  | Obj fields => Val (lookup key fields)
  | _ => Val Undefined
  end.

Definition toJSON (nn : NeuralNetwork) : any :=
  Obj [ ("inputNodes", Num (ofNat (inputNodes nn)));
        ("hiddenNodes", Num (ofNat (hiddenNodes nn)));
        ("outputNodes", Num (ofNat (outputNodes nn)));
        ("weightsIH", Arr (map (fun row => Arr (map Num row)) (weightsIH nn)));
        ("weightsHO", Arr (map (fun row => Arr (map Num row)) (weightsHO nn)));
        ("biasH", Arr (map Num (biasH nn)));
        ("biasO", Arr (map Num (biasO nn))) ]%string.

(** The object [fromJSON] returns: its fields hold whatever [data] held. *)
Record NeuralNetworkObject : Type := {
  o_inputNodes : any;
  o_hiddenNodes : any;
  o_outputNodes : any;
  o_weightsIH : any;
  o_weightsHO : any;
  o_biasH : any;
  o_biasO : any
}.

(** The length of [Array(v)]: a number must be a valid array length
    (RangeError otherwise), any other value gives a one-element array. *)
Definition arrayOf (v : any) : Outcome nat :=
  match v with
  | Num r => match asLength r with Some n => Val n | None => Throw end
  | _ => Val 1
  end.

(** The constructor run by [fromJSON] on dimensions of type [any]: the
    arrays it fills are overwritten afterwards, so what remains of it is
    whether it throws and how many draws it made. *)
Definition construct (i h o : any) : Rand (Outcome unit) := fun n =>
  match arrayOf i with
  | Throw => (Throw, n)
  | Val li =>
      match arrayOf h with
      | Throw => (Throw, n)
      | Val lh =>
          match arrayOf o with
          | Throw => (Throw, (n + li * lh)%nat)
          | Val lo => (Val tt, snd (new_NeuralNetwork li lh lo n))
          end
      end
  end.

Definition fromJSON (data : any) : Rand (Outcome NeuralNetworkObject) := fun n =>
  match get data "inputNodes", get data "hiddenNodes", get data "outputNodes" with
  | Val i, Val h, Val o =>
      match construct i h o n with
      | (Val _, n') =>
          match get data "weightsIH", get data "weightsHO",
                get data "biasH", get data "biasO" with
          | Val wih, Val who, Val bh, Val bo =>
              (Val {| o_inputNodes := i; o_hiddenNodes := h; o_outputNodes := o;
                      o_weightsIH := wih; o_weightsHO := who;
                      o_biasH := bh; o_biasO := bo |}, n')
          | _, _, _, _ => (Throw, n')
          end
      | (Throw, n') => (Throw, n')
      end
  | _, _, _ => (Throw, n)
  end.

(** The object seen at the type the class declares for it, when its fields
    hold values of the declared types. *)
Definition asNumber (v : any) : option R :=
  match v with Num r => Some r | _ => None end.

Fixpoint allSome {A} (l : list (option A)) : option (list A) :=
  match l with
  | [] => Some []
  | Some a :: t => option_map (cons a) (allSome t)
  | None :: _ => None
  end.

Definition asVector (v : any) : option (list R) :=
  match v with Arr items => allSome (map asNumber items) | _ => None end.

Definition asMatrix (v : any) : option (list (list R)) :=
  match v with Arr items => allSome (map asVector items) | _ => None end.

Definition asDimension (v : any) : option nat :=
  match v with Num r => asLength r | _ => None end.

Definition typed (o : NeuralNetworkObject) : option NeuralNetwork :=
  match asDimension (o_inputNodes o), asDimension (o_hiddenNodes o),
        asDimension (o_outputNodes o),
        asMatrix (o_weightsIH o), asMatrix (o_weightsHO o),
        asVector (o_biasH o), asVector (o_biasO o) with
  | Some i, Some h, Some k, Some wih, Some who, Some bh, Some bo =>
      Some {| inputNodes := i; hiddenNodes := h; outputNodes := k;
              weightsIH := wih; weightsHO := who; biasH := bh; biasO := bo |}
  | _, _, _, _, _, _, _ => None
  end.

(** [o.predict(inputs)] for an object of the declared type. *)
Definition predictObject (o : NeuralNetworkObject) (inputs : list R)
  : option (Outcome (list num)) :=
  option_map (fun nn => predict nn inputs) (typed o).

(** ** Configuration ([GAME_CONFIG]) *)

Definition GRAVITY : R := lit 0.6.
Definition JUMP_STRENGTH : R := lit (-8).
Definition PIPE_SPEED : R := lit 3.
Definition PIPE_SPAWN_RATE : R := lit 100.
Definition PIPE_WIDTH : R := lit 52.
Definition PIPE_GAP : R := lit 150.
Definition BIRD_RADIUS : R := lit 16.
Definition GROUND_HEIGHT : R := lit 100.
Definition CANVAS_WIDTH : R := lit 400.
Definition CANVAS_HEIGHT : R := lit 600.
Definition AI_POPULATION : nat := 50.
Definition AI_MUTATION_RATE : R := lit 0.1.

(** ** Data *)

Inductive GameMode : Type := PLAYER | AI.
Inductive GameState : Type := READY | PLAYING | GAME_OVER.

(** The colours the program gives a bird: ['#FACC15'], ['#FF0000'] (the
    champion) and [hsla(h, 70%, 50%, 0.6)]. *)
Inductive Color : Type := Yellow | Red | Hsla (hue : R).

Record AIBird (B : Type) : Type := {
  x : R;
  y : R;
  velocity : R;
  rotation : R;
  brain : B;
  fitness : R;
  score : R;
  distance : R;
  alive : bool;
  color : Color
}.

Definition Bird : Type := AIBird NeuralNetwork.

Record Pipe : Type := {
  pipe_x : R;
  topHeight : R;
  passed : bool
}.

Record Game : Type := {
  (* refs *)
  birds : list Bird;
  pipes : list Pipe;
  lastPipeSpawn : R;
  scoreRef : R;                 (* the score shown is set together with it *)
  savedBrains : list NeuralNetwork;
  (* component state *)
  gameState : GameState;
  highScore : R;
  generation : nat;
  aliveCount : nat;
  bestScore : R;
  (* localStorage: the value serialized under 'flappy-ai-model' *)
  storedModel : option any;
  (* index of the next draw of Math.random *)
  draws : nat
}.

(** ** Creating birds *)

(** The host's [JSON.parse] and the text stored under 'flappy-ai-model'. *)
Variable JSON_parse : string -> Outcome any.

(** The brain [createPlayerBird] ends up with: the object [fromJSON]
    returned, or [new NeuralNetwork(4, 6, 1)]. *)
Inductive PlayerBrain : Type :=
| Deserialized (o : NeuralNetworkObject)
| Fresh (nn : NeuralNetwork).

(** The [try] block: [brain] stays [undefined] when nothing (or the empty
    string) is stored and when [JSON.parse] or [fromJSON] throws. *)
Definition loadBrain (saved : option string) : Rand (option NeuralNetworkObject) :=
  fun n =>
    match saved with
    | None => (None, n)
    | Some EmptyString => (None, n)
    | Some text =>
        match JSON_parse text with
        | Throw => (None, n)
        | Val data =>
            match fromJSON data n with
            | (Val o, n') => (Some o, n')
            | (Throw, n') => (None, n')
            end
        end
    end.

Definition createPlayerBird (saved : option string) : Rand (AIBird PlayerBrain) :=
  (loaded <- loadBrain saved ;;
   b <- match loaded with
        | Some o => ret (Deserialized o)
        | None => nn <- new_NeuralNetwork 4 6 1 ;; ret (Fresh nn)
        end ;;
   ret {| x := div CANVAS_WIDTH (lit 3);
          y := div CANVAS_HEIGHT (lit 2);
          velocity := lit 0; rotation := lit 0;
          brain := b;
          fitness := lit 0; score := lit 0; distance := lit 0;
          alive := true; color := Yellow |})%rand.

Definition newBird (b : NeuralNetwork) (c : Color) : Bird :=
  {| x := div CANVAS_WIDTH (lit 3);
     y := div CANVAS_HEIGHT (lit 2);
     velocity := lit 0; rotation := lit 0;
     brain := b;
     fitness := lit 0; score := lit 0; distance := lit 0;
     alive := true; color := c |}.

(** The body of the loop of [createAIBirds] for index [i]. *)
Definition createAIBird (bestBrains : list NeuralNetwork) (i : nat) : Rand Bird :=
  (hue <- random ;;
   let color0 := Hsla (mul hue (lit 360)) in
   match bestBrains with
   | [] => b <- new_NeuralNetwork 4 6 1 ;; ret (newBird b color0)
   | first :: _ =>
       let parentBrain := nth (i mod List.length bestBrains) bestBrains first in
       b <- copy parentBrain ;;
       if Nat.ltb 0 i
       then b' <- mutate AI_MUTATION_RATE b ;; ret (newBird b' color0)
       else ret (newBird b Red)
   end)%rand.

Definition createAIBirds (population : nat) (bestBrains : list NeuralNetwork)
  : Rand (list Bird) :=
  mapM (createAIBird bestBrains) (seq 0 population).

(** ** Generation rollover *)

(** [birds.sort((a, b) => b.fitness - a.fitness)]: the sort is stable; [a]
    goes before [b] when the comparator is negative. *)
Definition before (a b : Bird) : bool := ltb (sub (fitness b) (fitness a)) (lit 0).

Fixpoint insert (a : Bird) (l : list Bird) : list Bird :=
  match l with
  | [] => [a]
  | b :: l' => if before b a then b :: insert a l' else a :: b :: l'
  end.

Fixpoint sort (l : list Bird) : list Bird :=
  match l with
  | [] => []
  | a :: l' => insert a (sort l')
  end.

Definition nextGeneration (g : Game) : Outcome Game :=
  let sorted := sort (birds g) in
  let bestCount := 5 in
  let bestBrains := map (@brain _) (firstn bestCount sorted) in
  let stored := match bestBrains with
                | [] => storedModel g
                | best :: _ => Some (toJSON best)
                end in
  let (newBirds, n') := createAIBirds AI_POPULATION bestBrains (draws g) in
  match sorted with
  | [] => Throw      (* the log line reads [birds[0].score] *)
  | _ :: _ =>
      Val {| birds := newBirds;
             pipes := [];
             lastPipeSpawn := lit 0;
             scoreRef := lit 0;
             savedBrains := bestBrains;
             gameState := PLAYING;
             highScore := highScore g;
             generation := S (generation g);
             aliveCount := AI_POPULATION;
             bestScore := lit 0;
             storedModel := stored;
             draws := n' |}
  end.

Definition gameOver (g : Game) : Game :=
  {| birds := birds g; pipes := pipes g; lastPipeSpawn := lastPipeSpawn g;
     scoreRef := scoreRef g; savedBrains := savedBrains g;
     gameState := GAME_OVER;
     highScore := if gtb (scoreRef g) (highScore g) then scoreRef g else highScore g;
     generation := generation g; aliveCount := aliveCount g;
     bestScore := bestScore g; storedModel := storedModel g; draws := draws g |}.

(** ** The simulation step ([update]) *)

(** The sensing target: the first pipe whose trailing edge is still ahead
    of the leading edge of bird 0, or a virtual pipe. *)
Definition ahead (ref : option Bird) (pipe : Pipe) : bool :=
  match ref with
  | Some b0 => gtb (add (pipe_x pipe) PIPE_WIDTH) (sub (x b0) BIRD_RADIUS)
  | None => false     (* [undefined - 16] is NaN *)
  end.

Definition virtualPipe : Pipe :=
  {| pipe_x := CANVAS_WIDTH;
     topHeight := sub (div CANVAS_HEIGHT (lit 2)) (div PIPE_GAP (lit 2));
     passed := false |}.

Definition closestPipe (bs : list Bird) (ps : list Pipe) : Pipe :=
  match find (ahead (hd_error bs)) ps with
  | Some pipe => pipe
  | None => virtualPipe
  end.

Definition senses (target : Pipe) (bird : Bird) : list R :=
  let gapCenterY := add (topHeight target) (div PIPE_GAP (lit 2)) in
  [ div (y bird) CANVAS_HEIGHT;
    div (add (velocity bird) (lit 20)) (lit 40);
    div (sub (add (pipe_x target) PIPE_WIDTH) (x bird)) CANVAS_WIDTH;
    add (div (sub (y bird) gapCenterY) CANVAS_HEIGHT) (lit 0.5) ].

(** [output[0] > 0.5] *)
Definition wantsJump (output : list num) : bool :=
  match at_ output 0 with
  | Some o => gtb o (lit 0.5)
  | None => false
  end.

(** Step 1 of the loop body: the velocity after the decision. *)
Definition decide (aiControlled : bool) (target : Pipe) (bird : Bird) : Outcome R :=
  if aiControlled
  then obind (predict (brain bird) (senses target bird)) (fun output =>
       Val (if wantsJump output then JUMP_STRENGTH else velocity bird))
  else Val (velocity bird).

Definition overlapsX (bx : R) (pipe : Pipe) : bool :=
  gtb (add bx BIRD_RADIUS) (pipe_x pipe) &&
  ltb (sub bx BIRD_RADIUS) (add (pipe_x pipe) PIPE_WIDTH).

Definition outsideGap (by_ : R) (pipe : Pipe) : bool :=
  ltb (sub by_ BIRD_RADIUS) (topHeight pipe) ||
  gtb (add by_ BIRD_RADIUS) (add (topHeight pipe) PIPE_GAP).

(** The pipe collision loop, from the value [alive] has when it starts. *)
Definition pipeCollision (bx by_ : R) (ps : list Pipe) (alive0 : bool) : bool :=
  fold_left
    (fun a pipe => if overlapsX bx pipe then (if outsideGap by_ pipe then false else a) else a)
    ps alive0.

Definition hitsGround (by_ : R) : bool :=
  geb (add by_ BIRD_RADIUS) (sub CANVAS_HEIGHT GROUND_HEIGHT).

Definition hitsCeiling (by_ : R) : bool :=
  leb (sub by_ BIRD_RADIUS) (lit 0).

(** The body of [birdsRef.current.forEach(bird => ...)]. *)
Definition updateBird (aiControlled : bool) (target : Pipe) (ps : list Pipe)
           (bird : Bird) : Outcome Bird :=
  if negb (alive bird) then Val bird else
  let distance1 := add (distance bird) PIPE_SPEED in
  let fitness1 := add distance1 (mul (score bird) (lit 5000)) in
  obind (decide aiControlled target bird) (fun velocity0 =>
  let velocity1 := add velocity0 GRAVITY in
  let y1 := add (y bird) velocity1 in
  let rotation1 :=
    Math_min (div Math_PI (lit 4))
             (Math_max (div (neg Math_PI) (lit 4)) (mul velocity1 (lit 0.1))) in
  let alive1 := if hitsGround y1 then false else alive bird in
  let y2 := if hitsCeiling y1 then BIRD_RADIUS else y1 in
  let velocity2 := if hitsCeiling y1 then lit 0 else velocity1 in
  let alive2 := pipeCollision (x bird) y2 ps alive1 in
  Val {| x := x bird; y := y2; velocity := velocity2; rotation := rotation1;
         brain := brain bird; fitness := fitness1; score := score bird;
         distance := distance1; alive := alive2; color := color bird |}).

Fixpoint updateBirds (aiControlled : bool) (target : Pipe) (ps : list Pipe)
         (bs : list Bird) : Outcome (list Bird) :=
  match bs with
  | [] => Val []
  | bird :: rest =>
      obind (updateBird aiControlled target ps bird) (fun bird' =>
      obind (updateBirds aiControlled target ps rest) (fun rest' =>
      Val (bird' :: rest')))
  end.

(** [currentGenBestScore]: the birds alive when the step starts take part. *)
Definition genBestScore (before_ after : list Bird) : R :=
  fold_left
    (fun best p => if alive (fst p) && gtb (score (snd p)) best then score (snd p) else best)
    (combine before_ after) (lit 0).

Definition living (bs : list Bird) : nat := List.length (filter (@alive _) bs).

(** The spawn policy. *)
Definition spawnPipe (ps : list Pipe) (counter : R) : Rand (list Pipe * R) :=
  let counter1 := add counter (lit 1) in
  if gtb counter1 PIPE_SPAWN_RATE then
    let minPipeH := lit 50 in
    let maxPipeH := sub (sub (sub CANVAS_HEIGHT GROUND_HEIGHT) PIPE_GAP) minPipeH in
    (r <- random ;;
     let top := add (Math_floor (mul r (add (sub maxPipeH minPipeH) (lit 1)))) minPipeH in
     ret (ps ++ [{| pipe_x := CANVAS_WIDTH; topHeight := top; passed := false |}], lit 0))%rand
  else ret (ps, counter1).

Definition bumpScore (bird : Bird) : Bird :=
  if alive bird then
    {| x := x bird; y := y bird; velocity := velocity bird; rotation := rotation bird;
       brain := brain bird; fitness := fitness bird; score := add (score bird) (lit 1);
       distance := distance bird; alive := alive bird; color := color bird |}
  else bird.

(** [Math.max(...birds.map(b => b.score))] for at least one bird. *)
Definition maxScore (b0 : Bird) (rest : list Bird) : R :=
  fold_left (fun m b => Math_max m (score b)) rest (score b0).

(** The body of the "Move Pipes & Score" loop for one pipe: the pipe moves,
    is dropped ([None]) or kept, and may credit the birds. *)
Definition movePipe (pipe : Pipe) (bs : list Bird) (shown : R)
  : Outcome (option Pipe * list Bird * R) :=
  let px := sub (pipe_x pipe) PIPE_SPEED in
  if ltb (add px PIPE_WIDTH) (lit 0) then Val (None, bs, shown)
  else if passed pipe
  then Val (Some {| pipe_x := px; topHeight := topHeight pipe; passed := true |}, bs, shown)
  else
    match bs with
    | [] => Throw    (* [birdsRef.current[0].x] *)
    | b0 :: rest =>
        if gtb (x b0) (add px PIPE_WIDTH) then
          Val (Some {| pipe_x := px; topHeight := topHeight pipe; passed := true |},
               map bumpScore bs,
               maxScore (bumpScore b0) (map bumpScore rest))
        else
          Val (Some {| pipe_x := px; topHeight := topHeight pipe; passed := false |},
               bs, shown)
    end.

(** The loop runs from the last pipe to the first. *)
Fixpoint movePipes (ps : list Pipe) (bs : list Bird) (shown : R)
  : Outcome (list Pipe * list Bird * R) :=
  match ps with
  | [] => Val ([], bs, shown)
  | pipe :: rest =>
      obind (movePipes rest bs shown) (fun '(rest', bs', shown') =>
      obind (movePipe pipe bs' shown') (fun '(kept, bs'', shown'') =>
      Val (match kept with Some p => p :: rest' | None => rest' end, bs'', shown'')))
  end.

Definition isFirstAlive (bs : list Bird) : bool :=
  match bs with
  | b0 :: _ => alive b0
  | [] => false
  end.

Definition update (mode : GameMode) (isAutopilot : bool) (g : Game) : Outcome Game :=
  let target := closestPipe (birds g) (pipes g) in
  let aiControlled := match mode with AI => true | PLAYER => isAutopilot end in
  obind (updateBirds aiControlled target (pipes g) (birds g)) (fun bs1 =>
  let best := match mode with
              | AI => genBestScore (birds g) bs1
              | PLAYER => bestScore g
              end in
  let count := match mode with AI => living bs1 | PLAYER => aliveCount g end in
  let g1 := {| birds := bs1; pipes := pipes g; lastPipeSpawn := lastPipeSpawn g;
               scoreRef := scoreRef g; savedBrains := savedBrains g;
               gameState := gameState g;
               highScore := highScore g; generation := generation g;
               aliveCount := count; bestScore := best;
               storedModel := storedModel g; draws := draws g |} in
  let over := match mode with
              | AI => Nat.eqb (living bs1) 0
              | PLAYER => negb (isFirstAlive bs1)
              end in
  if over then
    match mode with
    | AI => nextGeneration g1
    | PLAYER => Val (gameOver g1)
    end
  else
    let '(ps1, counter1, n1) :=
      spawnPipe (pipes g1) (lastPipeSpawn g1) (draws g1) in
    obind (movePipes ps1 bs1 (scoreRef g1)) (fun '(ps2, bs2, shown2) =>
    Val {| birds := bs2; pipes := ps2; lastPipeSpawn := counter1;
           scoreRef := shown2; savedBrains := savedBrains g1;
           gameState := gameState g1;
           highScore := highScore g1; generation := generation g1;
           aliveCount := aliveCount g1; bestScore := bestScore g1;
           storedModel := storedModel g1; draws := n1 |})).

(** [jump]: only in player mode, not when the [isAutopilot] the callback
    sees is set, and not once the game is over; from [READY] it also starts
    the game.  The callback is memoized on [gameState] and [mode] alone, so
    the [isAutopilot] it sees ([seenAutopilot]) is the one of the render in
    which either last changed, not necessarily the current one: once the
    autopilot is switched on during play, the callback still sees the old
    value and the flap keys keep working until the game state changes. *)
Definition jump (mode : GameMode) (seenAutopilot : bool) (g : Game) : Game :=
  match mode, seenAutopilot, birds g, gameState g with
  | AI, _, _, _ => g
  | PLAYER, true, _, _ => g
  | PLAYER, false, [], _ => g
  | PLAYER, false, _ :: _, GAME_OVER => g
  | PLAYER, false, b0 :: rest, _ =>
      {| birds := {| x := x b0; y := y b0; velocity := JUMP_STRENGTH;
                     rotation := rotation b0; brain := brain b0;
                     fitness := fitness b0; score := score b0;
                     distance := distance b0; alive := alive b0;
                     color := color b0 |} :: rest;
         pipes := pipes g; lastPipeSpawn := lastPipeSpawn g;
         scoreRef := scoreRef g; savedBrains := savedBrains g;
         gameState := PLAYING;
         highScore := highScore g; generation := generation g;
         aliveCount := aliveCount g; bestScore := bestScore g;
         storedModel := storedModel g; draws := draws g |}
  end.

(** [resetGame('AI')] followed by "START TRAINING". *)
Definition startTraining (g : Game) : Game :=
  let (bs, n') := createAIBirds AI_POPULATION [] (draws g) in
  {| birds := bs; pipes := []; lastPipeSpawn := lit 0; scoreRef := lit 0;
     savedBrains := []; gameState := PLAYING;
     highScore := highScore g; generation := 1; aliveCount := AI_POPULATION;
     bestScore := lit 0; storedModel := storedModel g; draws := n' |}.

(** ** Stopping a training session *)

(** [resetGame()] in AI mode: a new random population, generation 1, an
    empty world, and the game [READY].  (It also zeroes [lastTimeRef] and
    [accumulatorRef], which the model keeps apart, in [Clock].) *)
Definition resetGame (g : Game) : Game :=
  let (bs, n') := createAIBirds AI_POPULATION [] (draws g) in
  {| birds := bs; pipes := []; lastPipeSpawn := lit 0; scoreRef := lit 0;
     savedBrains := []; gameState := READY;
     highScore := highScore g; generation := 1; aliveCount := AI_POPULATION;
     bestScore := lit 0; storedModel := storedModel g; draws := n' |}.

(** [stopAndSave] (the button is rendered in AI mode only): the brain of the
    first of the alive birds, sorted by fitness, is stored, if a bird is
    alive; then the game is reset. *)
Definition stopAndSave (g : Game) : Game :=
  let aliveBirds := filter (@alive _) (birds g) in
  let stored :=
    match aliveBirds with
    | [] => storedModel g
    | _ :: _ =>
        match sort aliveBirds with
        | bestBird :: _ => Some (toJSON (brain bestBird))
        | [] => storedModel g
        end
    end in
  resetGame
    {| birds := birds g; pipes := pipes g; lastPipeSpawn := lastPipeSpawn g;
       scoreRef := scoreRef g; savedBrains := savedBrains g;
       gameState := gameState g; highScore := highScore g;
       generation := generation g; aliveCount := aliveCount g;
       bestScore := bestScore g; storedModel := stored; draws := draws g |}.

(** ** The frame loop ([loopWrapper]) *)

Definition FIXED_TIME_STEP : R := div (lit 1000) (lit 60).

(** [lastTimeRef] and [accumulatorRef]. *)
Record Clock : Type := {
  lastTime : R;
  accumulator : R
}.

(** [a === b] on numbers. *)
Definition same (a b : R) : bool := leb a b && leb b a.

(** The [while] loop of a frame.  [playing] is the test
    [gameState === 'PLAYING'] on the state the callback closed over, which
    no step of the frame changes.  The loop is cut after [fuel] iterations
    ([None]). *)
Fixpoint ticks (fuel : nat) (playing : bool) (mode : GameMode) (isAutopilot : bool)
         (acc : R) (g : Game) : option (Outcome (R * Game)) :=
  match fuel with
  | O => None
  | S fuel' =>
      if geb acc FIXED_TIME_STEP then
        match (if playing then update mode isAutopilot g else Val g) with
        | Val g1 => ticks fuel' playing mode isAutopilot (sub acc FIXED_TIME_STEP) g1
        | Throw => Some Throw
        end
      else Some (Val (acc, g))
  end.

(** The accumulator a frame at [time] starts its loop with. *)
Definition frameAccumulator (time gameSpeed : R) (c : Clock) : R :=
  let last := if same (lastTime c) (lit 0) then time else lastTime c in
  let realDelta := sub time last in
  let scaledDelta := mul realDelta gameSpeed in
  let acc := add (accumulator c) scaledDelta in
  if gtb acc (mul (lit 500) gameSpeed) then mul (lit 500) gameSpeed else acc.

(** One call of [loopWrapper(time)], up to the drawing. *)
Definition loopWrapper (fuel : nat) (playing : bool) (mode : GameMode) (isAutopilot : bool)
           (gameSpeed time : R) (c : Clock) (g : Game)
  : option (Outcome (Clock * Game)) :=
  match ticks fuel playing mode isAutopilot (frameAccumulator time gameSpeed c) g with
  | None => None
  | Some Throw => Some Throw
  | Some (Val (acc, g')) => Some (Val ({| lastTime := time; accumulator := acc |}, g'))
  end.

End Model.

Arguments GRAVITY {R H}.
Arguments JUMP_STRENGTH {R H}.
Arguments PIPE_SPEED {R H}.
Arguments PIPE_SPAWN_RATE {R H}.
Arguments PIPE_WIDTH {R H}.
Arguments PIPE_GAP {R H}.
Arguments BIRD_RADIUS {R H}.
Arguments GROUND_HEIGHT {R H}.
Arguments CANVAS_WIDTH {R H}.
Arguments CANVAS_HEIGHT {R H}.
Arguments AI_MUTATION_RATE {R H}.
Arguments virtualPipe {R H}.
Arguments FIXED_TIME_STEP {R H}.
Arguments Undefined {R}.
Arguments Null {R}.
Arguments Yellow {R}.
Arguments Red {R}.

(** * Vocabulary of the statements and concrete inputs *)

Unset Implicit Arguments.
Arguments lit : simpl never.
Arguments add : simpl never.
Arguments sub : simpl never.
Arguments mul : simpl never.
Arguments div : simpl never.
Arguments neg : simpl never.
Arguments ltb : simpl never.
Arguments leb : simpl never.
Arguments Math_floor : simpl never.
Arguments Math_min : simpl never.
Arguments Math_max : simpl never.
Arguments Math_PI : simpl never.
Arguments asLength : simpl never.

Import Exact Binary64.

Section Vocabulary.

Context (R : Type) `{Number R}.
Variable Math_exp : R -> R.
Variable Math_random : nat -> R.

(** The dimensions of a network the constructor can have built. *)
Definition validDims (c : NeuralNetwork R) : Prop :=
  (Z.of_nat (inputNodes c) < 2 ^ 32)%Z /\
  (Z.of_nat (hiddenNodes c) < 2 ^ 32)%Z /\
  (Z.of_nat (outputNodes c) < 2 ^ 32)%Z.

(** A pipe that kills a bird at [(bx, by_)]. *)
Definition hitsPipe (bx by_ : R) (pipe : Pipe R) : bool :=
  overlapsX bx pipe && outsideGap by_ pipe.

(** What the loop body does to one pipe, read off the reference bird [b0]. *)
Definition newX (p : Pipe R) : R := sub (pipe_x p) PIPE_SPEED.
Definition kept (p : Pipe R) : bool := negb (ltb (add (newX p) PIPE_WIDTH) (lit 0)).
Definition crossed (b0 : Bird R) (p : Pipe R) : bool :=
  gtb (x b0) (add (newX p) PIPE_WIDTH).
Definition credits (b0 : Bird R) (p : Pipe R) : bool :=
  kept p && negb (passed p) && crossed b0 p.
Definition moved (b0 : Bird R) (p : Pipe R) : Pipe R :=
  {| pipe_x := newX p; topHeight := topHeight p;
     passed := passed p || crossed b0 p |}.

(** The three ways a step ends: a rollover (AI mode, nobody left), game over
    (player mode, bird 0 down), or the pipe phase, which credits the birds
    some number of times. *)
Inductive StepEnd (mode : GameMode) (g g' : Game R) (bs1 : list (Bird R)) : Prop :=
| EndRollover (brains : list (NeuralNetwork R)) (n : nat) :
    mode = AI -> living bs1 = 0 ->
    birds g' = fst (createAIBirds Math_random AI_POPULATION brains n) ->
    generation g' = S (generation g) ->
    StepEnd mode g g' bs1
| EndGameOver :
    mode = PLAYER -> isFirstAlive bs1 = false ->
    birds g' = bs1 -> generation g' = generation g ->
    StepEnd mode g g' bs1
| EndPipes (k : nat) :
    birds g' = map (Nat.iter k (@bumpScore R _)) bs1 ->
    generation g' = generation g ->
    StepEnd mode g g' bs1.

(** A network of the given topology: the dimensions and the shapes of the
    four arrays. *)
Definition hasTopology (i h o : nat) (nn : NeuralNetwork R) : Prop :=
  inputNodes nn = i /\ hiddenNodes nn = h /\ outputNodes nn = o /\
  List.length (weightsIH nn) = i /\ Forall (fun row => List.length row = h) (weightsIH nn) /\
  List.length (weightsHO nn) = h /\ Forall (fun row => List.length row = o) (weightsHO nn) /\
  List.length (biasH nn) = h /\ List.length (biasO nn) = o.

(** *** Free fall *)

(** A single bird at the spawn point with velocity 0, no pipes, player mode. *)
Definition spawnState (nn : NeuralNetwork R) : Game R :=
  {| birds := [newBird nn Yellow];
     pipes := []; lastPipeSpawn := lit 0; scoreRef := lit 0; savedBrains := [];
     gameState := PLAYING; highScore := lit 0;
     generation := 1; aliveCount := 1; bestScore := lit 0;
     storedModel := None; draws := 0 |}.

(** [n] steps with no jump input. *)
Fixpoint fall (n : nat) (g : Game R) : Outcome (Game R) :=
  match n with
  | O => Val g
  | S k => obind (fall k g) (update Math_exp Math_random PLAYER false)
  end.

(** Bird 0 after [n] steps: velocity, [y], [alive]. *)
Definition falling (nn : NeuralNetwork R) (n : nat) : option (R * R * bool) :=
  match fall n (spawnState nn) with
  | Val g => match birds g with
             | b0 :: _ => Some (velocity b0, y b0, alive b0)
             | [] => None
             end
  | Throw => None
  end.

Definition heights (nn : NeuralNetwork R) (n : nat) : list (option R) :=
  map (fun k => option_map (fun s => snd (fst s)) (falling nn k)) (seq 0 (S n)).

(** Every element is a number smaller than the next. *)
Fixpoint increasing (l : list (option R)) : bool :=
  match l with
  | Some a :: ((Some b :: _) as rest) => ltb a b && increasing rest
  | [Some _] => true
  | [] => true
  | _ => false
  end.

(** [GRAVITY] added [n] times to 0, as [velocity += GRAVITY] does. *)
Definition accumulated (n : nat) : R := Nat.iter n (fun v => add v GRAVITY) (lit 0).

(** *** A scripted game in player mode

    One bird starting at the spawn point; the player flaps before a step
    whenever the bird is below [y = 300]; the loop calls [update] only while
    the game is [PLAYING]. *)

Definition flapBelow300 (g : Game R) : Game R :=
  match birds g with
  | b0 :: _ => if ltb (lit 300) (y b0) then jump PLAYER false g else g
  | [] => g
  end.

Definition scriptedStep (g : Game R) : Outcome (Game R) :=
  match gameState (flapBelow300 g) with
  | PLAYING => update Math_exp Math_random PLAYER false (flapBelow300 g)
  | _ => Val (flapBelow300 g)
  end.

Fixpoint scriptedGame (nn : NeuralNetwork R) (n : nat) : Game R :=
  match n with
  | O => spawnState nn
  | S k => match scriptedStep (scriptedGame nn k) with
           | Val g => g
           | Throw => scriptedGame nn k
           end
  end.

(** Alive, score, distance and fitness of each bird. *)
Definition standing (g : Game R) : list (bool * R * R * R) :=
  map (fun b => (alive b, score b, distance b, fitness b)) (birds g).

End Vocabulary.

(** A live bird is inside the band: [16 <= y] and [y + 16 < 600 - 100]. *)
Definition inBand (b : Bird Q) : Prop :=
  alive b = true -> (16 <= y b)%Q /\ (y b + 16 < 600 - 100)%Q.

(** The first bird of a list has the highest fitness of the list. *)
Definition headMax (l : list (Bird Q)) : Prop :=
  match l with
  | [] => True
  | p :: _ => forall b, In b l -> (fitness b <= fitness p)%Q
  end.

(** The fitness of a bird is up to date. *)
Definition upToDate (b : Bird Q) : Prop :=
  fitness b = add (distance b) (mul (score b) (lit 5000)).

(** The invariant of a generation.  All live birds have flown the same
    distance [D] and hold the same score [P]; their fitness was computed in
    the last step, from [D] and the score [P0] they held when it began.  A
    dead bird stopped no farther than [D] with a score of at most [P0], its
    fitness is up to date, and among dead birds a higher score means no
    shorter a distance. *)
Definition generationInv (g : Game Q) : Prop :=
  exists D P0 P : Q,
    (P0 <= P)%Q /\
    (forall b, In b (birds g) ->
       if alive b
       then distance b = D /\ score b = P /\ fitness b = add D (mul P0 (lit 5000))
       else (distance b <= D)%Q /\ (score b <= P0)%Q /\ upToDate b) /\
    (forall b c, In b (birds g) -> In c (birds g) ->
       alive b = false -> alive c = false ->
       (score b < score c)%Q -> (distance b <= distance c)%Q).

(** The states of a training session: "START TRAINING", then the steps the
    loop makes in AI mode while the game is [PLAYING] (rollovers are steps). *)
Inductive reachable (Math_exp : Q -> Q) (Math_random : nat -> Q) : Game Q -> Prop :=
| reachable_start (g0 : Game Q) :
    reachable Math_exp Math_random (startTraining Math_random g0)
| reachable_step (g g' : Game Q) (isAutopilot : bool) :
    reachable Math_exp Math_random g ->
    gameState g = PLAYING ->
    update Math_exp Math_random AI isAutopilot g = Val g' ->
    reachable Math_exp Math_random g'.

(** A stored text that is valid JSON but no controller: [JSON.parse("{}")]
    is the empty object (any other text is taken not to parse). *)
Definition parseEmptyObject (text : string) : Outcome (any Q) :=
  if String.eqb text "{}" then Val (Obj []) else Throw.

(** ** Concrete inputs *)

Module Samples.

(** A source of draws in [0, 1). *)
Definition sampleRandom (n : nat) : Q := Qred (Z.of_nat (n mod 10) # 10).

(** A stand-in for [Math.exp] on [Q]: positive, strictly increasing and 1
    at 0, so that [sigmoid s > 0.5] exactly when [s > 0], as with the real
    exponential. *)
Definition sampleExp (t : Q) : Q :=
  if Qle_bool 0 t then Qred (1 + t) else Qred (1 / (1 - t)).

Definition sampleNetwork : NeuralNetwork Q :=
  fst (new_NeuralNetwork sampleRandom 4 6 1 0).

Definition pipeAt (px top : Q) (p : bool) : Pipe Q :=
  {| pipe_x := px; topHeight := top; passed := p |}.

Definition birdAt (by_ v : Q) : Bird Q :=
  {| x := div CANVAS_WIDTH (lit 3); y := by_; velocity := v; rotation := 0%Q;
     brain := sampleNetwork; fitness := 0%Q; score := 0%Q; distance := 0%Q;
     alive := true; color := Yellow |}.

End Samples.

(** *** The scripted game with the first pipe's gap at [225, 375]

    In exact arithmetic and in binary64 (where the player-mode game never
    calls [Math.exp]). *)

Module Runs.

Definition steadyRandom (n : nat) : Q := (7 # 10)%Q.

Definition playerStart : Game Q := spawnState Q Samples.sampleNetwork.

Definition flap : Game Q -> Game Q := flapBelow300 Q.

Definition playerStep : Game Q -> Outcome (Game Q) :=
  scriptedStep Q Samples.sampleExp steadyRandom.

Definition scripted : nat -> Game Q :=
  scriptedGame Q Samples.sampleExp steadyRandom Samples.sampleNetwork.

Definition scriptedBinary64 : nat -> Game float :=
  scriptedGame float (fun t => t) (fun _ => Binary64.of_Q (7 # 10)%Q)
               (fst (new_NeuralNetwork (fun _ => 0.5%float) 4 6 1 0)).

End Runs.

(** *** A training session

    The draws give bird 1 a controller that lets it sink as the first pipe
    comes closer, and every other bird one that flaps below [y = 300]; the
    first pipe has its gap at [225, 375].  (With [Samples.sampleExp] as with
    the real exponential, these controllers decide by the sign of a linear
    form of the inputs.) *)

Module Training.

Definition trainingRandom (n : nat) : Q :=
  if Nat.ltb n 1900 then
    match (n mod 38)%nat with
    | 13%nat => if Nat.eqb (n / 38) 1 then 0.575%Q else 0.5%Q
    | 19%nat => 0.75%Q
    | 25%nat => 0.75%Q
    | 26%nat => 0.25%Q
    | 32%nat => if Nat.eqb (n / 38) 1 then 0.6525%Q else 0.625%Q
    | _ => 0.5%Q
    end
  else 0.7%Q.

Definition start : Game Q := startTraining trainingRandom Runs.playerStart.

Fixpoint trained (n : nat) : Game Q :=
  match n with
  | O => start
  | S k =>
      let g := trained k in
      match gameState g with
      | PLAYING =>
          match update Samples.sampleExp trainingRandom AI false g with
          | Val g' => g'
          | Throw => g
          end
      | _ => g
      end
  end.

(** The generation, and alive, score, distance and fitness of the first two
    birds. *)
Definition report (g : Game Q) : nat * list (bool * Q * Q * Q) :=
  (generation g,
   map (fun b => (alive b, score b, distance b, fitness b)) (firstn 2 (birds g))).

End Training.

(** ** Vocabulary of the further properties *)

Section MoreVocabulary.

Context (R : Type) `{Number R}.

(** The parameters of a network, array by array. *)
Definition parameters (nn : NeuralNetwork R) : list R :=
  List.concat (weightsIH nn) ++ List.concat (weightsHO nn) ++ biasH nn ++ biasO nn.

(** The number of parameters of a network of the given dimensions. *)
Definition parameterCount (i h o : nat) : nat := i * h + h * o + h + o.

(** Two networks of the same dimensions and shapes whose parameters are
    related entry by entry. *)
Definition entrywise (P : R -> R -> Prop) (nn nn' : NeuralNetwork R) : Prop :=
  inputNodes nn' = inputNodes nn /\ hiddenNodes nn' = hiddenNodes nn /\
  outputNodes nn' = outputNodes nn /\
  Forall2 (Forall2 P) (weightsIH nn) (weightsIH nn') /\
  Forall2 (Forall2 P) (weightsHO nn) (weightsHO nn') /\
  Forall2 P (biasH nn) (biasH nn') /\
  Forall2 P (biasO nn) (biasO nn').

(** The value [data.key] has when the read does not throw. *)
Definition member (data : any R) (key : string) : any R :=
  match data with
  | Obj fields => lookup key fields
  | _ => Undefined
  end.

(** A number that [Array(n)] refuses. *)
Definition invalidLength (v : any R) : Prop :=
  match v with
  | Num r => asLength r = None
  | _ => False
  end.

End MoreVocabulary.

(** A source of draws like [Math.random]: every draw is in [0, 1). *)
Definition unitDraws (rnd : nat -> Q) : Prop :=
  forall k, (0 <= rnd k)%Q /\ (rnd k < 1)%Q.

(** A parameter after a mutation: left as it was, or the sum (the program's
    addition) of what it was and an offset [d] with [-0.5 <= d < 0.5]. *)
Definition nearby (v v' : Q) : Prop :=
  v' = v \/
  exists d : Q, v' = add v d /\ (- (1 # 2) <= d)%Q /\ (d < (1 # 2))%Q.


Section StepVocabulary.

Context (R : Type) `{Number R}.

(** Every row that [predict] indexes is there. *)
Definition indexable (nn : NeuralNetwork R) : Prop :=
  (hiddenNodes nn = 0 \/ inputNodes nn <= List.length (weightsIH nn)) /\
  (outputNodes nn = 0 \/ hiddenNodes nn <= List.length (weightsHO nn)).

(** Whether the birds of a step are steered by their networks. *)
Definition steered (mode : GameMode) (isAutopilot : bool) : bool :=
  match mode with AI => true | PLAYER => isAutopilot end.

End StepVocabulary.

(** A pipe on or entering the screen, with a gap the spawn policy can draw:
    [-52 <= x <= 400] and [50 <= topHeight <= 300]. *)
Definition pipeInRange (p : Pipe Q) : Prop :=
  (-52 <= pipe_x p)%Q /\ (pipe_x p <= 400)%Q /\
  (50 <= topHeight p)%Q /\ (topHeight p <= 300)%Q.

(** The pipes are in range and the spawn counter is between 0 and
    [PIPE_SPAWN_RATE]. *)
Definition worldInRange (g : Game Q) : Prop :=
  Forall pipeInRange (pipes g) /\
  (0 <= lastPipeSpawn g)%Q /\ (lastPipeSpawn g <= 100)%Q.

(** *** A small flock

    Two birds in front of a pipe whose gap is at [200, 350]: the first is
    alive at the spawn height, the second went down earlier. *)

Module Flock.

Definition down : Bird Q :=
  {| x := div CANVAS_WIDTH (lit 3); y := 484%Q; velocity := 9%Q; rotation := 0%Q;
     brain := Samples.sampleNetwork; fitness := 5090%Q; score := 1%Q; distance := 90%Q;
     alive := false; color := Yellow |}.

Definition pair : Game Q :=
  {| birds := [Samples.birdAt 300 0; down];
     pipes := [Samples.pipeAt 400 200 false];
     lastPipeSpawn := 40%Q; scoreRef := 1%Q; savedBrains := [];
     gameState := PLAYING; highScore := 0%Q;
     generation := 1; aliveCount := 1; bestScore := 1%Q;
     storedModel := None; draws := 0 |}.

(** The game of a single bird that is down. *)
Definition fallen : Game Q :=
  {| birds := [down]; pipes := [Samples.pipeAt 100 200 true];
     lastPipeSpawn := 40%Q; scoreRef := 1%Q; savedBrains := [];
     gameState := PLAYING; highScore := 0%Q;
     generation := 1; aliveCount := 1; bestScore := 0%Q;
     storedModel := None; draws := 0 |}.

End Flock.

(** The population of a training session: [AI_POPULATION] birds, each with
    a network of topology 4/6/1. *)
Definition trainingPopulation (g : Game Q) : Prop :=
  List.length (birds g) = AI_POPULATION /\
  Forall (fun b => hasTopology Q 4 6 1 (brain b)) (birds g).

(** A list of birds in which no bird has a higher fitness than an earlier
    one. *)
Fixpoint descending (l : list (Bird Q)) : Prop :=
  match l with
  | [] => True
  | a :: l' => (forall b, In b l' -> (fitness b <= fitness a)%Q) /\ descending l'
  end.

Section Frames.

Context (R : Type) `{Number R}.
Variable Math_exp : R -> R.
Variable Math_random : nat -> R.

(** [k] steps in a row; a step that throws ends them. *)
Fixpoint steps (mode : GameMode) (isAutopilot : bool) (k : nat) (g : Game R)
  : Outcome (Game R) :=
  match k with
  | O => Val g
  | S k' => obind (update Math_exp Math_random mode isAutopilot g)
                  (steps mode isAutopilot k')
  end.

(** What a frame returns when it makes [k] steps and leaves [acc] in the
    accumulator. *)
Definition afterFrame (mode : GameMode) (isAutopilot : bool) (k : nat)
           (time acc : R) (g : Game R) : Outcome (Clock R * Game R) :=
  obind (steps mode isAutopilot k g)
        (fun g' => Val ({| lastTime := time; accumulator := acc |}, g')).

End Frames.

(** *** Rounding edges

    Inputs in binary64 at which a rounded sum decides differently from the
    exact one. *)

Module Rounding.

(** The exact value of a finite double. *)
Definition exactValue (a : float) : option Q :=
  match Prim2SF a with
  | S754_zero _ => Some 0%Q
  | S754_finite s m e =>
      let v := (inject_Z (Zpos m) * Qpower 2 e)%Q in
      Some (Qred (if s then (- v)%Q else v))
  | _ => None
  end.

(** A bird 0.6 above [y = 244] (to the nearest double), at rest, and a pipe
    around it whose gap is [110, 260]. *)
Definition edgeBird : Bird float :=
  {| x := div CANVAS_WIDTH (lit 3); y := 0x1.e6ccccccccccep+7%float;
     velocity := 0%float; rotation := 0%float;
     brain := fst (new_NeuralNetwork (fun _ => 0x1p-1%float) 4 6 1 0);
     fitness := 0%float; score := 0%float; distance := 0%float;
     alive := true; color := Yellow |}.

Definition edgePipe : Pipe float :=
  {| pipe_x := 100%float; topHeight := 110%float; passed := false |}.

(** The bird after a step of manual play. *)
Definition edgeAfter : Bird float :=
  match updateBird (fun t => t) false edgePipe [edgePipe] edgeBird with
  | Val b' => b'
  | Throw => edgeBird
  end.

(** Draws that select the large mutation and give it the largest offset:
    0, 0, and the double below 1. *)
Definition edgeDraws (n : nat) : float :=
  match n with
  | 2 => 0x1.fffffffffffffp-1%float
  | _ => 0%float
  end.

(** A clock 50 ms before the frame at [time = 1050], in each arithmetic. *)
Definition clockBinary64 : Clock float :=
  {| lastTime := 1000%float; accumulator := 0%float |}.

Definition clockExact : Clock Q :=
  {| lastTime := 1000%Q; accumulator := 0%Q |}.

End Rounding.

(** * Properties *)

(** ** Exact arithmetic: the operations against the order of [Q] *)

Module ExactFacts.
Import Exact.

Lemma Qred_integer (z : Z) : Qred (inject_Z z) = inject_Z z.
Proof.
  unfold Qred, inject_Z; simpl.
  generalize (Z.ggcd_gcd z 1) (Z.ggcd_correct_divisors z 1).
  destruct (Z.ggcd z 1) as [g [a b]]; simpl.
  rewrite Z.gcd_1_r. intros -> [Ha Hb].
  rewrite Z.mul_1_l in Ha, Hb. subst a b. reflexivity.
Qed.

Lemma asLength_ofNat (n : nat) :
  (Z.of_nat n < 2 ^ 32)%Z -> asLength (ofNat (R := Q) n) = Some n.
Proof.
  intros Hn.
  change (asLength (ofNat (R := Q) n)) with (QasLength (Qred (inject_Z (Z.of_nat n)))).
  unfold QasLength. rewrite !Qred_integer.
  cbn [Qnum Qden inject_Z Pos.eqb andb].
  destruct (Z.leb_spec 0 (Z.of_nat n)); [|lia].
  destruct (Z.ltb_spec (Z.of_nat n) (2 ^ 32)); [|lia].
  simpl. now rewrite Nat2Z.id.
Qed.

Lemma ltb_lt (a b : Q) : ltb a b = true <-> (a < b)%Q.
Proof.
  change (ltb a b) with (Qlt_bool a b). unfold Qlt_bool. rewrite negb_true_iff.
  split; intros Hab.
  - apply Qnot_le_lt. intros Hle. apply Qle_bool_iff in Hle. congruence.
  - destruct (Qle_bool b a) eqn:E; [|reflexivity].
    apply Qle_bool_iff in E. exfalso. apply (Qlt_not_le _ _ Hab E).
Qed.

Lemma leb_le (a b : Q) : leb a b = true <-> (a <= b)%Q.
Proof. change (leb a b) with (Qle_bool a b). apply Qle_bool_iff. Qed.

Lemma ltb_ge (a b : Q) : ltb a b = false <-> (b <= a)%Q.
Proof.
  rewrite <- not_true_iff_false, ltb_lt. split.
  - apply Qnot_lt_le.
  - intros Hle Hlt. apply (Qlt_not_le _ _ Hlt Hle).
Qed.

Lemma leb_gt (a b : Q) : leb a b = false <-> (b < a)%Q.
Proof.
  rewrite <- not_true_iff_false, leb_le. split.
  - apply Qnot_le_lt.
  - intros Hlt Hle. apply (Qlt_not_le _ _ Hlt Hle).
Qed.

Lemma add_eq (a b : Q) : (add a b == a + b)%Q.
Proof. exact (Qred_correct (a + b)%Q). Qed.
Lemma sub_eq (a b : Q) : (sub a b == a - b)%Q.
Proof. exact (Qred_correct (a - b)%Q). Qed.
Lemma mul_eq (a b : Q) : (mul a b == a * b)%Q.
Proof. exact (Qred_correct (a * b)%Q). Qed.
Lemma lit_eq (a : Q) : (lit a == a)%Q.
Proof. exact (Qred_correct a). Qed.

End ExactFacts.

(** Turns the comparisons of the program on [Q] into propositions of [Q] and
    its operations into those of [Q], for [lra]. *)
Ltac exact_arith :=
  unfold gtb, geb in *;
  repeat match goal with
         | H : ltb _ _ = true |- _ => apply ExactFacts.ltb_lt in H
         | H : ltb _ _ = false |- _ => apply ExactFacts.ltb_ge in H
         | H : leb _ _ = true |- _ => apply ExactFacts.leb_le in H
         | H : leb _ _ = false |- _ => apply ExactFacts.leb_gt in H
         | |- ltb _ _ = true => apply ExactFacts.ltb_lt
         | |- ltb _ _ = false => apply ExactFacts.ltb_ge
         | |- leb _ _ = true => apply ExactFacts.leb_le
         | |- leb _ _ = false => apply ExactFacts.leb_gt
         end;
  repeat first [ rewrite ExactFacts.add_eq in * | rewrite ExactFacts.sub_eq in *
               | rewrite ExactFacts.mul_eq in * | rewrite ExactFacts.lit_eq in * ].

(** ** Serialization round trip *)

Section Serialization.

Context (R : Type) `{Number R}.
Variable Math_exp : R -> R.
Variable Math_random : nat -> R.

Lemma allSome_numbers (l : list R) :
  allSome (map (@asNumber R) (map (@Num R) l)) = Some l.
Proof.
  induction l as [|a l IH]; simpl; [reflexivity|].
  now rewrite IH.
Qed.

Lemma asVector_numbers (l : list R) : asVector (Arr (map (@Num R) l)) = Some l.
Proof. apply allSome_numbers. Qed.

Lemma asMatrix_rows (m : list (list R)) :
  asMatrix (Arr (map (fun row => Arr (map (@Num R) row)) m)) = Some m.
Proof.
  unfold asMatrix. induction m as [|row m IH]; simpl; [reflexivity|].
  rewrite allSome_numbers. simpl in IH. now rewrite IH.
Qed.

(** Integers below 2^32 are numbers of the representation. *)
Hypothesis asLength_ofNat :
  forall n, (Z.of_nat n < 2 ^ 32)%Z -> asLength (ofNat (R := R) n) = Some n.

Lemma fromJSON_toJSON_typed (c : NeuralNetwork R) (n : nat) :
  validDims R c ->
  exists o n', fromJSON Math_random (toJSON c) n = (Val o, n') /\ typed o = Some c.
Proof.
  intros (Hi & Hh & Ho).
  unfold fromJSON, toJSON, get. cbn [lookup String.eqb Ascii.eqb Bool.eqb andb].
  unfold construct, arrayOf.
  rewrite !asLength_ofNat by assumption.
  eexists. eexists. split; [reflexivity|].
  unfold typed. cbn [o_inputNodes o_hiddenNodes o_outputNodes o_weightsIH o_weightsHO
                     o_biasH o_biasO asDimension].
  rewrite !asLength_ofNat by assumption.
  rewrite !asMatrix_rows, !asVector_numbers.
  destruct c; reflexivity.
Qed.

End Serialization.

(** C4.  For every neural controller [c] (of dimensions the constructor
    accepts) and every input vector [inputs], in particular every vector of
    4 numbers: [fromJSON(toJSON(c))] returns an object that is [c] field for
    field, and its [predict(inputs)] is [c.predict(inputs)]. *)
Theorem fromJSON_toJSON_predict
  (Math_exp : Q -> Q) (Math_random : nat -> Q)
  (c : NeuralNetwork Q) (inputs : list Q) (n : nat) :
  validDims Q c ->
  exists o n',
    fromJSON Math_random (toJSON c) n = (Val o, n') /\
    typed o = Some c /\
    predictObject Math_exp o inputs = Some (predict Math_exp c inputs).
Proof.
  intros Hc.
  destruct (fromJSON_toJSON_typed Q Math_random ExactFacts.asLength_ofNat c n Hc)
    as (o & n' & Hfrom & Htyped).
  exists o, n'. repeat split; trivial.
  unfold predictObject. now rewrite Htyped.
Qed.

Lemma fromJSON_toJSON_predict_witness :
  exists o n',
    fromJSON Samples.sampleRandom (toJSON Samples.sampleNetwork) 0 = (Val o, n') /\
    typed o = Some Samples.sampleNetwork /\
    predictObject Samples.sampleExp o [0.5; 0.5; 0.5; 0.5]%Q
    = Some (predict Samples.sampleExp Samples.sampleNetwork [0.5; 0.5; 0.5; 0.5]%Q).
Proof.
  apply (fromJSON_toJSON_predict Samples.sampleExp Samples.sampleRandom
           Samples.sampleNetwork [0.5; 0.5; 0.5; 0.5]%Q 0).
  unfold validDims. vm_compute. repeat split.
Defined.

(** ** The sensing target *)

Lemma find_first {A} (f : A -> bool) (l : list A) :
  match find f l with
  | Some a => exists pre post,
      l = pre ++ a :: post /\ f a = true /\ forall q, In q pre -> f q = false
  | None => forall q, In q l -> f q = false
  end.
Proof.
  induction l as [|a l IH]; simpl.
  - intros q [].
  - destruct (f a) eqn:Ea.
    + exists [], l. repeat split; trivial. intros q [].
    + destruct (find f l) as [b|].
      * destruct IH as (pre & post & -> & Hb & Hpre).
        exists (a :: pre), post. repeat split; trivial.
        intros q [<-|Hq]; auto.
      * intros q [<-|Hq]; auto.
Qed.

Ltac unfold_config :=
  unfold GRAVITY, JUMP_STRENGTH, PIPE_SPEED, PIPE_SPAWN_RATE, PIPE_WIDTH, PIPE_GAP,
    BIRD_RADIUS, GROUND_HEIGHT, CANVAS_WIDTH, CANVAS_HEIGHT in *.

Lemma ahead_exact (b0 : Bird Q) (q : Pipe Q) :
  (ahead (Some b0) q = true <-> (x b0 - 16 < pipe_x q + 52)%Q) /\
  (ahead (Some b0) q = false <-> (pipe_x q + 52 <= x b0 - 16)%Q).
Proof.
  unfold ahead, gtb. unfold_config.
  rewrite ExactFacts.ltb_lt, ExactFacts.ltb_ge.
  rewrite ExactFacts.add_eq, ExactFacts.sub_eq, !ExactFacts.lit_eq.
  split; reflexivity.
Qed.

(** C6 (amended).  The sensing target of a step is the first pipe of the
    sequence whose trailing edge [pipe_x + PIPE_WIDTH] is still ahead of the
    rear edge [x - BIRD_RADIUS] of bird 0; when there is no such pipe (or no
    bird), it is a virtual pipe at [x = CANVAS_WIDTH] whose gap is centred
    ([topHeight = CANVAS_HEIGHT / 2 - PIPE_GAP / 2]).  The sensing input
    always has 4 elements. *)
Theorem closestPipe_target (bs : list (Bird Q)) (ps : list (Pipe Q)) (bird : Bird Q) :
  let target := closestPipe bs ps in
  ((exists b0 rest pre post,
       bs = b0 :: rest /\ ps = pre ++ target :: post /\
       (x b0 - 16 < pipe_x target + 52)%Q /\
       (forall q, In q pre -> (pipe_x q + 52 <= x b0 - 16)%Q))
   \/
   ((bs = [] \/
     exists b0 rest, bs = b0 :: rest /\
                     forall q, In q ps -> (pipe_x q + 52 <= x b0 - 16)%Q) /\
    target = virtualPipe /\
    (pipe_x target == 400)%Q /\ (topHeight target == 600 / 2 - 150 / 2)%Q))
  /\ List.length (senses target bird) = 4.
Proof.
  intros target. split; [|reflexivity].
  subst target. unfold closestPipe.
  pose proof (find_first (ahead (hd_error bs)) ps) as Hfind.
  destruct (find (ahead (hd_error bs)) ps) as [p|].
  - left. destruct Hfind as (pre & post & Hps & Hp & Hpre).
    destruct bs as [|b0 rest]; [discriminate Hp|].
    exists b0, rest, pre, post. cbn [hd_error] in Hp, Hpre.
    split; [reflexivity|]. split; [exact Hps|]. split.
    + now apply ahead_exact.
    + intros q Hq. apply ahead_exact. auto.
  - right. split; [|split; [reflexivity|split; vm_compute; reflexivity]].
    destruct bs as [|b0 rest]; [now left|right].
    exists b0, rest. split; [reflexivity|].
    intros q Hq. apply ahead_exact. apply (Hfind q Hq).
Qed.

(** C6 as stated fails: with bird 0 at [x = 400/3] (rear edge 117.33, leading
    edge 149.33) and a pipe whose trailing edge is at 137, the target is that
    pipe, although its trailing edge is behind the bird's leading edge and
    the next pipe is the first one ahead of it. *)
Lemma closestPipe_not_leading_edge :
  let bird := Samples.birdAt 300 0 in
  let near := Samples.pipeAt 85 225 false in
  let far := Samples.pipeAt 385 100 false in
  closestPipe [bird] [near; far] = near /\
  Qle_bool (pipe_x near + 52) (x bird + 16) = true /\
  Qle_bool (pipe_x far + 52) (x bird + 16) = false.
Proof. vm_compute. repeat split. Qed.

(** ** Pipe collision *)

Section Collision.

Context (R : Type) `{Number R}.

(** The loop only ever clears the flag, and clears it when some pipe is hit. *)
Lemma pipeCollision_existsb (bx by_ : R) (ps : list (Pipe R)) (alive0 : bool) :
  pipeCollision bx by_ ps alive0 = alive0 && negb (existsb (hitsPipe R bx by_) ps).
Proof.
  unfold pipeCollision. revert alive0.
  induction ps as [|p ps IH]; intros alive0; simpl.
  - now rewrite andb_true_r.
  - rewrite IH. unfold hitsPipe at 2.
    destruct (overlapsX bx p), (outsideGap by_ p), alive0; simpl; trivial.
Qed.

End Collision.

Lemma overlapsX_exact (bx : Q) (p : Pipe Q) :
  overlapsX bx p = true <-> (pipe_x p < bx + 16 /\ bx - 16 < pipe_x p + 52)%Q.
Proof.
  unfold overlapsX, gtb. unfold_config.
  rewrite andb_true_iff, !ExactFacts.ltb_lt.
  rewrite !ExactFacts.add_eq, ExactFacts.sub_eq, !ExactFacts.lit_eq.
  reflexivity.
Qed.

Lemma outsideGap_exact (by_ : Q) (p : Pipe Q) :
  outsideGap by_ p = true <->
  (by_ - 16 < topHeight p \/ topHeight p + 150 < by_ + 16)%Q.
Proof.
  unfold outsideGap, gtb. unfold_config.
  rewrite orb_true_iff, !ExactFacts.ltb_lt.
  rewrite !ExactFacts.add_eq, ExactFacts.sub_eq, !ExactFacts.lit_eq.
  reflexivity.
Qed.

(** Without rounding the comparisons of the loop are those of the exact
    edges: a bird is killed exactly when some pipe overlaps it horizontally
    while its extent [[y - 16, y + 16]] is not inside that pipe's gap
    [[topHeight, topHeight + 150]]. *)
Lemma pipeCollision_exact (bx by_ : Q) (ps : list (Pipe Q)) :
  (pipeCollision bx by_ ps true = false <->
   exists p, In p ps /\
             (pipe_x p < bx + 16 /\ bx - 16 < pipe_x p + 52)%Q /\
             (by_ - 16 < topHeight p \/ topHeight p + 150 < by_ + 16)%Q)
  /\
  ((forall p, In p ps -> (topHeight p <= by_ - 16 /\ by_ + 16 <= topHeight p + 150)%Q) ->
   forall alive0, pipeCollision bx by_ ps alive0 = alive0).
Proof.
  split.
  - rewrite pipeCollision_existsb. cbn [andb]. rewrite negb_false_iff, existsb_exists.
    split.
    + intros (p & Hin & Hhit). exists p. split; [exact Hin|].
      unfold hitsPipe in Hhit. apply andb_true_iff in Hhit as [Ho Hg].
      split; [now apply overlapsX_exact | now apply outsideGap_exact].
    + intros (p & Hin & Ho & Hg). exists p. split; [exact Hin|].
      unfold hitsPipe. apply andb_true_iff.
      split; [now apply overlapsX_exact | now apply outsideGap_exact].
  - intros Hin alive0. rewrite pipeCollision_existsb.
    replace (existsb (hitsPipe Q bx by_) ps) with false; [now rewrite andb_true_r|].
    symmetry. apply not_true_iff_false. intros Hex.
    apply existsb_exists in Hex as (p & Hp & Hhit).
    unfold hitsPipe in Hhit. apply andb_true_iff in Hhit as [_ Hg].
    apply outsideGap_exact in Hg. destruct (Hin p Hp) as [Htop Hbot].
    destruct Hg as [Hg|Hg].
    + apply (Qlt_not_le _ _ Hg Htop).
    + apply (Qlt_not_le _ _ Hg Hbot).
Qed.

(** In both arithmetics a number is not less than itself, so an edge that
    touches a boundary of the gap is not outside it. *)
Lemma ltb_irrefl_exact (a : Q) : ltb a a = false.
Proof. apply ExactFacts.ltb_ge. apply Qle_refl. Qed.

Lemma ltb_irrefl_binary64 (a : float) : ltb a a = false.
Proof.
  change (ltb a a) with (PrimFloat.ltb a a). rewrite ltb_spec. unfold SFltb.
  destruct (Prim2SF a) as [s|s| |s m e]; cbn [SFcompare].
  - reflexivity.
  - now destruct s.
  - reflexivity.
  - rewrite Z.compare_refl.
    assert (E : PosDef.Pos.compare_cont Eq m m = Eq) by apply Pos.compare_refl.
    rewrite E. now destruct s.
Qed.

(** C5 (amended).  In a step, a bird that was alive is dead afterwards if
    and only if it reached the ground or, for some pipe, the comparisons of
    the collision loop hold on the values the program computes:
    [x + 16 > pipe.x] and [x - 16 < pipe.x + 52], and [y - 16 < topHeight]
    or [y + 16 > topHeight + 150], where every sum and difference is the
    program's (in binary64, rounded).  A bird for which neither vertical
    comparison holds for any pipe is never killed by the pipe loop, whatever
    the horizontal overlap; touching a boundary is such a case, for every
    number and in both arithmetics.  Holds for every number
    representation. *)
Theorem updateBird_pipe_collision (R : Type) (NR : Number R) (Math_exp : R -> R)
        (ai : bool) (t : Pipe R) (ps : list (Pipe R)) (b b' : Bird R) :
  updateBird Math_exp ai t ps b = Val b' ->
  alive b = true ->
  (exists v0,
      decide Math_exp ai t b = Val v0 /\
      let y1 := add (y b) (add v0 GRAVITY) in
      x b' = x b /\
      y b' = (if hitsCeiling y1 then BIRD_RADIUS else y1) /\
      (alive b' = false <->
       hitsGround y1 = true \/
       exists p, In p ps /\
                 gtb (add (x b') BIRD_RADIUS) (pipe_x p) = true /\
                 ltb (sub (x b') BIRD_RADIUS) (add (pipe_x p) PIPE_WIDTH) = true /\
                 (ltb (sub (y b') BIRD_RADIUS) (topHeight p) = true \/
                  gtb (add (y b') BIRD_RADIUS) (add (topHeight p) PIPE_GAP) = true)) /\
      ((forall p, In p ps ->
                  ltb (sub (y b') BIRD_RADIUS) (topHeight p) = false /\
                  gtb (add (y b') BIRD_RADIUS) (add (topHeight p) PIPE_GAP) = false) ->
       alive b' = negb (hitsGround y1))) /\
  (forall a : Q, ltb a a = false) /\
  (forall a : float, ltb a a = false).
Proof.
  intros Hrun Halive.
  split; [|split; [exact ltb_irrefl_exact|exact ltb_irrefl_binary64]].
  unfold updateBird in Hrun. rewrite Halive in Hrun. cbn [negb] in Hrun.
  destruct (decide Math_exp ai t b) as [v0|]; [|discriminate].
  cbn [obind] in Hrun. injection Hrun as <-.
  exists v0. split; [reflexivity|]. cbv zeta. cbn [x y alive].
  split; [reflexivity|]. split; [reflexivity|].
  set (y1 := add (y b) (add v0 GRAVITY)).
  set (y2 := if hitsCeiling y1 then BIRD_RADIUS else y1).
  rewrite pipeCollision_existsb.
  assert (Hhit : existsb (hitsPipe R (x b) y2) ps = true <->
                 exists p, In p ps /\
                           gtb (add (x b) BIRD_RADIUS) (pipe_x p) = true /\
                           ltb (sub (x b) BIRD_RADIUS) (add (pipe_x p) PIPE_WIDTH) = true /\
                           (ltb (sub y2 BIRD_RADIUS) (topHeight p) = true \/
                            gtb (add y2 BIRD_RADIUS) (add (topHeight p) PIPE_GAP) = true)).
  { rewrite existsb_exists. split; intros (p & Hp & Hhit); exists p; (split; [exact Hp|]).
    - unfold hitsPipe, overlapsX, outsideGap in Hhit.
      apply andb_true_iff in Hhit as [Ho Hg].
      apply andb_true_iff in Ho as [Ho1 Ho2]. apply orb_true_iff in Hg. auto.
    - destruct Hhit as (Ho1 & Ho2 & Hg). unfold hitsPipe, overlapsX, outsideGap.
      apply andb_true_iff. split; [apply andb_true_iff; auto|now apply orb_true_iff]. }
  split.
  - rewrite <- Hhit.
    destruct (hitsGround y1), (existsb (hitsPipe R (x b) y2) ps); cbn;
      intuition congruence.
  - intros Hin.
    assert (Hnone : existsb (hitsPipe R (x b) y2) ps = false).
    { apply not_true_iff_false. intros Hex. apply Hhit in Hex as (p & Hp & _ & _ & Hg).
      destruct (Hin p Hp) as [Htop Hbot]. destruct Hg; congruence. }
    rewrite Hnone. now destruct (hitsGround y1).
Qed.

Lemma updateBird_pipe_collision_witness :
  exists v0,
    decide (fun t => t) false Rounding.edgePipe Rounding.edgeBird = Val v0 /\
    x Rounding.edgeAfter = x Rounding.edgeBird /\
    (alive Rounding.edgeAfter = false <->
     hitsGround (add (y Rounding.edgeBird) (add v0 GRAVITY)) = true \/
     exists p, In p [Rounding.edgePipe] /\
               gtb (add (x Rounding.edgeAfter) BIRD_RADIUS) (pipe_x p) = true /\
               ltb (sub (x Rounding.edgeAfter) BIRD_RADIUS) (add (pipe_x p) PIPE_WIDTH) = true /\
               (ltb (sub (y Rounding.edgeAfter) BIRD_RADIUS) (topHeight p) = true \/
                gtb (add (y Rounding.edgeAfter) BIRD_RADIUS) (add (topHeight p) PIPE_GAP)
                = true)).
Proof.
  destruct (updateBird_pipe_collision float _ (fun t => t) false Rounding.edgePipe
              [Rounding.edgePipe] Rounding.edgeBird Rounding.edgeAfter)
    as [(v0 & Hdecide & Hbird) _].
  - vm_compute. reflexivity.
  - reflexivity.
  - exists v0. split; [exact Hdecide|]. cbv zeta in Hbird.
    destruct Hbird as (Hx & _ & Hiff & _). split; [exact Hx|exact Hiff].
Defined.

(** C5 as stated, about the extent [[y - 16, y + 16]] itself, fails at a
    rounding edge of binary64: after a step of manual play the bird is at
    [y = 244 + 2^-45] inside the horizontal span of a pipe whose gap is
    [110, 260]; its lower edge [y + 16] is below the gap by [2^-45], but the
    sum rounds to 260, the comparison [y + 16 > topHeight + 150] is false,
    and the bird stays alive. *)
Lemma pipe_edge_rounded_away :
  updateBird (fun t => t) false Rounding.edgePipe [Rounding.edgePipe] Rounding.edgeBird
  = Val Rounding.edgeAfter /\
  alive Rounding.edgeAfter = true /\
  gtb (add (x Rounding.edgeAfter) BIRD_RADIUS) (pipe_x Rounding.edgePipe) = true /\
  ltb (sub (x Rounding.edgeAfter) BIRD_RADIUS) (add (pipe_x Rounding.edgePipe) PIPE_WIDTH)
  = true /\
  Rounding.exactValue (y Rounding.edgeAfter) = Some (8584986789675009 # 35184372088832)%Q /\
  Rounding.exactValue (topHeight Rounding.edgePipe) = Some 110%Q /\
  (110 + 150 < (8584986789675009 # 35184372088832) + 16)%Q /\
  add (y Rounding.edgeAfter) BIRD_RADIUS = add (topHeight Rounding.edgePipe) PIPE_GAP.
Proof. vm_compute. repeat split. Qed.

(** ** Passage scoring *)

Section Passage.

Context (R : Type) `{Number R}.

Lemma bumpScore_x (b : Bird R) : x (bumpScore b) = x b.
Proof. unfold bumpScore. now destruct (alive b). Qed.

Lemma bumps_head (k : nat) (b0 : Bird R) (rest : list (Bird R)) :
  exists c0 cs, Nat.iter k (map (@bumpScore R _)) (b0 :: rest) = c0 :: cs /\ x c0 = x b0.
Proof.
  induction k as [|k (c0 & cs & Hk & Hx)]; simpl.
  - now exists b0, rest.
  - rewrite Hk. simpl. exists (bumpScore c0), (map (@bumpScore R _) cs).
    split; [reflexivity|]. now rewrite bumpScore_x.
Qed.

Lemma movePipe_step (p : Pipe R) (b0 c0 : Bird R) (cs : list (Bird R)) (shown : R) :
  x c0 = x b0 ->
  exists shown',
    movePipe p (c0 :: cs) shown =
    Val (if kept R p then Some (moved R b0 p) else None,
         if credits R b0 p then map (@bumpScore R _) (c0 :: cs) else c0 :: cs,
         shown').
Proof.
  intros Hx. unfold movePipe, credits, kept, moved, crossed, newX. rewrite Hx.
  destruct (ltb (add (sub (pipe_x p) PIPE_SPEED) PIPE_WIDTH) (lit 0)); simpl.
  - now exists shown.
  - destruct (passed p); simpl.
    + now exists shown.
    + destruct (gtb (x b0) (add (sub (pipe_x p) PIPE_SPEED) PIPE_WIDTH)); simpl;
        eexists; reflexivity.
Qed.

Lemma movePipes_run (ps : list (Pipe R)) (b0 : Bird R) (rest : list (Bird R)) (shown : R) :
  exists shown',
    movePipes ps (b0 :: rest) shown =
    Val (map (moved R b0) (filter (kept R) ps),
         Nat.iter (List.length (filter (credits R b0) ps)) (map (@bumpScore R _)) (b0 :: rest),
         shown').
Proof.
  induction ps as [|p ps (shown1 & IH)]; simpl.
  - now exists shown.
  - rewrite IH. simpl.
    destruct (bumps_head (List.length (filter (credits R b0) ps)) b0 rest)
      as (c0 & cs & Hk & Hx).
    rewrite Hk.
    destruct (movePipe_step p b0 c0 cs shown1 Hx) as (shown2 & Hstep).
    rewrite Hstep. simpl. exists shown2.
    destruct (kept R p), (credits R b0 p); simpl; rewrite ?Hk; reflexivity.
Qed.

End Passage.


(** ** The shape of a step *)

Lemma Val_inj {A} (a b : A) : Val a = Val b -> a = b.
Proof. now intros [= ->]. Qed.

Section Step.

Context (R : Type) `{Number R}.
Variable Math_exp : R -> R.
Variable Math_random : nat -> R.

Lemma updateBirds_each (ai : bool) (t : Pipe R) (ps : list (Pipe R))
      (bs bs' : list (Bird R)) :
  updateBirds Math_exp ai t ps bs = Val bs' ->
  Forall2 (fun b b' => updateBird Math_exp ai t ps b = Val b') bs bs'.
Proof.
  revert bs'. induction bs as [|b bs IH]; intros bs' Hrun; simpl in Hrun.
  - injection Hrun as <-. constructor.
  - destruct (updateBird Math_exp ai t ps b) as [b'|] eqn:Eb; [|discriminate].
    simpl in Hrun.
    destruct (updateBirds Math_exp ai t ps bs) as [rest|]; [|discriminate].
    injection Hrun as <-. constructor; auto.
Qed.

Lemma movePipes_bumps (ps ps' : list (Pipe R)) (bs bs' : list (Bird R)) (shown shown' : R) :
  movePipes ps bs shown = Val (ps', bs', shown') ->
  exists k, bs' = Nat.iter k (map (@bumpScore R _)) bs.
Proof.
  revert ps' bs' shown'.
  induction ps as [|p ps IH]; intros ps' bs' shown' Hrun; simpl in Hrun.
  - injection Hrun as _ <- _. now exists 0.
  - destruct (movePipes ps bs shown) as [[[ps1 bs1] shown1]|]; [|discriminate].
    destruct (IH _ _ _ eq_refl) as (k & ->).
    simpl in Hrun. unfold movePipe in Hrun.
    destruct (ltb _ _).
    + injection Hrun as _ <- _. now exists k.
    + destruct (passed p).
      * injection Hrun as _ <- _. now exists k.
      * destruct (Nat.iter k (map (@bumpScore R _)) bs) as [|c0 cs] eqn:Ek;
          [discriminate|].
        destruct (gtb _ _); injection Hrun as _ <- _.
        -- exists (S k). simpl. now rewrite Ek.
        -- exists k. now rewrite Ek.
Qed.

Lemma bumps_map (k : nat) (bs : list (Bird R)) :
  Nat.iter k (map (@bumpScore R _)) bs = map (Nat.iter k (@bumpScore R _)) bs.
Proof.
  induction k as [|k IH]; simpl.
  - now rewrite map_id.
  - now rewrite IH, map_map.
Qed.

Lemma update_cases (mode : GameMode) (ap : bool) (g g' : Game R) :
  update Math_exp Math_random mode ap g = Val g' ->
  exists bs1,
    updateBirds Math_exp (match mode with AI => true | PLAYER => ap end)
                (closestPipe (birds g) (pipes g)) (pipes g) (birds g) = Val bs1 /\
    StepEnd R Math_random mode g g' bs1.
Proof.
  unfold update. intros Hrun.
  destruct (updateBirds _ _ _ _ _) as [bs1|]; [|discriminate].
  exists bs1. split; [reflexivity|]. cbn [obind] in Hrun.
  destruct mode.
  - (* PLAYER *)
    destruct (negb (isFirstAlive bs1)) eqn:Eover.
    + injection Hrun as <-. apply EndGameOver; trivial.
      now apply negb_true_iff.
    + cbn [birds pipes lastPipeSpawn draws scoreRef] in Hrun.
      destruct (spawnPipe _ _ _ _) as [[ps1 c1] n1].
      destruct (movePipes ps1 bs1 (scoreRef g)) as [[[ps2 bs2] s2]|] eqn:Emove;
        [|discriminate].
      injection Hrun as <-. apply movePipes_bumps in Emove as (k & ->).
      apply EndPipes with (k := k); [apply bumps_map|reflexivity].
  - (* AI *)
    destruct (Nat.eqb (living bs1) 0) eqn:Eover.
    + apply Nat.eqb_eq in Eover. unfold nextGeneration in Hrun.
      cbn [birds draws] in Hrun.
      destruct (createAIBirds _ _ _ _) as [newBirds n'] eqn:Enew.
      destruct (sort bs1); [discriminate|].
      injection Hrun as <-.
      eapply EndRollover; trivial. cbn [birds]. now rewrite Enew.
    + cbn [birds pipes lastPipeSpawn draws scoreRef] in Hrun.
      destruct (spawnPipe _ _ _ _) as [[ps1 c1] n1].
      destruct (movePipes ps1 bs1 (scoreRef g)) as [[[ps2 bs2] s2]|] eqn:Emove;
        [|discriminate].
      injection Hrun as <-. apply movePipes_bumps in Emove as (k & ->).
      apply EndPipes with (k := k); [apply bumps_map|reflexivity].
Qed.

(** In AI mode a step leaves the game [PLAYING]. *)
Lemma update_playing (ap : bool) (g g' : Game R) :
  gameState g = PLAYING ->
  update Math_exp Math_random AI ap g = Val g' ->
  gameState g' = PLAYING.
Proof.
  unfold update. intros Hplaying Hrun.
  destruct (updateBirds _ _ _ _ _) as [bs1|]; [|discriminate].
  cbn [obind] in Hrun.
  destruct (Nat.eqb (living bs1) 0).
  - unfold nextGeneration in Hrun.
    destruct (createAIBirds _ _ _ _) as [newBirds n'].
    destruct (sort _); [discriminate|].
    apply Val_inj in Hrun. now subst g'.
  - cbn [birds pipes lastPipeSpawn draws scoreRef] in Hrun.
    destruct (spawnPipe _ _ _ _) as [[ps1 c1] n1].
    destruct (movePipes _ _ _) as [[[ps2 bs2] s2]|]; [|discriminate].
    apply Val_inj in Hrun. subst g'. exact Hplaying.
Qed.

End Step.

(** ** The playable band *)


Lemma updateBird_inBand (Math_exp : Q -> Q) (ai : bool) (t : Pipe Q)
      (ps : list (Pipe Q)) (b b' : Bird Q) :
  updateBird Math_exp ai t ps b = Val b' -> inBand b'.
Proof.
  unfold updateBird, inBand. destruct (alive b) eqn:Ealive; cbn [negb].
  2:{ intros [= <-] Hb. congruence. }
  destruct (decide Math_exp ai t b) as [v0|]; [|discriminate].
  cbn [obind]. intros Hb. apply Val_inj in Hb. subst b'. cbn [alive y].
  intros Halive. rewrite pipeCollision_existsb in Halive.
  apply andb_true_iff in Halive as [Halive _].
  destruct (@hitsGround Q _ _) eqn:Eground; [discriminate|].
  unfold hitsGround, geb in Eground.
  destruct (@hitsCeiling Q _ _) eqn:Eceil; unfold hitsCeiling in Eceil;
    unfold_config; exact_arith; split; lra.
Qed.

Lemma newBird_inBand (b : NeuralNetwork Q) (c : Color Q) : inBand (newBird b c).
Proof. intros _. vm_compute. repeat split; discriminate. Qed.

Lemma bumpScore_inBand (b : Bird Q) : inBand b -> inBand (bumpScore b).
Proof.
  unfold bumpScore. destruct (alive b) eqn:E; [|exact (fun Hb => Hb)].
  unfold inBand. cbn [alive y]. exact (fun Hb _ => Hb E).
Qed.

Lemma bumps_inBand (k : nat) (b : Bird Q) : inBand b -> inBand (Nat.iter k (@bumpScore Q _) b).
Proof.
  intros Hb. induction k as [|k IH]; simpl; [trivial|].
  now apply bumpScore_inBand.
Qed.

Section Creation.

Context (R : Type) `{Number R}.
Variable Math_random : nat -> R.

Lemma mapM_Forall {A B} (P : B -> Prop) (f : A -> Rand B) (l : list A) (n : nat) :
  (forall a m, P (fst (f a m))) -> Forall P (fst (mapM f l n)).
Proof.
  intros Hf. revert n. induction l as [|a l IH]; intros n; simpl.
  - constructor.
  - unfold bind, ret. specialize (Hf a n). destruct (f a n) as [b m].
    specialize (IH m). destruct (mapM f l m) as [bs m']. simpl in *.
    constructor; assumption.
Qed.

Lemma createAIBird_newBird (best : list (NeuralNetwork R)) (i n : nat) :
  exists b c, fst (createAIBird Math_random best i n) = newBird b c.
Proof.
  unfold createAIBird, bind, ret, random.
  destruct best as [|first rest].
  - destruct (new_NeuralNetwork _ _ _ _ _) as [b m]. simpl. eauto.
  - destruct (copy _ _ _) as [b m].
    destruct (Nat.ltb 0 i).
    + destruct (mutate _ _ _ _) as [b' m']. simpl. eauto.
    + simpl. eauto.
Qed.

End Creation.

(** C10.  After every simulation step, every bird whose [alive] flag is set
    has [BIRD_RADIUS <= y] and [y + BIRD_RADIUS < CANVAS_HEIGHT - GROUND_HEIGHT]
    (that is, [16 <= y < 484]). *)
Theorem alive_inside_band
  (Math_exp : Q -> Q) (Math_random : nat -> Q)
  (mode : GameMode) (isAutopilot : bool) (g g' : Game Q) :
  update Math_exp Math_random mode isAutopilot g = Val g' ->
  forall b, In b (birds g') -> alive b = true ->
            (16 <= y b)%Q /\ (y b + 16 < 600 - 100)%Q /\ (y b < 484)%Q.
Proof.
  intros Hrun b Hin Halive.
  assert (Hband : inBand b).
  { apply update_cases in Hrun as (bs1 & Hbirds & Hend).
    apply updateBirds_each in Hbirds.
    assert (Hbs1 : Forall inBand bs1).
    { clear -Hbirds. induction Hbirds; constructor; trivial.
      eapply updateBird_inBand; eassumption. }
    destruct Hend as [brains n _ _ Hnew _ | _ _ Hsame _ | k Hbumps _].
    - rewrite Hnew in Hin. clear Halive. revert b Hin. apply Forall_forall.
      apply mapM_Forall. intros i m.
      destruct (createAIBird_newBird Q Math_random brains i m) as (nn & c & ->).
      apply newBird_inBand.
    - rewrite Hsame in Hin. clear Halive. revert b Hin. now apply Forall_forall.
    - rewrite Hbumps in Hin. apply in_map_iff in Hin as (b1 & <- & Hin).
      clear Halive. apply bumps_inBand. revert b1 Hin. now apply Forall_forall. }
  destruct (Hband Halive) as [Hlo Hhi]. repeat split; trivial. lra.
Qed.

(** ** Fitness against distance and score *)

Section Fitness.

Context (R : Type) `{Number R}.
Variable Math_exp : R -> R.
Variable Math_random : nat -> R.

Lemma Forall2_nth_error {A B} (P : A -> B -> Prop) (l : list A) (l' : list B) :
  Forall2 P l l' ->
  forall i a, nth_error l i = Some a -> exists a', nth_error l' i = Some a' /\ P a a'.
Proof.
  induction 1 as [|a0 b0 l l' Hab _ IH]; intros i a Hi.
  - destruct i; discriminate.
  - destruct i as [|i]; simpl in *.
    + injection Hi as <-. eauto.
    + eauto.
Qed.

(** What one pass of the loop body leaves in a bird that was alive. *)
Lemma updateBird_fitness (ai : bool) (t : Pipe R) (ps : list (Pipe R)) (b b' : Bird R) :
  updateBird Math_exp ai t ps b = Val b' ->
  alive b = true ->
  score b' = score b /\
  distance b' = add (distance b) PIPE_SPEED /\
  fitness b' = add (distance b') (mul (score b') (lit 5000)).
Proof.
  unfold updateBird. intros Hrun Halive. rewrite Halive in Hrun. cbn [negb] in Hrun.
  destruct (decide Math_exp ai t b) as [v0|]; [|discriminate].
  cbn [obind] in Hrun. apply Val_inj in Hrun. subst b'. cbn [score distance fitness].
  repeat split.
Qed.

Lemma updateBird_dead (ai : bool) (t : Pipe R) (ps : list (Pipe R)) (b b' : Bird R) :
  updateBird Math_exp ai t ps b = Val b' -> alive b = false -> b' = b.
Proof.
  unfold updateBird. intros Hrun Halive. rewrite Halive in Hrun.
  now apply Val_inj in Hrun.
Qed.

Lemma bumps_frame (k : nat) (b : Bird R) :
  fitness (Nat.iter k (@bumpScore R _) b) = fitness b /\
  distance (Nat.iter k (@bumpScore R _) b) = distance b /\
  alive (Nat.iter k (@bumpScore R _) b) = alive b.
Proof.
  induction k as [|k (Hf & Hd & Ha)]; simpl; [repeat split|].
  unfold bumpScore at 1 3 5.
  destruct (alive (Nat.iter k (@bumpScore R _) b)) eqn:E; cbn [fitness distance alive];
    repeat split; congruence.
Qed.

Lemma bumps_score (k : nat) (b : Bird R) :
  score (Nat.iter k (@bumpScore R _) b) =
  if alive b then Nat.iter k (fun s => add s (lit 1)) (score b) else score b.
Proof.
  induction k as [|k IH]; simpl.
  - now destruct (alive b).
  - unfold bumpScore at 1. destruct (bumps_frame k b) as (_ & _ & Ha). rewrite Ha.
    destruct (alive b); cbn [score]; now rewrite IH.
Qed.

(** A step that is not a rollover: the bird at every position that was alive
    has its fitness computed from the new distance and the score it had when
    the step began. *)
Lemma update_fitness (mode : GameMode) (ap : bool) (g g' : Game R) :
  update Math_exp Math_random mode ap g = Val g' ->
  generation g' = generation g ->
  forall i b, nth_error (birds g) i = Some b -> alive b = true ->
  exists b', nth_error (birds g') i = Some b' /\
             distance b' = add (distance b) PIPE_SPEED /\
             fitness b' = add (distance b') (mul (score b) (lit 5000)).
Proof.
  intros Hrun Hgen i b Hi Halive.
  apply update_cases in Hrun as (bs1 & Hbirds & Hend).
  apply updateBirds_each in Hbirds.
  destruct (Forall2_nth_error _ _ _ Hbirds i b Hi) as (b1 & Hi1 & Hb1).
  destruct (updateBird_fitness _ _ _ _ _ Hb1 Halive) as (Hs & Hd & Hf).
  destruct Hend as [brains n _ _ _ Hnext | _ _ Hsame _ | k Hbumps _].
  - rewrite Hgen in Hnext. exfalso. now apply (n_Sn (generation g)).
  - exists b1. rewrite Hsame. repeat split; trivial. now rewrite Hf, Hs.
  - exists (Nat.iter k (@bumpScore R _) b1). rewrite Hbumps.
    split; [now rewrite nth_error_map, Hi1|].
    destruct (bumps_frame k b1) as (-> & -> & _).
    split; trivial. now rewrite Hf, Hs.
Qed.

End Fitness.

(** C1 (amended).  For every bird that is alive when a step starts, at the
    end of the step (a rollover apart, which replaces the birds) its fitness
    is its distance plus 5000 times the score it had when the step started;
    it is distance plus score times 5000 whenever the step credited no pipe
    to it.  And for fitness values that are up to date in this sense, a bird
    with score 0 never has a higher fitness than a bird with score at least 1
    whose distance is within 5000 of its own. *)
Theorem fitness_starting_score
  (Math_exp : Q -> Q) (Math_random : nat -> Q)
  (mode : GameMode) (isAutopilot : bool) (g g' : Game Q) (i : nat) (b : Bird Q) :
  update Math_exp Math_random mode isAutopilot g = Val g' ->
  generation g' = generation g ->
  nth_error (birds g) i = Some b ->
  alive b = true ->
  (exists b', nth_error (birds g') i = Some b' /\
              fitness b' = add (distance b') (mul (score b) (lit 5000)) /\
              (score b' = score b ->
               fitness b' = add (distance b') (mul (score b') (lit 5000)))) /\
  (forall a c : Bird Q,
      fitness a = add (distance a) (mul (score a) (lit 5000)) ->
      fitness c = add (distance c) (mul (score c) (lit 5000)) ->
      (score a == 0)%Q -> (1 <= score c)%Q ->
      (distance a - distance c <= 5000)%Q ->
      (fitness a <= fitness c)%Q).
Proof.
  intros Hrun Hgen Hi Halive. split.
  - destruct (update_fitness Q Math_exp Math_random mode isAutopilot g g' Hrun Hgen
                             i b Hi Halive) as (b' & Hi' & _ & Hf).
    exists b'. repeat split; trivial. intros ->. exact Hf.
  - intros a c -> -> Ha Hc Hd. exact_arith. rewrite Ha. nra.
Qed.

Lemma fitness_starting_score_witness :
  exists b', nth_error (birds (Runs.scripted 207)) 0 = Some b' /\
             fitness b' = add (distance b') (mul 0%Q (lit 5000)).
Proof.
  destruct (fitness_starting_score Samples.sampleExp Runs.steadyRandom PLAYER false
              (Runs.flap (Runs.scripted 206)) (Runs.scripted 207) 0
              (nth 0 (birds (Runs.flap (Runs.scripted 206)))
                   (newBird Samples.sampleNetwork Yellow)))
    as [(b' & Hb' & Hf & _) _].
  - vm_compute. reflexivity.
  - vm_compute. reflexivity.
  - vm_compute. reflexivity.
  - vm_compute. reflexivity.
  - exists b'. split; [exact Hb'|]. exact Hf.
Defined.

(** C1 as stated fails in the step that credits a pipe: in the scripted game
    the first pipe is passed in step 207; the bird is alive before and after,
    ends the step with score 1 and distance 621, and its fitness is 621, not
    [621 + 1 * 5000].  The same game in binary64 ends the step the same
    way. *)
Lemma fitness_stale_after_passage :
  Runs.playerStep (Runs.scripted 206) = Val (Runs.scripted 207) /\
  map (@alive Q _) (birds (Runs.flap (Runs.scripted 206))) = [true] /\
  standing Q (Runs.scripted 207) = [(true, 1%Q, 621%Q, 621%Q)] /\
  map (fun b => add (distance b) (mul (score b) (lit 5000))) (birds (Runs.scripted 207))
  = [5621%Q] /\
  standing float (Runs.scriptedBinary64 207) = [(true, 1%float, 621%float, 621%float)].
Proof. vm_compute. repeat split. Qed.

(** ** Free fall *)

(** C8 (amended).  A single alive bird starting with velocity 0 at the spawn
    point, with no pipes and no jump input: after 10 steps it is alive, its
    velocity is [GRAVITY] added ten times to 0, and its [y] has increased
    strictly at every step.  In binary64 the ten additions give
    5.999999999999999 (0x1.7ffffffffffffp+2), the double just below
    [10 * GRAVITY = 6]; without rounding they give 6. *)
Theorem free_fall_ten_steps :
  (forall (Math_exp : float -> float) (Math_random : nat -> float)
          (nn : NeuralNetwork float),
      option_map (fun s => (fst (fst s), snd s)) (falling float Math_exp Math_random nn 10)
      = Some (accumulated float 10, true) /\
      increasing float (heights float Math_exp Math_random nn 10) = true) /\
  accumulated float 10 = 0x1.7ffffffffffffp+2%float /\
  mul (lit 10) GRAVITY = 6%float /\
  (forall (Math_exp : Q -> Q) (Math_random : nat -> Q) (nn : NeuralNetwork Q),
      option_map (fun s => (fst (fst s), snd s)) (falling Q Math_exp Math_random nn 10)
      = Some (mul (lit 10) GRAVITY, true) /\
      increasing Q (heights Q Math_exp Math_random nn 10) = true) /\
  mul (lit 10) GRAVITY = 6%Q.
Proof.
  split; [intros; split; vm_compute; reflexivity|].
  split; [vm_compute; reflexivity|].
  split; [vm_compute; reflexivity|].
  split; [intros; split; vm_compute; reflexivity|].
  vm_compute; reflexivity.
Qed.

(** C8 as stated fails in the program's arithmetic: after 10 steps the
    velocity is not [10 * GRAVITY]. *)
Lemma free_fall_velocity_not_six :
  let nn := fst (new_NeuralNetwork (fun _ => 0.5%float) 4 6 1 0) in
  let v10 := option_map (fun s => fst (fst s))
                        (falling float (fun t => t) (fun _ => 0.5%float) nn 10) in
  v10 = Some 0x1.7ffffffffffffp+2%float /\
  mul (lit 10) GRAVITY = 6%float /\
  PrimFloat.eqb 0x1.7ffffffffffffp+2 6 = false.
Proof. vm_compute. repeat split. Qed.

(** ** Loading the stored controller *)

Section Loading.

Context (R : Type) `{Number R}.
Variable Math_random : nat -> R.
Variable JSON_parse : string -> Outcome (any R).

Lemma replicateM_length {A} (m : Rand A) (k n : nat) :
  List.length (fst (replicateM k m n)) = k.
Proof.
  revert n. induction k as [|k IH]; intros n; simpl; [reflexivity|].
  unfold bind, ret. destruct (m n) as [a n1]. specialize (IH n1).
  destruct (replicateM k m n1) as [l n2]. simpl in *. now rewrite IH.
Qed.

Lemma replicateM_rows {A} (m : Rand A) (rows cols n : nat) :
  Forall (fun row => List.length row = cols) (fst (replicateM rows (replicateM cols m) n)).
Proof.
  revert n. induction rows as [|rows IH]; intros n; simpl; [constructor|].
  unfold bind, ret.
  pose proof (replicateM_length m cols n) as Hrow.
  destruct (replicateM cols m n) as [row n1]. specialize (IH n1).
  destruct (replicateM rows (replicateM cols m) n1) as [l n2]. simpl in *.
  constructor; assumption.
Qed.

Lemma new_NeuralNetwork_topology (i h o n : nat) :
  hasTopology R i h o (fst (new_NeuralNetwork Math_random i h o n)).
Proof.
  unfold new_NeuralNetwork, bind, ret, hasTopology.
  pose proof (replicateM_length (replicateM h (randomWeight Math_random)) i n) as H1.
  pose proof (replicateM_rows (randomWeight Math_random) i h n) as H2.
  destruct (replicateM i _ n) as [wih n1].
  pose proof (replicateM_length (replicateM o (randomWeight Math_random)) h n1) as H3.
  pose proof (replicateM_rows (randomWeight Math_random) h o n1) as H4.
  destruct (replicateM h (replicateM o _) n1) as [who n2].
  pose proof (replicateM_length (randomWeight Math_random) h n2) as H5.
  destruct (replicateM h (randomWeight Math_random) n2) as [bh n3].
  pose proof (replicateM_length (randomWeight Math_random) o n3) as H6.
  destruct (replicateM o (randomWeight Math_random) n3) as [bo n4].
  simpl in *. repeat split; assumption.
Qed.

(** [createPlayerBird] always returns a bird; its brain is the object
    [fromJSON] returned when the [try] block produced one, and a fresh
    network of topology 4/6/1 when nothing is stored or the block threw. *)
Lemma createPlayerBird_brain (saved : option string) (n : nat) :
  match loadBrain Math_random JSON_parse saved n with
  | (Some o, _) =>
      brain (fst (createPlayerBird Math_random JSON_parse saved n)) = Deserialized o
  | (None, _) =>
      exists nn, brain (fst (createPlayerBird Math_random JSON_parse saved n)) = Fresh nn /\
                 hasTopology R 4 6 1 nn
  end.
Proof.
  unfold createPlayerBird, bind, ret.
  destruct (loadBrain Math_random JSON_parse saved n) as [[o|] n1].
  - reflexivity.
  - pose proof (new_NeuralNetwork_topology 4 6 1 n1) as Hnew.
    destruct (new_NeuralNetwork Math_random 4 6 1 n1) as [nn n2].
    exists nn. split; [reflexivity|exact Hnew].
Qed.

(** The [try] block produces no brain exactly when nothing usable is stored
    or a call in it throws. *)
Lemma loadBrain_none (saved : option string) (n : nat) :
  fst (loadBrain Math_random JSON_parse saved n) = None <->
  saved = None \/ saved = Some EmptyString \/
  exists text, saved = Some text /\
               (JSON_parse text = Throw \/
                exists data, JSON_parse text = Val data /\
                             fst (fromJSON Math_random data n) = Throw).
Proof.
  unfold loadBrain. destruct saved as [[|c text]|].
  - simpl. split; auto.
  - destruct (JSON_parse (String c text)) as [data|] eqn:Eparse.
    + destruct (fromJSON Math_random data n) as [[o|] n1] eqn:Efrom; simpl.
      * split; [discriminate|].
        intros [|[|(t & [= <-] & [Ht|(d & Hd & Hthrow)])]]; try discriminate.
        -- congruence.
        -- rewrite Eparse in Hd. apply Val_inj in Hd. subst d.
           rewrite Efrom in Hthrow. discriminate.
      * split; [|reflexivity]. intros _. right. right.
        exists (String c text). split; [reflexivity|right].
        exists data. split; [exact Eparse|]. now rewrite Efrom.
    + simpl. split; [|reflexivity]. intros _. right. right.
      exists (String c text). split; [reflexivity|left; exact Eparse].
  - simpl. split; auto.
Qed.

End Loading.

(** C9 at the stored text ["{}"]: the record is malformed (none of the seven
    fields is there, so the object is no network of the declared type), and
    yet [createPlayerBird] gives the bird the deserialized object, all of
    whose fields are [undefined], not a fresh 4/6/1 controller; with nothing
    stored the brain is a fresh one. *)
Theorem createPlayerBird_keeps_malformed :
  let empty := {| o_inputNodes := Undefined; o_hiddenNodes := Undefined;
                  o_outputNodes := Undefined; o_weightsIH := Undefined;
                  o_weightsHO := Undefined; o_biasH := Undefined;
                  o_biasO := Undefined |} in
  brain (fst (createPlayerBird Samples.sampleRandom parseEmptyObject (Some "{}"%string) 0))
  = Deserialized empty /\
  typed empty = None /\
  brain (fst (createPlayerBird Samples.sampleRandom parseEmptyObject None 0))
  = Fresh Samples.sampleNetwork.
Proof. vm_compute. repeat split. Qed.

(** ** Selection and elitism *)

Section Population.

Context (R : Type) `{Number R}.
Variable Math_random : nat -> R.

Lemma mapM_length {A B} (f : A -> Rand B) (l : list A) (n : nat) :
  List.length (fst (mapM f l n)) = List.length l.
Proof.
  revert n. induction l as [|a l IH]; intros n; simpl; [reflexivity|].
  unfold bind, ret. destruct (f a n) as [b m]. specialize (IH m).
  destruct (mapM f l m) as [bs m']. simpl in *. now rewrite IH.
Qed.

Lemma mapM_nth_error {A B} (f : A -> Rand B) (l : list A) (n i : nat) (b : B) :
  nth_error (fst (mapM f l n)) i = Some b ->
  exists a m, nth_error l i = Some a /\ b = fst (f a m).
Proof.
  revert n i. induction l as [|a l IH]; intros n i; simpl.
  - destruct i; discriminate.
  - unfold bind, ret. destruct (f a n) as [b0 m] eqn:Ea. specialize (IH m).
    destruct (mapM f l m) as [bs m']. simpl in *.
    destruct i as [|i]; simpl.
    + intros [= <-]. exists a, n. split; [reflexivity|now rewrite Ea].
    + apply IH.
Qed.

Lemma map_rows_same (m : list (list R)) :
  map (fun row => map (fun v : R => v) row) m = m.
Proof.
  induction m as [|row m IH]; simpl; [reflexivity|].
  now rewrite map_id, IH.
Qed.

Lemma copy_same (nn : NeuralNetwork R) (n : nat) : fst (copy Math_random nn n) = nn.
Proof.
  unfold copy, bind, ret.
  pose proof (new_NeuralNetwork_topology R Math_random
                (inputNodes nn) (hiddenNodes nn) (outputNodes nn) n) as (Hi & Hh & Ho & _).
  destruct (new_NeuralNetwork _ _ _ _ _) as [fresh m]. simpl in *.
  rewrite Hi, Hh, Ho, !map_rows_same, !map_id. now destruct nn.
Qed.

Lemma createAIBird_champion (first : NeuralNetwork R) (rest : list (NeuralNetwork R))
      (m : nat) :
  fst (createAIBird Math_random (first :: rest) 0 m) = newBird first Red.
Proof.
  unfold createAIBird, bind, ret, random.
  rewrite Nat.Div0.mod_0_l. cbn [nth].
  pose proof (copy_same first (S m)) as Hcopy.
  destruct (copy Math_random first (S m)) as [b m']. simpl in *. now subst b.
Qed.

Lemma createAIBird_child (first : NeuralNetwork R) (rest : list (NeuralNetwork R))
      (i m : nat) :
  0 < i ->
  exists n n' hue,
    fst (createAIBird Math_random (first :: rest) i m) =
    newBird (fst (mutate Math_random AI_MUTATION_RATE
                    (fst (copy Math_random
                            (nth (i mod List.length (first :: rest)) (first :: rest) first) n))
                    n'))
            (Hsla hue).
Proof.
  intros Hi. unfold createAIBird, bind, ret, random.
  set (parent := nth _ _ _).
  destruct (copy Math_random parent (S m)) as [b m1] eqn:Ecopy.
  apply Nat.ltb_lt in Hi. rewrite Hi.
  destruct (mutate Math_random AI_MUTATION_RATE b m1) as [b' m2] eqn:Emut.
  exists (S m), m1, (mul (Math_random m) (lit 360)).
  rewrite Ecopy. simpl. now rewrite Emut.
Qed.

Lemma insert_In (a b : Bird R) (l : list (Bird R)) :
  In b (insert a l) <-> b = a \/ In b l.
Proof.
  induction l as [|c l IH]; simpl.
  - intuition.
  - destruct (before c a); simpl; rewrite ?IH; intuition.
Qed.

Lemma sort_In (b : Bird R) (l : list (Bird R)) : In b (sort l) <-> In b l.
Proof.
  induction l as [|a l IH]; simpl; [reflexivity|].
  rewrite insert_In, IH. intuition.
Qed.

Lemma insert_length (a : Bird R) (l : list (Bird R)) :
  List.length (insert a l) = S (List.length l).
Proof.
  induction l as [|c l IH]; simpl; [reflexivity|].
  destruct (before c a); simpl; now rewrite ?IH.
Qed.

Lemma sort_length (l : list (Bird R)) : List.length (sort l) = List.length l.
Proof.
  induction l as [|a l IH]; simpl; [reflexivity|].
  now rewrite insert_length, IH.
Qed.

End Population.

Lemma seq_nth_error (start len i a : nat) :
  nth_error (seq start len) i = Some a -> a = start + i.
Proof.
  revert start i. induction len as [|len IH]; intros start i; simpl.
  - destruct i; discriminate.
  - destruct i as [|i]; simpl.
    + intros [= <-]. lia.
    + intros Hi. apply IH in Hi. lia.
Qed.

Lemma before_exact (a b : Bird Q) :
  (before a b = true <-> (fitness b < fitness a)%Q) /\
  (before a b = false <-> (fitness a <= fitness b)%Q).
Proof.
  unfold before. rewrite ExactFacts.ltb_lt, ExactFacts.ltb_ge.
  rewrite ExactFacts.sub_eq, ExactFacts.lit_eq. split; split; intros; lra.
Qed.

Lemma insert_headMax (a : Bird Q) (l : list (Bird Q)) :
  headMax l -> headMax (insert a l).
Proof.
  destruct l as [|c l]; cbn [insert headMax].
  - intros _ b [<-|[]]. apply Qle_refl.
  - intros Hmax. destruct (before c a) eqn:E; cbn [headMax].
    + apply before_exact in E. intros b [<-|Hb].
      * apply Qle_refl.
      * apply insert_In in Hb as [->|Hb]; [now apply Qlt_le_weak|].
        apply Hmax. now right.
    + apply before_exact in E. intros b [<-|Hb].
      * apply Qle_refl.
      * apply Qle_trans with (fitness c); [now apply Hmax|exact E].
Qed.

Lemma sort_headMax (l : list (Bird Q)) : headMax (sort l).
Proof.
  induction l as [|a l IH]; simpl; [exact I|]. now apply insert_headMax.
Qed.

(** C3.  At a rollover of a population of at least 5 birds the new
    population has [AI_POPULATION] birds.  The bird at position 0 is the one
    tagged as champion, and its controller is, entry for entry, the
    controller of a bird of the highest fitness of the exhausted population
    (the first of the population sorted by fitness, descending; the first 5
    are the parents): no mutation is applied to it.  Every other new bird is
    not tagged, and its controller is a mutated copy of parent [i mod 5]. *)
Theorem nextGeneration_elitism (Math_random : nat -> Q) (g : Game Q) :
  5 <= List.length (birds g) ->
  exists g' best others,
    nextGeneration Math_random g = Val g' /\
    firstn 5 (sort (birds g)) = best :: others /\ List.length others = 4 /\
    In best (birds g) /\
    (forall b, In b (birds g) -> (fitness b <= fitness best)%Q) /\
    List.length (birds g') = AI_POPULATION /\
    (exists champion, nth_error (birds g') 0 = Some champion /\
                      color champion = Red /\ brain champion = brain best) /\
    (forall i b, 0 < i -> nth_error (birds g') i = Some b ->
                 color b <> Red /\
                 exists n n',
                   brain b =
                   fst (mutate Math_random AI_MUTATION_RATE
                          (fst (copy Math_random
                                  (brain (nth (i mod 5) (best :: others) best)) n)) n')).
Proof.
  intros Hlen.
  pose proof (sort_length Q (birds g)) as Hsorted.
  pose proof (sort_headMax (birds g)) as Hmax.
  pose proof (fun b => sort_In Q b (birds g)) as Hin.
  unfold nextGeneration.
  destruct (sort (birds g)) as [|p0 [|p1 [|p2 [|p3 [|p4 rest]]]]];
    simpl in Hsorted; try lia.
  cbn [firstn map].
  set (brains := [brain p0; brain p1; brain p2; brain p3; brain p4]).
  pose proof (mapM_length (createAIBird Math_random brains) (seq 0 AI_POPULATION)
                          (draws g)) as Hnewlen.
  pose proof (fun i b => mapM_nth_error (createAIBird Math_random brains)
                           (seq 0 AI_POPULATION) (draws g) i b) as Hnth.
  fold (createAIBirds Math_random AI_POPULATION brains) in Hnewlen, Hnth.
  destruct (createAIBirds Math_random AI_POPULATION brains (draws g)) as [newBirds n'].
  cbn [fst] in Hnewlen, Hnth. rewrite length_seq in Hnewlen.
  eexists. exists p0, [p1; p2; p3; p4].
  split; [reflexivity|]. split; [reflexivity|]. split; [reflexivity|].
  split; [apply Hin; now left|].
  split; [intros b Hb; apply Hmax; now apply Hin|].
  cbn [birds]. split; [exact Hnewlen|]. split.
  - destruct newBirds as [|champion others]; [discriminate Hnewlen|].
    exists champion. split; [reflexivity|].
    destruct (Hnth 0 champion eq_refl) as (a & m & Ha & ->).
    injection Ha as <-. unfold brains. rewrite createAIBird_champion.
    split; reflexivity.
  - intros i b Hi Hb.
    destruct (Hnth i b Hb) as (a & m & Ha & ->).
    apply seq_nth_error in Ha. cbn [Nat.add] in Ha. subst a.
    unfold brains.
    destruct (createAIBird_child Q Math_random (brain p0)
                [brain p1; brain p2; brain p3; brain p4] i m Hi) as (n & n0 & hue & ->).
    split; [discriminate|]. exists n, n0. cbn [brain newBird List.length].
    change [brain p0; brain p1; brain p2; brain p3; brain p4]
      with (map (@brain Q _) [p0; p1; p2; p3; p4]).
    now rewrite map_nth.
Qed.

(** ** Ranking within a generation *)

Lemma formula_exact (d s : Q) : (add d (mul s (lit 5000)) == d + s * 5000)%Q.
Proof. now rewrite ExactFacts.add_eq, ExactFacts.mul_eq, ExactFacts.lit_eq. Qed.

Lemma credits_ge (k : nat) (s : Q) : (s <= Nat.iter k (fun v => add v (lit 1)) s)%Q.
Proof.
  induction k as [|k IH]; simpl; [apply Qle_refl|].
  rewrite ExactFacts.add_eq, ExactFacts.lit_eq. lra.
Qed.

Lemma bumps_dead (k : nat) (b : Bird Q) :
  alive b = false -> Nat.iter k (@bumpScore Q _) b = b.
Proof.
  intros Hdead. induction k as [|k IH]; simpl; [reflexivity|].
  rewrite IH. unfold bumpScore. now rewrite Hdead.
Qed.

Lemma Forall2_In_r {A B} (P : A -> B -> Prop) (l : list A) (l' : list B) (b : B) :
  Forall2 P l l' -> In b l' -> exists a, In a l /\ P a b.
Proof.
  induction 1 as [|a0 b0 l l' Hab _ IH]; intros Hb; [destruct Hb|].
  destruct Hb as [<-|Hb].
  - exists a0. split; [now left|exact Hab].
  - destruct (IH Hb) as (a & Ha & HP). exists a. split; [now right|exact HP].
Qed.

Lemma newBirds_generationInv (g : Game Q) :
  Forall (fun b => exists nn c, b = newBird nn c) (birds g) -> generationInv g.
Proof.
  intros Hnew. rewrite Forall_forall in Hnew.
  exists (lit 0), (lit 0), (lit 0). split; [apply Qle_refl|]. split.
  - intros b Hb. destruct (Hnew b Hb) as (nn & c & ->).
    cbn [alive newBird distance score fitness]. repeat split.
  - intros b c Hb _ Hdead. destruct (Hnew b Hb) as (nn & col & ->). discriminate Hdead.
Qed.

Section Generation.

Variable Math_exp : Q -> Q.
Variable Math_random : nat -> Q.

Lemma createAIBirds_new (best : list (NeuralNetwork Q)) (pop n : nat) :
  Forall (fun b => exists nn c, b = newBird nn c)
         (fst (createAIBirds Math_random pop best n)).
Proof.
  apply mapM_Forall. intros i m. apply createAIBird_newBird.
Qed.

Lemma startTraining_generationInv (g0 : Game Q) :
  generationInv (startTraining Math_random g0).
Proof.
  apply newBirds_generationInv. unfold startTraining.
  pose proof (createAIBirds_new [] AI_POPULATION (draws g0)) as Hnew.
  destruct (createAIBirds Math_random AI_POPULATION [] (draws g0)) as [bs n'].
  exact Hnew.
Qed.

(** Where a bird of the state after the pipe phase comes from. *)
Lemma step_bird (ai : bool) (t : Pipe Q) (ps : list (Pipe Q))
      (bs bs1 : list (Bird Q)) (k : nat) (D P0 P : Q) (b' : Bird Q) :
  (forall b, In b bs ->
     if alive b
     then distance b = D /\ score b = P /\ fitness b = add D (mul P0 (lit 5000))
     else (distance b <= D)%Q /\ (score b <= P0)%Q /\ upToDate b) ->
  Forall2 (fun b b1 => updateBird Math_exp ai t ps b = Val b1) bs bs1 ->
  In b' (map (Nat.iter k (@bumpScore Q _)) bs1) ->
  (alive b' = false /\ In b' bs) \/
  (alive b' = false /\ distance b' = add D PIPE_SPEED /\ score b' = P /\ upToDate b') \/
  (alive b' = true /\ distance b' = add D PIPE_SPEED /\
   score b' = Nat.iter k (fun v => add v (lit 1)) P /\
   fitness b' = add (add D PIPE_SPEED) (mul P (lit 5000))).
Proof.
  intros Hinv Hstep Hb'.
  apply in_map_iff in Hb' as (b1 & <- & Hb1).
  destruct (Forall2_In_r _ _ _ _ Hstep Hb1) as (b & Hb & Hrun).
  specialize (Hinv b Hb).
  destruct (alive b) eqn:Ealive.
  - destruct Hinv as (Hd & Hs & _).
    destruct (updateBird_fitness Q Math_exp ai t ps b b1 Hrun Ealive) as (Hs1 & Hd1 & Hf1).
    rewrite Hd in Hd1. rewrite Hs in Hs1.
    destruct (alive b1) eqn:Ealive1.
    + right. right.
      destruct (bumps_frame Q k b1) as (-> & -> & ->).
      rewrite bumps_score, Ealive1, Hs1, Hf1, Hd1, Hs1. repeat split; trivial.
    + right. left. rewrite (bumps_dead k b1 Ealive1).
      repeat split; trivial.
  - left. rewrite (updateBird_dead Q Math_exp ai t ps b b1 Hrun Ealive).
    rewrite (bumps_dead k b Ealive). split; trivial.
Qed.

Lemma update_generationInv (isAutopilot : bool) (g g' : Game Q) :
  generationInv g ->
  update Math_exp Math_random AI isAutopilot g = Val g' ->
  generationInv g'.
Proof.
  intros (D & P0 & P & HP & Hbirds & Hpairs) Hrun.
  apply update_cases in Hrun as (bs1 & Hstep & Hend).
  apply updateBirds_each in Hstep.
  destruct Hend as [brains n _ _ Hnew _ | Hmode _ _ _ | k Hbumps _].
  - apply newBirds_generationInv. rewrite Hnew. apply createAIBirds_new.
  - discriminate Hmode.
  - pose proof (fun b' => step_bird _ _ _ _ _ k D P0 P b' Hbirds Hstep) as Hclass.
    rewrite <- Hbumps in Hclass.
    exists (add D PIPE_SPEED), P, (Nat.iter k (fun v => add v (lit 1)) P).
    split; [apply credits_ge|].
    assert (HD : (D <= add D PIPE_SPEED)%Q).
    { unfold_config. rewrite ExactFacts.add_eq, ExactFacts.lit_eq. lra. }
    split.
    + intros b' Hb'.
      destruct (Hclass b' Hb') as [(Hdead & Hold)|[(Hdead & Hd & Hs & Hup)|(Hlive & Hd & Hs & Hf)]].
      * rewrite Hdead. specialize (Hbirds b' Hold). rewrite Hdead in Hbirds.
        destruct Hbirds as (Hd & Hs & Hup). repeat split; trivial; lra.
      * rewrite Hdead, Hd, Hs. repeat split; trivial; apply Qle_refl.
      * rewrite Hlive. repeat split; trivial.
    + intros b c Hb Hc Hbdead Hcdead Hlt.
      destruct (Hclass b Hb) as [(_ & Hbold)|[(_ & Hbd & Hbs & _)|(Hlive & _)]];
        [| |congruence];
        (destruct (Hclass c Hc) as [(_ & Hcold)|[(_ & Hcd & Hcs & _)|(Hlive & _)]];
         [| |congruence]).
      * now apply Hpairs.
      * specialize (Hbirds b Hbold). rewrite Hbdead in Hbirds.
        destruct Hbirds as (Hd & _). rewrite Hcd. lra.
      * specialize (Hbirds c Hcold). rewrite Hcdead in Hbirds.
        destruct Hbirds as (_ & Hs & _). rewrite Hbs in Hlt. lra.
      * rewrite Hbs, Hcs in Hlt. lra.
Qed.

Lemma reachable_generationInv (g : Game Q) :
  reachable Math_exp Math_random g -> generationInv g.
Proof.
  induction 1 as [g0|g g' ap _ IH _ Hrun].
  - apply startTraining_generationInv.
  - exact (update_generationInv ap g g' IH Hrun).
Qed.

Lemma reachable_playing (g : Game Q) :
  reachable Math_exp Math_random g -> gameState g = PLAYING.
Proof.
  induction 1 as [g0|g g' ap _ IH _ Hrun].
  - unfold startTraining. now destruct (createAIBirds _ _ _ _).
  - exact (update_playing Q Math_exp Math_random ap g g' IH Hrun).
Qed.

End Generation.

Lemma formula_of (f d s : Q) :
  f = add d (mul s (lit 5000)) -> (f == d + s * 5000)%Q.
Proof. intros ->. apply formula_exact. Qed.

(** C2 (amended).  For any two birds of the population in any state reached
    by a training session: if their scores are equal, the one with strictly
    greater distance has strictly greater fitness; if their scores differ,
    the one with the higher score has a fitness at least as high, and
    strictly higher whenever the higher scorer is dead or its fitness is up
    to date. *)
Theorem fitness_ranking
  (Math_exp : Q -> Q) (Math_random : nat -> Q) (g : Game Q) (a c : Bird Q) :
  reachable Math_exp Math_random g ->
  In a (birds g) -> In c (birds g) ->
  ((score a == score c)%Q -> (distance c < distance a)%Q -> (fitness c < fitness a)%Q) /\
  ((score c < score a)%Q ->
   (fitness c <= fitness a)%Q /\
   (alive a = false -> (fitness c < fitness a)%Q) /\
   (upToDate a -> (fitness c < fitness a)%Q)).
Proof.
  intros Hreach Ha Hc.
  destruct (reachable_generationInv _ _ _ Hreach) as (D & P0 & P & HP & Hbirds & Hpairs).
  pose proof (Hbirds a Ha) as Hia. pose proof (Hbirds c Hc) as Hic.
  specialize (Hpairs c a Hc Ha).
  unfold upToDate in *.
  destruct (alive a) eqn:Ea, (alive c) eqn:Ec.
  - destruct Hia as (Hda & Hsa & _), Hic as (Hdc & Hsc & _).
    rewrite Hda, Hdc, Hsa, Hsc. split; intros; lra.
  - destruct Hia as (Hda & Hsa & Hfa), Hic as (Hdc & Hsc & Hfc).
    apply formula_of in Hfa, Hfc. rewrite Hda, Hsa. split.
    + intros Heq Hlt. lra.
    + intros Hlt. split; [lra|]. split; [discriminate|].
      intros Hup. apply formula_of in Hup. lra.
  - destruct Hia as (Hda & Hsa & _), Hic as (Hdc & Hsc & _).
    rewrite Hdc, Hsc. split; intros; lra.
  - destruct Hia as (Hda & Hsa & Hfa), Hic as (Hdc & Hsc & Hfc).
    apply formula_of in Hfa, Hfc. split.
    + intros Heq Hlt. lra.
    + intros Hlt. specialize (Hpairs eq_refl eq_refl Hlt).
      split; [lra|]. split; intros; lra.
Qed.




(** The draws of the training session are in [0, 1), as [Math.random]'s. *)
Lemma trainingRandom_range (n : nat) :
  (0 <= Training.trainingRandom n)%Q /\ (Training.trainingRandom n < 1)%Q.
Proof.
  unfold Training.trainingRandom.
  destruct (Nat.ltb n 1900); [|split; lra].
  generalize (n mod 38)%nat as m. intros m.
  destruct (Nat.eqb (n / 38) 1);
    do 33 (destruct m as [|m]; [cbv iota beta; split; lra|]);
    cbv iota beta; split; lra.
Qed.

Lemma trained_reachable (n : nat) :
  reachable Samples.sampleExp Training.trainingRandom (Training.trained n).
Proof.
  induction n as [|n IH]; [apply reachable_start|].
  cbn [Training.trained]. cbv zeta.
  destruct (gameState (Training.trained n)) eqn:Estate; try exact IH.
  destruct (update _ _ _ _ (Training.trained n)) as [g|] eqn:Estep; [|exact IH].
  exact (reachable_step _ _ _ _ false IH Estate Estep).
Qed.

Lemma fitness_ranking_witness :
  let g := Training.start in
  let d := newBird Samples.sampleNetwork Yellow in
  let a := nth 0 (birds g) d in
  let c := nth 1 (birds g) d in
  ((score a == score c)%Q -> (distance c < distance a)%Q -> (fitness c < fitness a)%Q) /\
  ((score c < score a)%Q ->
   (fitness c <= fitness a)%Q /\
   (alive a = false -> (fitness c < fitness a)%Q) /\
   (upToDate a -> (fitness c < fitness a)%Q)).
Proof.
  intros g d a c.
  apply (fitness_ranking Samples.sampleExp Training.trainingRandom g a c).
  - apply reachable_start.
  - apply nth_In. vm_compute. lia.
  - apply nth_In. vm_compute. lia.
Defined.

(** C2 as stated fails in the step that credits a pipe while a bird dies:
    after step 207 of the training session bird 0 is alive with score 1,
    bird 1 died in this step with score 0, both have distance 621, and both
    have fitness 621: the higher score does not give a strictly higher
    fitness. *)
Lemma fitness_tie_across_scores :
  reachable Samples.sampleExp Training.trainingRandom (Training.trained 207) /\
  Training.report (Training.trained 207)
  = (1, [(true, 1%Q, 621%Q, 621%Q); (false, 0%Q, 621%Q, 621%Q)]).
Proof.
  split; [apply trained_reachable|].
  vm_compute. reflexivity.
Qed.

Lemma alive_inside_band_witness :
  let b := nth 0 (birds (Runs.scripted 207)) (newBird Samples.sampleNetwork Yellow) in
  (16 <= y b)%Q /\ (y b + 16 < 600 - 100)%Q /\ (y b < 484)%Q.
Proof.
  intros b.
  apply (alive_inside_band Samples.sampleExp Runs.steadyRandom PLAYER false
           (Runs.flap (Runs.scripted 206)) (Runs.scripted 207)).
  - vm_compute. reflexivity.
  - apply nth_In. vm_compute. lia.
  - vm_compute. reflexivity.
Defined.

Lemma nextGeneration_elitism_witness :
  exists g', nextGeneration Training.trainingRandom Training.start = Val g' /\
             List.length (birds g') = AI_POPULATION.
Proof.
  destruct (nextGeneration_elitism Training.trainingRandom Training.start)
    as (g' & best & others & Hrun & _ & _ & _ & _ & Hlen & _).
  - vm_compute. lia.
  - exists g'. split; assumption.
Defined.

(** * Further properties *)

(** ** The random source *)

Section Draws.

Context {A B : Type}.

Lemma replicateM_Forall (P : A -> Prop) (m : Rand A) (k n : nat) :
  (forall j, P (fst (m j))) -> Forall P (fst (replicateM k m n)).
Proof.
  intros Hm. revert n. induction k as [|k IH]; intros n; simpl.
  - constructor.
  - unfold bind, ret. specialize (Hm n). destruct (m n) as [a n1].
    specialize (IH n1). destruct (replicateM k m n1) as [l n2].
    constructor; assumption.
Qed.

Lemma replicateM_draws (m : Rand A) (c k n : nat) :
  (forall j, snd (m j) = j + c) -> snd (replicateM k m n) = n + k * c.
Proof.
  intros Hm. revert n. induction k as [|k IH]; intros n; simpl.
  - lia.
  - unfold bind, ret. specialize (Hm n). destruct (m n) as [a n1].
    specialize (IH n1). destruct (replicateM k m n1) as [l n2].
    simpl in *. lia.
Qed.

Lemma mapM_Forall2 (P : A -> B -> Prop) (f : A -> Rand B) (l : list A) (n : nat) :
  (forall a j, P a (fst (f a j))) -> Forall2 P l (fst (mapM f l n)).
Proof.
  intros Hf. revert n. induction l as [|a l IH]; intros n; simpl.
  - constructor.
  - unfold bind, ret. specialize (Hf a n). destruct (f a n) as [b n1].
    specialize (IH n1). destruct (mapM f l n1) as [bs n2].
    constructor; assumption.
Qed.

End Draws.

Lemma mapM_same {A} (f : A -> Rand A) (l : list A) (n : nat) :
  (forall a j, fst (f a j) = a) -> fst (mapM f l n) = l.
Proof.
  intros Hf. revert n. induction l as [|a l IH]; intros n; simpl.
  - reflexivity.
  - unfold bind, ret. specialize (Hf a n). destruct (f a n) as [b n1].
    specialize (IH n1). destruct (mapM f l n1) as [bs n2].
    simpl in *. now subst.
Qed.

(** ** The constructor *)

Section Constructor.

Context (R : Type) `{Number R}.
Variable Math_random : nat -> R.

Lemma randomWeight_draws (j : nat) : snd (randomWeight Math_random j) = j + 1.
Proof. unfold randomWeight, bind, ret, random. simpl. lia. Qed.

Lemma new_NeuralNetwork_parts (P : R -> Prop) (i h o n : nat) :
  (forall j, P (fst (randomWeight Math_random j))) ->
  Forall P (parameters R (fst (new_NeuralNetwork Math_random i h o n))) /\
  snd (new_NeuralNetwork Math_random i h o n) = n + parameterCount i h o.
Proof.
  intros HP. unfold new_NeuralNetwork, bind, ret, parameters, parameterCount.
  pose proof (replicateM_Forall (Forall P) (replicateM h (randomWeight Math_random)) i n
                (fun j => replicateM_Forall P _ h j HP)) as H1.
  pose proof (replicateM_draws (replicateM h (randomWeight Math_random)) (h * 1) i n
                (fun j => replicateM_draws _ 1 h j randomWeight_draws)) as D1.
  destruct (replicateM i _ n) as [wih n1].
  pose proof (replicateM_Forall (Forall P) (replicateM o (randomWeight Math_random)) h n1
                (fun j => replicateM_Forall P _ o j HP)) as H2.
  pose proof (replicateM_draws (replicateM o (randomWeight Math_random)) (o * 1) h n1
                (fun j => replicateM_draws _ 1 o j randomWeight_draws)) as D2.
  destruct (replicateM h (replicateM o _) n1) as [who n2].
  pose proof (replicateM_Forall P (randomWeight Math_random) h n2 HP) as H3.
  pose proof (replicateM_draws (randomWeight Math_random) 1 h n2 randomWeight_draws) as D3.
  destruct (replicateM h (randomWeight Math_random) n2) as [bh n3].
  pose proof (replicateM_Forall P (randomWeight Math_random) o n3 HP) as H4.
  pose proof (replicateM_draws (randomWeight Math_random) 1 o n3 randomWeight_draws) as D4.
  destruct (replicateM o (randomWeight Math_random) n3) as [bo n4].
  simpl in *. split; [|lia].
  rewrite !Forall_app, !Forall_concat. auto.
Qed.

End Constructor.

Lemma randomWeight_range (rnd : nat -> Q) (j : nat) :
  unitDraws rnd ->
  (-1 <= fst (randomWeight rnd j))%Q /\ (fst (randomWeight rnd j) < 1)%Q.
Proof.
  intros Hrnd. destruct (Hrnd j) as [Hlo Hhi].
  unfold randomWeight, bind, ret, random. cbn [fst].
  rewrite ExactFacts.sub_eq, ExactFacts.mul_eq, !ExactFacts.lit_eq. split; lra.
Qed.

(** X1.  [new NeuralNetwork(i, h, o)], with draws in [0, 1): the network has
    the dimensions asked for, [i] rows of [h] and [h] rows of [o] weights,
    [h] and [o] biases; every parameter is in [-1, 1); and the constructor
    makes one draw for each parameter. *)
Theorem new_NeuralNetwork_weights (rnd : nat -> Q) (i h o n : nat) :
  unitDraws rnd ->
  hasTopology Q i h o (fst (new_NeuralNetwork rnd i h o n)) /\
  Forall (fun w => (-1 <= w)%Q /\ (w < 1)%Q)
         (parameters Q (fst (new_NeuralNetwork rnd i h o n))) /\
  snd (new_NeuralNetwork rnd i h o n) = n + parameterCount i h o.
Proof.
  intros Hrnd. split; [apply new_NeuralNetwork_topology|].
  apply new_NeuralNetwork_parts. intros j. now apply randomWeight_range.
Qed.

Lemma steadyRandom_unit : unitDraws Runs.steadyRandom.
Proof. intros k. unfold Runs.steadyRandom. split; lra. Qed.

Lemma new_NeuralNetwork_weights_witness :
  hasTopology Q 4 6 1 (fst (new_NeuralNetwork Runs.steadyRandom 4 6 1 0)) /\
  Forall (fun w => (-1 <= w)%Q /\ (w < 1)%Q)
         (parameters Q (fst (new_NeuralNetwork Runs.steadyRandom 4 6 1 0))) /\
  snd (new_NeuralNetwork Runs.steadyRandom 4 6 1 0) = 0 + parameterCount 4 6 1.
Proof.
  apply (new_NeuralNetwork_weights Runs.steadyRandom 4 6 1 0).
  intros k. unfold Runs.steadyRandom. split; lra.
Defined.

(** ** Mutation *)

Section Mutation.

Context (R : Type) `{Number R}.
Variable Math_random : nat -> R.

Lemma mapM_draws {A B} (f : A -> Rand B) (c : A -> nat) (l : list A) (n : nat) :
  (forall a j, snd (f a j) = j + c a) ->
  snd (mapM f l n) = n + list_sum (map c l).
Proof.
  intros Hf. revert n. induction l as [|a l IH]; intros n; simpl.
  - lia.
  - unfold bind, ret. specialize (Hf a n). destruct (f a n) as [b n1].
    specialize (IH n1). destruct (mapM f l n1) as [bs n2].
    simpl in *. lia.
Qed.

Lemma list_sum_ones {A} (l : list A) : list_sum (map (fun _ => 1) l) = List.length l.
Proof. induction l as [|a l IH]; simpl; [reflexivity|now rewrite IH]. Qed.

Lemma list_sum_lengths {A} (rows : list (list A)) :
  list_sum (map (@List.length A) rows) = List.length (List.concat rows).
Proof.
  induction rows as [|row rows IH]; simpl; [reflexivity|].
  now rewrite length_app, IH.
Qed.

(** A mutation relates the parameters entry by entry whenever the mutation
    of one value does. *)
Lemma mutate_entrywise (P : R -> R -> Prop) (rate : R) (nn : NeuralNetwork R) (n : nat) :
  (forall v j, P v (fst (mutateValue Math_random rate v j))) ->
  entrywise R P nn (fst (mutate Math_random rate nn n)).
Proof.
  intros HP. unfold mutate, bind, ret, entrywise.
  pose proof (mapM_Forall2 (Forall2 P) (mapM (mutateValue Math_random rate)) (weightsIH nn) n
                (fun row j => mapM_Forall2 P _ row j HP)) as H1.
  destruct (mapM (mapM _) (weightsIH nn) n) as [wih n1].
  pose proof (mapM_Forall2 (Forall2 P) (mapM (mutateValue Math_random rate)) (weightsHO nn) n1
                (fun row j => mapM_Forall2 P _ row j HP)) as H2.
  destruct (mapM (mapM _) (weightsHO nn) n1) as [who n2].
  pose proof (mapM_Forall2 P (mutateValue Math_random rate) (biasH nn) n2 HP) as H3.
  destruct (mapM _ (biasH nn) n2) as [bh n3].
  pose proof (mapM_Forall2 P (mutateValue Math_random rate) (biasO nn) n3 HP) as H4.
  destruct (mapM _ (biasO nn) n3) as [bo n4].
  simpl. repeat split; assumption.
Qed.

Lemma Forall2_length_eq {A B} (P : A -> B -> Prop) (l : list A) (l' : list B) :
  Forall2 P l l' -> List.length l' = List.length l.
Proof. induction 1; simpl; congruence. Qed.

Lemma Forall2_rows {A B} (P : A -> B -> Prop) (k : nat)
      (rows : list (list A)) (rows' : list (list B)) :
  Forall2 (Forall2 P) rows rows' ->
  Forall (fun row => List.length row = k) rows ->
  Forall (fun row => List.length row = k) rows'.
Proof.
  induction 1 as [|row row' rows rows' Hrow _ IH]; intros Hk; constructor.
  - inversion Hk; subst. now rewrite (Forall2_length_eq _ _ _ Hrow).
  - inversion Hk; subst. auto.
Qed.

Lemma entrywise_topology (P : R -> R -> Prop) (i h o : nat) (nn nn' : NeuralNetwork R) :
  entrywise R P nn nn' -> hasTopology R i h o nn -> hasTopology R i h o nn'.
Proof.
  intros (Hi & Hh & Ho & H1 & H2 & H3 & H4) (Ti & Th & To & L1 & R1 & L2 & R2 & L3 & L4).
  unfold hasTopology.
  rewrite Hi, Hh, Ho, (Forall2_length_eq _ _ _ H1), (Forall2_length_eq _ _ _ H2),
    (Forall2_length_eq _ _ _ H3), (Forall2_length_eq _ _ _ H4).
  repeat split; trivial.
  - exact (Forall2_rows _ _ _ _ H1 R1).
  - exact (Forall2_rows _ _ _ _ H2 R2).
Qed.

Lemma mutate_topology (rate : R) (i h o n : nat) (nn : NeuralNetwork R) :
  hasTopology R i h o nn -> hasTopology R i h o (fst (mutate Math_random rate nn n)).
Proof.
  apply (entrywise_topology (fun _ _ => True)).
  apply mutate_entrywise. trivial.
Qed.

End Mutation.

Lemma mutateValue_near (rnd : nat -> Q) (rate v : Q) (j : nat) :
  unitDraws rnd -> nearby v (fst (mutateValue rnd rate v j)).
Proof.
  intros Hrnd. unfold mutateValue, bind, ret, random, nearby.
  destruct (Hrnd (S (S j))) as [Hlo Hhi].
  destruct (ltb (rnd j) rate); [|cbn [fst]; now left].
  destruct (ltb (rnd (S j)) (lit 0.05)); cbn [fst]; right; eexists;
    (split; [reflexivity|]);
    rewrite ExactFacts.sub_eq, ExactFacts.mul_eq, !ExactFacts.lit_eq; split; lra.
Qed.

(** X2.  [mutate(rate)], with draws in [0, 1), never resizes the network,
    and every weight and bias is either left as it is or has one offset [d]
    with [-0.5 <= d < 0.5] added to it, whatever the rate.  (The bound is on
    the offset; the sum is the program's, and in binary64 its rounding can
    bring the new value to [v + 0.5] itself, see
    [mutateValue_binary64_edge].) *)
Theorem mutate_bounded (rnd : nat -> Q) (rate : Q) (nn : NeuralNetwork Q) (n : nat) :
  unitDraws rnd ->
  entrywise Q nearby nn (fst (mutate rnd rate nn n)).
Proof.
  intros Hrnd. apply mutate_entrywise. intros v j. now apply mutateValue_near.
Qed.

Lemma mutate_bounded_witness :
  entrywise Q nearby Samples.sampleNetwork
            (fst (mutate Runs.steadyRandom AI_MUTATION_RATE Samples.sampleNetwork 0)).
Proof.
  apply (mutate_bounded Runs.steadyRandom AI_MUTATION_RATE Samples.sampleNetwork 0).
  intros k. unfold Runs.steadyRandom. split; lra.
Defined.

(** The edge in binary64: with the largest offset, [0.5 - 2^-53], the sum
    [1 + d] rounds to 1.5. *)
Lemma mutateValue_binary64_edge :
  let d := sub (mul (Rounding.edgeDraws 2) (lit 1.0)) (lit 0.5) in
  fst (mutateValue Rounding.edgeDraws AI_MUTATION_RATE 1%float 0) = add 1%float d /\
  d = 0x1.ffffffffffffep-2%float /\
  leb (lit (-0.5)) d = true /\ ltb d (lit 0.5) = true /\
  add 1%float d = 0x1.8p+0%float.
Proof. vm_compute. repeat split. Qed.

Lemma mutateValue_rate0 (rnd : nat -> Q) (rate v : Q) (j : nat) :
  (rate <= 0)%Q -> (0 <= rnd j)%Q ->
  mutateValue rnd rate v j = (v, S j).
Proof.
  intros Hrate Hrnd. unfold mutateValue, bind, ret, random.
  destruct (ltb (rnd j) rate) eqn:E; [|reflexivity].
  apply ExactFacts.ltb_lt in E. lra.
Qed.

(** X3.  [mutate(rate)] with a rate of 0 (or less) is a no-op on the
    parameters when the draws are not negative: the network is unchanged,
    and exactly one draw is made for each parameter. *)
Theorem mutate_rate_zero (rnd : nat -> Q) (rate : Q) (nn : NeuralNetwork Q) (n : nat) :
  (rate <= 0)%Q ->
  (forall k, (0 <= rnd k)%Q) ->
  fst (mutate rnd rate nn n) = nn /\
  snd (mutate rnd rate nn n) = n + List.length (parameters Q nn).
Proof.
  intros Hrate Hrnd.
  assert (Hval : forall v j, mutateValue rnd rate v j = (v, S j))
    by (intros v j; now apply mutateValue_rate0).
  assert (Hfst : forall v j, fst (mutateValue rnd rate v j) = v)
    by (intros v j; now rewrite Hval).
  assert (Hsnd : forall v j, snd (mutateValue rnd rate v j) = j + (fun _ => 1) v)
    by (intros v j; rewrite Hval; simpl; lia).
  assert (Hrow : forall row j, fst (mapM (mutateValue rnd rate) row j) = row)
    by (intros row j; now apply mapM_same).
  assert (Hrowd : forall (row : list Q) j,
             snd (mapM (mutateValue rnd rate) row j) = j + List.length row).
  { intros row j. rewrite (mapM_draws _ (fun _ => 1) row j Hsnd). now rewrite list_sum_ones. }
  unfold mutate, bind, ret, parameters.
  pose proof (mapM_same (mapM (mutateValue rnd rate)) (weightsIH nn) n Hrow) as F1.
  pose proof (mapM_draws _ (@List.length Q) (weightsIH nn) n Hrowd) as D1.
  destruct (mapM (mapM _) (weightsIH nn) n) as [wih n1].
  pose proof (mapM_same (mapM (mutateValue rnd rate)) (weightsHO nn) n1 Hrow) as F2.
  pose proof (mapM_draws _ (@List.length Q) (weightsHO nn) n1 Hrowd) as D2.
  destruct (mapM (mapM _) (weightsHO nn) n1) as [who n2].
  pose proof (Hrow (biasH nn) n2) as F3. pose proof (Hrowd (biasH nn) n2) as D3.
  destruct (mapM _ (biasH nn) n2) as [bh n3].
  pose proof (Hrow (biasO nn) n3) as F4. pose proof (Hrowd (biasO nn) n3) as D4.
  destruct (mapM _ (biasO nn) n3) as [bo n4].
  simpl in *. subst wih who bh bo. split; [now destruct nn|].
  rewrite !length_app, <- !list_sum_lengths. lia.
Qed.

Lemma mutate_rate_zero_witness :
  fst (mutate Runs.steadyRandom 0%Q Samples.sampleNetwork 0) = Samples.sampleNetwork /\
  snd (mutate Runs.steadyRandom 0%Q Samples.sampleNetwork 0)
  = 0 + List.length (parameters Q Samples.sampleNetwork).
Proof.
  apply (mutate_rate_zero Runs.steadyRandom 0%Q Samples.sampleNetwork 0).
  - apply Qle_refl.
  - intros k. unfold Runs.steadyRandom. lra.
Defined.

(** ** Prediction *)

Section Prediction.

Context (R : Type) `{Number R}.
Variable Math_exp : R -> R.

Lemma weightedSum_S (x : nat -> num R) (m : list (list R)) (j n : nat) :
  weightedSum x m j (S n) =
  obind (weightedSum x m j n) (fun sum =>
  obind (index2 m n j) (fun w => Val (nadd sum (nmul (x n) w)))).
Proof. unfold weightedSum. now rewrite seq_S, fold_left_app. Qed.

Lemma index2_throw (m : list (list R)) (i j : nat) :
  index2 m i j = Throw <-> List.length m <= i.
Proof.
  unfold index2. destruct (nth_error m i) as [row|] eqn:E.
  - split; [discriminate|]. intros Hlen.
    apply nth_error_None in Hlen. congruence.
  - split; [|reflexivity]. intros _. now apply nth_error_None.
Qed.

(** The inner loop throws exactly when it reaches a missing row. *)
Lemma weightedSum_throw (x : nat -> num R) (m : list (list R)) (j n : nat) :
  weightedSum x m j n = Throw <-> List.length m < n.
Proof.
  induction n as [|n IH].
  - split; [discriminate|lia].
  - rewrite weightedSum_S.
    destruct (weightedSum x m j n) as [sum|]; cbn [obind].
    + destruct (index2 m n j) as [w|] eqn:E; cbn [obind].
      * split; [discriminate|]. intros Hlen.
        assert (Hthrow : index2 m n j = Throw) by (apply index2_throw; lia).
        congruence.
      * split; [|reflexivity]. intros _. apply index2_throw in E. lia.
    + split; [|reflexivity]. intros _.
      assert (List.length m < n) by now apply IH. lia.
Qed.

Lemma layer_throw (x : nat -> num R) (m : list (list R)) (bias : list R) (n : nat)
      (js : list nat) :
  layer Math_exp x m bias n js = Throw <-> js <> [] /\ List.length m < n.
Proof.
  induction js as [|j js IH]; simpl.
  - split; [discriminate|]. now intros [Hjs _].
  - destruct (weightedSum x m j n) as [sum|] eqn:Esum; cbn [obind].
    + assert (Hlen : ~ List.length m < n).
      { intros Hlt. apply (weightedSum_throw x m j n) in Hlt. congruence. }
      destruct (layer Math_exp x m bias n js) as [rest|]; cbn [obind].
      * split; [discriminate|]. now intros [_ Hlt].
      * exfalso. apply Hlen. now apply IH.
    + apply weightedSum_throw in Esum. split; [|reflexivity].
      intros _. split; [discriminate|exact Esum].
Qed.

Lemma layer_length (x : nat -> num R) (m : list (list R)) (bias : list R) (n : nat)
      (js : list nat) (outs : list (num R)) :
  layer Math_exp x m bias n js = Val outs -> List.length outs = List.length js.
Proof.
  revert outs. induction js as [|j js IH]; intros outs; simpl.
  - now intros [= <-].
  - destruct (weightedSum x m j n) as [sum|]; [|discriminate]. cbn [obind].
    destruct (layer Math_exp x m bias n js) as [rest|]; [|discriminate]. cbn [obind].
    intros [= <-]. simpl. now rewrite (IH rest).
Qed.

Lemma seq_nonempty (k : nat) : seq 0 k <> [] <-> 0 < k.
Proof. destruct k; simpl; split; intros Hk; try lia; try congruence; discriminate. Qed.

Lemma predict_throw (nn : NeuralNetwork R) (inputs : list R) :
  predict Math_exp nn inputs = Throw <->
  (0 < hiddenNodes nn /\ List.length (weightsIH nn) < inputNodes nn) \/
  (0 < outputNodes nn /\ List.length (weightsHO nn) < hiddenNodes nn).
Proof.
  unfold predict.
  destruct (layer Math_exp (nth_error inputs) (weightsIH nn) (biasH nn) (inputNodes nn)
                  (seq 0 (hiddenNodes nn))) as [hidden|] eqn:Ehidden; cbn [obind].
  - assert (Hfirst : ~ (0 < hiddenNodes nn /\ List.length (weightsIH nn) < inputNodes nn)).
    { intros [Hh Hlen]. apply seq_nonempty in Hh.
      assert (Hthrow : layer Math_exp (nth_error inputs) (weightsIH nn) (biasH nn)
                             (inputNodes nn) (seq 0 (hiddenNodes nn)) = Throw)
        by (apply layer_throw; split; assumption).
      congruence. }
    rewrite layer_throw, seq_nonempty. tauto.
  - apply layer_throw in Ehidden as [Hh Hlen]. apply seq_nonempty in Hh.
    split; [|reflexivity]. intros _. left. split; assumption.
Qed.

Lemma predict_length (nn : NeuralNetwork R) (inputs : list R) (outs : list (num R)) :
  predict Math_exp nn inputs = Val outs -> List.length outs = outputNodes nn.
Proof.
  unfold predict.
  destruct (layer Math_exp (nth_error inputs) (weightsIH nn) (biasH nn) (inputNodes nn)
                  (seq 0 (hiddenNodes nn))) as [hidden|]; cbn [obind]; [|discriminate].
  intros Houts. apply layer_length in Houts. now rewrite length_seq in Houts.
Qed.

End Prediction.

(** X4.  [predict] throws (a TypeError, on indexing a missing row) exactly
    when the hidden layer is not empty and [weightsIH] has fewer rows than
    [inputNodes], or the output layer is not empty and [weightsHO] has fewer
    rows than [hiddenNodes]; otherwise it returns [outputNodes] values,
    whatever the inputs, their number included. *)
Theorem predict_throws_iff (R : Type) (NR : Number R) (Math_exp : R -> R)
        (nn : NeuralNetwork R) (inputs : list R) :
  (predict Math_exp nn inputs = Throw <->
   (0 < hiddenNodes nn /\ List.length (weightsIH nn) < inputNodes nn) \/
   (0 < outputNodes nn /\ List.length (weightsHO nn) < hiddenNodes nn)) /\
  (forall outs, predict Math_exp nn inputs = Val outs ->
                List.length outs = outputNodes nn).
Proof.
  split; [apply predict_throw|apply predict_length].
Qed.

(** ** The outputs are in [0, 1] *)







(** ** Deserialization *)

Section Deserialization.

Context (R : Type) `{Number R}.
Variable Math_random : nat -> R.

Lemma arrayOf_throw (v : any R) : arrayOf v = Throw <-> invalidLength R v.
Proof.
  destruct v; simpl; try (split; [discriminate|tauto]).
  destruct (asLength r); split; congruence.
Qed.

Lemma construct_throw (i h o : any R) (n : nat) :
  fst (construct Math_random i h o n) = Throw <->
  invalidLength R i \/ invalidLength R h \/ invalidLength R o.
Proof.
  unfold construct.
  pose proof (arrayOf_throw i) as Hi. pose proof (arrayOf_throw h) as Hh.
  pose proof (arrayOf_throw o) as Ho.
  destruct (arrayOf i) as [li|]; [|simpl; tauto].
  destruct (arrayOf h) as [lh|]; [|simpl; tauto].
  destruct (arrayOf o) as [lo|]; [|simpl; tauto].
  simpl. split; [discriminate|].
  intros [Hbad|[Hbad|Hbad]]; [apply Hi in Hbad|apply Hh in Hbad|apply Ho in Hbad];
    discriminate.
Qed.

Lemma get_field (data : any R) (key : string) :
  data <> Undefined -> data <> Null -> get data key = Val (member R data key).
Proof. destruct data; simpl; congruence. Qed.

End Deserialization.

(** X6.  [fromJSON(data)] throws exactly when [data] is [undefined] or
    [null], or one of [data.inputNodes], [data.hiddenNodes],
    [data.outputNodes] is a number that is not a valid array length; in
    every other case, whatever [data] holds, it returns an object whose
    seven fields are the values read from [data], unchecked ([undefined] for
    a missing field). *)
Theorem fromJSON_throws_iff (R : Type) (NR : Number R) (Math_random : nat -> R)
        (data : any R) (n : nat) :
  (fst (fromJSON Math_random data n) = Throw <->
   data = Undefined \/ data = Null \/
   invalidLength R (member R data "inputNodes") \/
   invalidLength R (member R data "hiddenNodes") \/
   invalidLength R (member R data "outputNodes")) /\
  (forall o, fst (fromJSON Math_random data n) = Val o ->
             o = {| o_inputNodes := member R data "inputNodes";
                    o_hiddenNodes := member R data "hiddenNodes";
                    o_outputNodes := member R data "outputNodes";
                    o_weightsIH := member R data "weightsIH";
                    o_weightsHO := member R data "weightsHO";
                    o_biasH := member R data "biasH";
                    o_biasO := member R data "biasO" |}).
Proof.
  assert (Hnull : forall d : any R, d = Undefined \/ d = Null \/ (d <> Undefined /\ d <> Null))
    by (intros d; destruct d; auto; right; right; split; discriminate).
  destruct (Hnull data) as [->|[->|[Hu Hn]]].
  - split; [split; [auto|reflexivity]|discriminate].
  - split; [split; [auto|reflexivity]|discriminate].
  - unfold fromJSON. rewrite !(get_field R data _ Hu Hn).
    pose proof (construct_throw R Math_random (member R data "inputNodes")
                  (member R data "hiddenNodes") (member R data "outputNodes") n) as Hc.
    destruct (construct Math_random _ _ _ n) as [[u|] n']; cbn [fst] in *.
    + split.
      * split; [discriminate|]. intros [?|[?|Hbad]]; try contradiction.
        apply Hc in Hbad. discriminate.
      * intros o Ho. apply Val_inj in Ho. now subst o.
    + split; [|discriminate]. split; [|reflexivity].
      intros _. right. right. now apply Hc.
Qed.

(** ** The player's bird *)

Section PlayerBird.

Context (R : Type) `{Number R}.
Variable Math_random : nat -> R.
Variable JSON_parse : string -> Outcome (any R).

Lemma createPlayerBird_body (saved : option string) (n : nat) :
  exists b n',
    createPlayerBird Math_random JSON_parse saved n =
    ({| x := div CANVAS_WIDTH (lit 3); y := div CANVAS_HEIGHT (lit 2);
        velocity := lit 0; rotation := lit 0; brain := b;
        fitness := lit 0; score := lit 0; distance := lit 0;
        alive := true; color := Yellow |}, n').
Proof.
  unfold createPlayerBird, bind, ret.
  destruct (loadBrain Math_random JSON_parse saved n) as [[o|] n1].
  - eauto.
  - destruct (new_NeuralNetwork Math_random 4 6 1 n1) as [nn n2]. eauto.
Qed.

End PlayerBird.

(** X7.  [createPlayerBird] never throws and always returns an alive yellow
    bird at the spawn point [(CANVAS_WIDTH / 3, CANVAS_HEIGHT / 2)] with
    velocity, score, distance and fitness 0.  Its brain is a fresh network of
    topology 4/6/1 exactly when nothing is stored, the stored text is empty,
    [JSON.parse] throws on it or [fromJSON] throws on the parsed value;
    otherwise it is the object [fromJSON] returned. *)
Theorem createPlayerBird_fallback (R : Type) (NR : Number R)
        (Math_random : nat -> R) (JSON_parse : string -> Outcome (any R))
        (saved : option string) (n : nat) :
  let bird := fst (createPlayerBird Math_random JSON_parse saved n) in
  (x bird = div CANVAS_WIDTH (lit 3) /\ y bird = div CANVAS_HEIGHT (lit 2) /\
   velocity bird = lit 0 /\ score bird = lit 0 /\ distance bird = lit 0 /\
   fitness bird = lit 0 /\ alive bird = true /\ color bird = Yellow) /\
  ((exists nn, brain bird = Fresh nn) <->
   saved = None \/ saved = Some EmptyString \/
   exists text, saved = Some text /\
                (JSON_parse text = Throw \/
                 exists data, JSON_parse text = Val data /\
                              fst (fromJSON Math_random data n) = Throw)) /\
  (forall nn, brain bird = Fresh nn -> hasTopology R 4 6 1 nn) /\
  (forall o, brain bird = Deserialized o ->
             exists text data, saved = Some text /\ JSON_parse text = Val data /\
                               fst (fromJSON Math_random data n) = Val o).
Proof.
  intros bird. subst bird.
  destruct (createPlayerBird_body R Math_random JSON_parse saved n) as (b & n' & Hbody).
  pose proof (createPlayerBird_brain R Math_random JSON_parse saved n) as Hbrain.
  pose proof (loadBrain_none R Math_random JSON_parse saved n) as Hnone.
  split; [rewrite Hbody; cbn; repeat split|].
  destruct (loadBrain Math_random JSON_parse saved n) as [[o|] n1] eqn:Eload;
    cbn [fst] in Hnone.
  - rewrite Hbrain. split; [|split].
    + split; [intros (nn & Hnn); discriminate|].
      intros Hcase. apply Hnone in Hcase. discriminate.
    + discriminate.
    + intros o' [= <-]. unfold loadBrain in Eload.
      destruct saved as [[|c text]|]; try discriminate.
      destruct (JSON_parse (String c text)) as [data|] eqn:Eparse; [|discriminate].
      exists (String c text), data. split; [reflexivity|]. split; [exact Eparse|].
      destruct (fromJSON Math_random data n) as [[o'|] n2]; [|discriminate].
      cbn [fst]. congruence.
  - destruct Hbrain as (nn & Hnn & Htop). rewrite Hnn. split; [|split].
    + split; [intros _; now apply Hnone|eauto].
    + intros nn' [= <-]. exact Htop.
    + discriminate.
Qed.

(** X8.  Loading what was saved: when the stored text is not empty and
    parses to the value [toJSON(c)] of a network [c] (of dimensions the
    constructor accepts), [createPlayerBird] gives the bird an object that is
    [c] field for field, so the bird predicts as [c] does. *)
Theorem createPlayerBird_loads_saved
        (Math_random : nat -> Q) (JSON_parse : string -> Outcome (any Q))
        (c : NeuralNetwork Q) (text : string) (n : nat) :
  validDims Q c ->
  text <> EmptyString ->
  JSON_parse text = Val (toJSON c) ->
  exists o,
    brain (fst (createPlayerBird Math_random JSON_parse (Some text) n)) = Deserialized o /\
    typed o = Some c /\
    forall (Math_exp : Q -> Q) (inputs : list Q),
      predictObject Math_exp o inputs = Some (predict Math_exp c inputs).
Proof.
  intros Hc Htext Hparse.
  destruct (fromJSON_toJSON_typed Q Math_random ExactFacts.asLength_ofNat c n Hc)
    as (o & n' & Hfrom & Htyped).
  exists o. split; [|split; [exact Htyped|]].
  - unfold createPlayerBird, bind, ret, loadBrain.
    destruct text as [|ch text]; [congruence|].
    now rewrite Hparse, Hfrom.
  - intros Math_exp inputs. unfold predictObject. now rewrite Htyped.
Qed.

Lemma createPlayerBird_loads_saved_witness :
  exists o,
    brain (fst (createPlayerBird Samples.sampleRandom
                  (fun _ => Val (toJSON Samples.sampleNetwork)) (Some "model"%string) 0))
    = Deserialized o /\
    typed o = Some Samples.sampleNetwork /\
    forall (Math_exp : Q -> Q) (inputs : list Q),
      predictObject Math_exp o inputs = Some (predict Math_exp Samples.sampleNetwork inputs).
Proof.
  apply (createPlayerBird_loads_saved Samples.sampleRandom
           (fun _ => Val (toJSON Samples.sampleNetwork)) Samples.sampleNetwork
           "model"%string 0).
  - unfold validDims. vm_compute. repeat split.
  - discriminate.
  - reflexivity.
Defined.

(** ** Generation rollover *)

Section Rollover.

Context (R : Type) `{Number R}.
Variable Math_exp : R -> R.
Variable Math_random : nat -> R.

Lemma sort_nil (l : list (Bird R)) : sort l = [] <-> l = [].
Proof.
  split; [|now intros ->]. intros Hs.
  pose proof (sort_length R l) as Hlen. rewrite Hs in Hlen.
  destruct l; [reflexivity|discriminate].
Qed.

Lemma createAIBirds_length (best : list (NeuralNetwork R)) (pop n : nat) :
  List.length (fst (createAIBirds Math_random pop best n)) = pop.
Proof. unfold createAIBirds. now rewrite mapM_length, length_seq. Qed.

Lemma createAIBirds_fresh (best : list (NeuralNetwork R)) (pop n : nat) :
  Forall (fun b => exists nn c, b = newBird nn c)
         (fst (createAIBirds Math_random pop best n)).
Proof. apply mapM_Forall. intros i m. apply createAIBird_newBird. Qed.

Lemma living_fresh (bs : list (Bird R)) :
  Forall (fun b => exists nn c, b = newBird nn c) bs -> living bs = List.length bs.
Proof.
  unfold living. induction 1 as [|b bs (nn & c & ->) _ IH]; simpl; [reflexivity|].
  now rewrite IH.
Qed.

Lemma nextGeneration_effects (g g' : Game R) :
  nextGeneration Math_random g = Val g' ->
  generation g' = S (generation g) /\ gameState g' = PLAYING /\
  aliveCount g' = AI_POPULATION /\ highScore g' = highScore g /\
  List.length (birds g') = AI_POPULATION /\ living (birds g') = AI_POPULATION.
Proof.
  unfold nextGeneration.
  pose proof (createAIBirds_length (map (@brain R _) (firstn 5 (sort (birds g))))
                                   AI_POPULATION (draws g)) as Hlen.
  pose proof (createAIBirds_fresh (map (@brain R _) (firstn 5 (sort (birds g))))
                                  AI_POPULATION (draws g)) as Hnew.
  destruct (createAIBirds Math_random AI_POPULATION _ (draws g)) as [newBirds n'].
  cbn [fst] in Hlen, Hnew. apply living_fresh in Hnew.
  destruct (sort (birds g)); [discriminate|].
  intros Hg'. apply Val_inj in Hg'. subst g'.
  cbn [generation gameState aliveCount highScore birds].
  repeat split; trivial; congruence.
Qed.

End Rollover.

(** X9.  [nextGeneration] throws exactly when there is no bird (its log line
    reads [birds[0].score]).  Otherwise it leaves a restarted world: no
    pipes, spawn counter, shown score and best score 0, the generation
    counter one higher, the game [PLAYING], [AI_POPULATION] birds counted
    alive, each a new bird at the spawn point (alive, with velocity, score,
    distance and fitness 0); the high score is kept; the saved brains are
    those of the first 5 birds by fitness, and the stored model is the
    serialized brain of the first. *)
Theorem nextGeneration_restart (R : Type) (NR : Number R) (Math_random : nat -> R)
        (g : Game R) :
  (nextGeneration Math_random g = Throw <-> birds g = []) /\
  (forall g', nextGeneration Math_random g = Val g' ->
     pipes g' = [] /\ lastPipeSpawn g' = lit 0 /\ scoreRef g' = lit 0 /\
     bestScore g' = lit 0 /\ generation g' = S (generation g) /\
     gameState g' = PLAYING /\ aliveCount g' = AI_POPULATION /\
     highScore g' = highScore g /\
     List.length (birds g') = AI_POPULATION /\
     living (birds g') = AI_POPULATION /\
     Forall (fun b => exists nn c, b = newBird nn c) (birds g') /\
     savedBrains g' = map (@brain R _) (firstn 5 (sort (birds g))) /\
     storedModel g' = option_map (fun b => toJSON (brain b)) (hd_error (sort (birds g)))).
Proof.
  unfold nextGeneration.
  pose proof (createAIBirds_length R Math_random
                (map (@brain R _) (firstn 5 (sort (birds g)))) AI_POPULATION (draws g)) as Hlen.
  pose proof (createAIBirds_fresh R Math_random
                (map (@brain R _) (firstn 5 (sort (birds g)))) AI_POPULATION (draws g)) as Hnew.
  destruct (createAIBirds Math_random AI_POPULATION _ (draws g)) as [newBirds n'].
  cbn [fst] in Hlen, Hnew.
  pose proof (sort_nil R (birds g)) as Hnil.
  destruct (sort (birds g)) as [|best rest].
  - split; [split; [intros _; now apply Hnil|reflexivity]|discriminate].
  - split.
    + split; [discriminate|]. intros Hb. apply Hnil in Hb. discriminate.
    + intros g' Hg'. apply Val_inj in Hg'. subst g'.
      pose proof (living_fresh R _ Hnew) as Hliv.
      cbn [pipes lastPipeSpawn scoreRef bestScore generation gameState aliveCount
           highScore birds savedBrains storedModel hd_error option_map].
      repeat split; trivial; congruence.
Qed.

(** ** When a step throws *)

Section StepReturns.

Context (R : Type) `{Number R}.
Variable Math_exp : R -> R.
Variable Math_random : nat -> R.

Lemma indexable_predict (nn : NeuralNetwork R) (inputs : list R) :
  predict Math_exp nn inputs = Throw <-> ~ indexable R nn.
Proof. rewrite predict_throw. unfold indexable. lia. Qed.

Lemma updateBird_throw (ai : bool) (t : Pipe R) (ps : list (Pipe R)) (b : Bird R) :
  updateBird Math_exp ai t ps b = Throw <->
  ai = true /\ alive b = true /\ ~ indexable R (brain b).
Proof.
  unfold updateBird, decide.
  destruct (alive b); cbn [negb].
  - destruct ai.
    + destruct (predict Math_exp (brain b) (senses t b)) as [outs|] eqn:E; cbn [obind].
      * split; [discriminate|]. intros (_ & _ & Hno).
        apply (indexable_predict (brain b) (senses t b)) in Hno. congruence.
      * apply indexable_predict in E. split; [|reflexivity]. now intros _.
    + cbn [obind]. split; [discriminate|]. now intros [? _].
  - split; [discriminate|]. now intros (_ & ? & _).
Qed.

Lemma updateBirds_throw (ai : bool) (t : Pipe R) (ps : list (Pipe R)) (bs : list (Bird R)) :
  updateBirds Math_exp ai t ps bs = Throw <->
  ai = true /\ exists b, In b bs /\ alive b = true /\ ~ indexable R (brain b).
Proof.
  induction bs as [|b bs IH]; simpl.
  - split; [discriminate|]. now intros (_ & ? & [] & _).
  - destruct (updateBird Math_exp ai t ps b) as [b'|] eqn:Eb; cbn [obind].
    + assert (Hb : ~ (ai = true /\ alive b = true /\ ~ indexable R (brain b))).
      { intros Hno. apply (updateBird_throw ai t ps b) in Hno. congruence. }
      destruct (updateBirds Math_exp ai t ps bs) as [rest|]; cbn [obind].
      * split; [discriminate|]. intros (Hai & c & [<-|Hc] & Halive & Hno).
        -- exfalso. apply Hb. auto.
        -- assert (Hthrow : @Val (list (Bird R)) rest = Throw)
             by (apply IH; split; [exact Hai|exists c; auto]).
           discriminate.
      * split; [|reflexivity]. intros _.
        destruct IH as [IH _]. destruct (IH eq_refl) as (Hai & c & Hc & Hrest).
        split; [exact Hai|]. exists c. split; [now right|exact Hrest].
    + apply updateBird_throw in Eb as (Hai & Halive & Hno).
      split; [|reflexivity]. intros _. split; [exact Hai|]. exists b. split; [now left|auto].
Qed.

Lemma updateBirds_length (ai : bool) (t : Pipe R) (ps : list (Pipe R))
      (bs bs1 : list (Bird R)) :
  updateBirds Math_exp ai t ps bs = Val bs1 -> List.length bs1 = List.length bs.
Proof.
  intros Hrun. apply updateBirds_each in Hrun.
  induction Hrun; simpl; congruence.
Qed.

Lemma living_positive (bs : list (Bird R)) : living bs <> 0 -> bs <> [].
Proof. intros Hliving ->. now apply Hliving. Qed.

(** Once the birds are updated, the rest of the step throws only in AI mode
    with no bird at all. *)
Lemma update_rest (mode : GameMode) (ap : bool) (g : Game R) (bs1 : list (Bird R)) :
  updateBirds Math_exp (steered mode ap) (closestPipe (birds g) (pipes g))
              (pipes g) (birds g) = Val bs1 ->
  update Math_exp Math_random mode ap g = Throw <-> mode = AI /\ birds g = [].
Proof.
  intros Hbirds. pose proof (updateBirds_length _ _ _ _ _ Hbirds) as Hlen.
  unfold update. unfold steered in Hbirds. rewrite Hbirds. cbn [obind].
  destruct mode.
  - (* PLAYER *)
    destruct (isFirstAlive bs1) eqn:Efirst; cbn [negb].
    + cbn [birds pipes lastPipeSpawn draws scoreRef].
      destruct (spawnPipe _ _ _ _) as [[ps1 c1] n1].
      destruct bs1 as [|b0 rest]; [discriminate|].
      destruct (movePipes_run R ps1 b0 rest (scoreRef g)) as (shown' & ->).
      cbn [obind]. split; [discriminate|]. now intros [? _].
    + split; [discriminate|]. now intros [? _].
  - (* AI *)
    destruct (Nat.eqb (living bs1) 0) eqn:Eover.
    + unfold nextGeneration. cbn [birds draws].
      destruct (createAIBirds _ _ _ _) as [newBirds n'].
      pose proof (sort_length R bs1) as Hsort.
      destruct (sort bs1) as [|best others].
      * split; [|reflexivity]. intros _. split; [reflexivity|].
        destruct bs1; [|discriminate]. now destruct (birds g).
      * split; [discriminate|]. intros [_ Hnil]. rewrite Hnil in Hlen.
        destruct bs1; discriminate.
    + apply Nat.eqb_neq, living_positive in Eover.
      cbn [birds pipes lastPipeSpawn draws scoreRef].
      destruct (spawnPipe _ _ _ _) as [[ps1 c1] n1].
      destruct bs1 as [|b0 rest]; [congruence|].
      destruct (movePipes_run R ps1 b0 rest (scoreRef g)) as (shown' & ->).
      cbn [obind]. split; [discriminate|]. intros [_ Hnil]. rewrite Hnil in Hlen.
      discriminate.
Qed.

Lemma update_throw (mode : GameMode) (ap : bool) (g : Game R) :
  update Math_exp Math_random mode ap g = Throw <->
  (mode = AI /\ birds g = []) \/
  (steered mode ap = true /\
   exists b, In b (birds g) /\ alive b = true /\ ~ indexable R (brain b)).
Proof.
  destruct (updateBirds Math_exp (steered mode ap) (closestPipe (birds g) (pipes g))
                        (pipes g) (birds g)) as [bs1|] eqn:Ebirds.
  - rewrite (update_rest mode ap g bs1 Ebirds). split; [now left|].
    intros [Hempty|Hbad]; [exact Hempty|].
    apply (updateBirds_throw (steered mode ap) (closestPipe (birds g) (pipes g))
             (pipes g) (birds g)) in Hbad. congruence.
  - pose proof Ebirds as Hbad. apply updateBirds_throw in Hbad.
    split; [intros _; now right|]. intros _.
    unfold update. unfold steered in Ebirds. now rewrite Ebirds.
Qed.

End StepReturns.

(** X10.  A simulation step throws in exactly two situations: in AI mode with
    no bird at all (the rollover then reads [birds[0].score]), or when the
    networks steer (AI mode, or the autopilot) and a bird that is alive has
    a network whose weight matrix lacks a row that [predict] indexes.  In
    particular a step of manual play always returns. *)
Theorem update_throws_iff (R : Type) (NR : Number R)
        (Math_exp : R -> R) (Math_random : nat -> R)
        (mode : GameMode) (isAutopilot : bool) (g : Game R) :
  (update Math_exp Math_random mode isAutopilot g = Throw <->
   (mode = AI /\ birds g = []) \/
   (steered mode isAutopilot = true /\
    exists b, In b (birds g) /\ alive b = true /\ ~ indexable R (brain b))) /\
  (exists g', update Math_exp Math_random PLAYER false g = Val g').
Proof.
  split; [apply update_throw|].
  destruct (update Math_exp Math_random PLAYER false g) as [g'|] eqn:E; [eauto|].
  apply update_throw in E as [[Hmode _]|[Hsteer _]]; discriminate.
Qed.

(** ** What a step leaves behind *)

Section StepEffects.

Context (R : Type) `{Number R}.
Variable Math_exp : R -> R.
Variable Math_random : nat -> R.

Lemma living_bumps (k : nat) (bs : list (Bird R)) :
  living (map (Nat.iter k (@bumpScore R _)) bs) = living bs.
Proof.
  unfold living. induction bs as [|b bs IH]; simpl; [reflexivity|].
  destruct (bumps_frame R k b) as (_ & _ & ->).
  destruct (alive b); simpl; now rewrite IH.
Qed.

Lemma isFirstAlive_bumps (k : nat) (bs : list (Bird R)) :
  isFirstAlive (map (Nat.iter k (@bumpScore R _)) bs) = isFirstAlive bs.
Proof.
  destruct bs as [|b bs]; simpl; [reflexivity|].
  now destruct (bumps_frame R k b) as (_ & _ & ->).
Qed.

Lemma bumps_down (k : nat) (b : Bird R) :
  alive b = false -> Nat.iter k (@bumpScore R _) b = b.
Proof.
  intros Hdead. induction k as [|k IH]; simpl; [reflexivity|].
  rewrite IH. unfold bumpScore. now rewrite Hdead.
Qed.

(** The pipe phase of a step: the state it leaves. *)
Lemma pipePhase (g1 : Game R) (bs1 : list (Bird R)) (g' : Game R) :
  (let '(ps1, counter1, n1) :=
     spawnPipe Math_random (pipes g1) (lastPipeSpawn g1) (draws g1) in
   obind (movePipes ps1 bs1 (scoreRef g1)) (fun '(ps2, bs2, shown2) =>
   Val {| birds := bs2; pipes := ps2; lastPipeSpawn := counter1;
          scoreRef := shown2; savedBrains := savedBrains g1;
          gameState := gameState g1;
          highScore := highScore g1; generation := generation g1;
          aliveCount := aliveCount g1; bestScore := bestScore g1;
          storedModel := storedModel g1; draws := n1 |})) = Val g' ->
  (exists k, birds g' = map (Nat.iter k (@bumpScore R _)) bs1) /\
  savedBrains g' = savedBrains g1 /\ gameState g' = gameState g1 /\
  highScore g' = highScore g1 /\ generation g' = generation g1 /\
  aliveCount g' = aliveCount g1 /\ bestScore g' = bestScore g1 /\
  storedModel g' = storedModel g1.
Proof.
  destruct (spawnPipe _ _ _ _) as [[ps1 c1] n1].
  destruct (movePipes ps1 bs1 (scoreRef g1)) as [[[ps2 bs2] s2]|] eqn:Emove;
    [|discriminate].
  cbn [obind]. intros Hg'. apply Val_inj in Hg'. subst g'.
  apply movePipes_bumps in Emove as (k & ->).
  cbn [birds savedBrains gameState highScore generation aliveCount bestScore storedModel].
  repeat split. exists k. apply bumps_map.
Qed.

End StepEffects.

(** X11.  In AI mode a step that returns leaves the alive counter equal to
    the number of birds that are alive, which is at least 1; the high score
    is never touched.  Either the generation is the same, with as many birds
    as before and the game state, the stored model and the saved brains
    unchanged, or it is the next one, with [AI_POPULATION] birds, all alive,
    and the game [PLAYING]. *)
Theorem update_AI_census (R : Type) (NR : Number R)
        (Math_exp : R -> R) (Math_random : nat -> R)
        (isAutopilot : bool) (g g' : Game R) :
  update Math_exp Math_random AI isAutopilot g = Val g' ->
  aliveCount g' = living (birds g') /\
  0 < living (birds g') /\
  highScore g' = highScore g /\
  ((generation g' = generation g /\
    List.length (birds g') = List.length (birds g) /\
    gameState g' = gameState g /\
    storedModel g' = storedModel g /\ savedBrains g' = savedBrains g) \/
   (generation g' = S (generation g) /\
    List.length (birds g') = AI_POPULATION /\ living (birds g') = AI_POPULATION /\
    gameState g' = PLAYING)).
Proof.
  unfold update. intros Hrun.
  destruct (updateBirds _ _ _ _ _) as [bs1|] eqn:Ebirds; [|discriminate].
  apply updateBirds_length in Ebirds.
  cbn [obind] in Hrun.
  destruct (Nat.eqb (living bs1) 0) eqn:Eover.
  - destruct (nextGeneration_effects R Math_random _ _ Hrun)
      as (Hgen & Hstate & Hcount & Hhigh & Hlen & Hliving).
    cbn [generation highScore] in Hgen, Hhigh.
    rewrite Hcount, Hliving.
    split; [reflexivity|]. split; [unfold AI_POPULATION; lia|].
    split; [exact Hhigh|]. right. repeat split; trivial.
  - apply Nat.eqb_neq in Eover.
    apply pipePhase in Hrun
      as ((k & Hbs) & Hsaved & Hstate & Hhigh & Hgen & Hcount & _ & Hstored).
    cbn [savedBrains gameState highScore generation aliveCount storedModel] in *.
    rewrite Hbs, living_bumps, length_map.
    split; [exact Hcount|]. split; [lia|].
    split; [exact Hhigh|]. left. repeat split; trivial.
Qed.

Lemma update_AI_census_witness :
  exists g',
    update Samples.sampleExp Runs.steadyRandom AI false Runs.playerStart = Val g' /\
    aliveCount g' = living (birds g') /\ 0 < living (birds g') /\
    highScore g' = highScore Runs.playerStart.
Proof.
  eexists. split; [vm_compute; reflexivity|].
  match goal with
  | |- aliveCount ?g' = _ /\ _ =>
      destruct (update_AI_census Q _ Samples.sampleExp Runs.steadyRandom false
                  Runs.playerStart g') as (Hcount & Hliving & Hhigh & _)
  end.
  - vm_compute. reflexivity.
  - repeat split; assumption.
Defined.

(** X12.  In player mode a step never starts a generation: the generation,
    the saved brains, the stored model, the alive counter and the number of
    birds stay as they are.  When bird 0 is down after the step the game is
    over: pipes, spawn counter and shown score are frozen, no draw is made,
    and the high score becomes the shown score if that is greater.  When
    bird 0 is still alive the game state and the high score are kept. *)
Theorem update_player_game_over (R : Type) (NR : Number R)
        (Math_exp : R -> R) (Math_random : nat -> R)
        (isAutopilot : bool) (g g' : Game R) :
  update Math_exp Math_random PLAYER isAutopilot g = Val g' ->
  (generation g' = generation g /\ savedBrains g' = savedBrains g /\
   storedModel g' = storedModel g /\ aliveCount g' = aliveCount g /\
   List.length (birds g') = List.length (birds g)) /\
  (isFirstAlive (birds g') = false ->
   gameState g' = GAME_OVER /\ pipes g' = pipes g /\
   lastPipeSpawn g' = lastPipeSpawn g /\ scoreRef g' = scoreRef g /\
   draws g' = draws g /\
   highScore g' = (if gtb (scoreRef g) (highScore g) then scoreRef g else highScore g)) /\
  (isFirstAlive (birds g') = true ->
   gameState g' = gameState g /\ highScore g' = highScore g).
Proof.
  unfold update. intros Hrun.
  destruct (updateBirds _ _ _ _ _) as [bs1|] eqn:Ebirds; [|discriminate].
  apply updateBirds_length in Ebirds.
  cbn [obind] in Hrun.
  destruct (isFirstAlive bs1) eqn:Efirst; cbn [negb] in Hrun.
  - apply pipePhase in Hrun
      as ((k & Hbs) & Hsaved & Hstate & Hhigh & Hgen & Hcount & _ & Hstored).
    cbn [savedBrains gameState highScore generation aliveCount storedModel] in *.
    rewrite Hbs, isFirstAlive_bumps, length_map, Efirst.
    repeat split; trivial; discriminate.
  - apply Val_inj in Hrun. subst g'.
    cbn [gameOver birds pipes lastPipeSpawn scoreRef savedBrains gameState highScore
         generation aliveCount storedModel draws].
    rewrite Efirst. repeat split; trivial; discriminate.
Qed.

Lemma update_player_game_over_witness :
  generation (Runs.scripted 207) = generation (Runs.flap (Runs.scripted 206)) /\
  List.length (birds (Runs.scripted 207)) =
  List.length (birds (Runs.flap (Runs.scripted 206))).
Proof.
  destruct (update_player_game_over Q _ Samples.sampleExp Runs.steadyRandom false
              (Runs.flap (Runs.scripted 206)) (Runs.scripted 207))
    as ((Hgen & _ & _ & _ & Hlen) & _).
  - vm_compute. reflexivity.
  - split; assumption.
Defined.

(** X13.  A bird that is down is left exactly as it is by a step (position,
    velocity, score, distance and fitness included), in either mode, unless
    the step replaces the generation. *)
Theorem update_dead_untouched (R : Type) (NR : Number R)
        (Math_exp : R -> R) (Math_random : nat -> R)
        (mode : GameMode) (isAutopilot : bool) (g g' : Game R) (i : nat) (b : Bird R) :
  update Math_exp Math_random mode isAutopilot g = Val g' ->
  generation g' = generation g ->
  nth_error (birds g) i = Some b ->
  alive b = false ->
  nth_error (birds g') i = Some b.
Proof.
  intros Hrun Hgen Hi Hdead.
  apply update_cases in Hrun as (bs1 & Hbirds & Hend).
  apply updateBirds_each in Hbirds.
  destruct (Forall2_nth_error _ _ _ Hbirds i b Hi) as (b1 & Hi1 & Hb1).
  apply updateBird_dead in Hb1; [|exact Hdead]. subst b1.
  destruct Hend as [brains n _ _ _ Hnext | _ _ Hsame _ | k Hbumps _].
  - rewrite Hgen in Hnext. exfalso. now apply (n_Sn (generation g)).
  - now rewrite Hsame.
  - rewrite Hbumps, nth_error_map, Hi1. cbn [option_map].
    now rewrite bumps_down.
Qed.

(** ** The pipes stay in range *)

Lemma floor_range (r m : Q) :
  (m == 251)%Q -> (0 <= r)%Q -> (r < 1)%Q ->
  (0 <= Math_floor (mul r m))%Q /\ (Math_floor (mul r m) <= 250)%Q.
Proof.
  intros Hm251 Hlo Hhi.
  change (Math_floor (mul r m)) with (inject_Z (Qfloor (mul r m))).
  assert (Hm : (mul r m == r * 251)%Q) by now rewrite ExactFacts.mul_eq, Hm251.
  split.
  - change 0%Q with (inject_Z 0). rewrite <- Zle_Qle.
    change 0%Z with (Qfloor 0). apply Qfloor_resp_le. rewrite Hm. lra.
  - change 250%Q with (inject_Z 250). rewrite <- Zle_Qle.
    assert (Hlt : (Qfloor (mul r m) < 251)%Z).
    { rewrite Zlt_Qlt. apply Qle_lt_trans with (mul r m).
      - apply Qfloor_le.
      - rewrite Hm. change (inject_Z 251) with 251%Q. lra. }
    lia.
Qed.

Lemma spawnPipe_range (rnd : nat -> Q) (ps : list (Pipe Q)) (c : Q) (n : nat) :
  unitDraws rnd ->
  Forall pipeInRange ps -> (0 <= c)%Q ->
  let '(ps1, c1, n1) := spawnPipe rnd ps c n in
  Forall pipeInRange ps1 /\ (0 <= c1)%Q /\ (c1 <= 100)%Q.
Proof.
  intros Hrnd Hps Hc. unfold spawnPipe.
  destruct (gtb (add c (lit 1)) PIPE_SPAWN_RATE) eqn:E.
  - unfold bind, random, ret. cbn [fst snd].
    split; [|split; rewrite ExactFacts.lit_eq; lra].
    apply Forall_app. split; [exact Hps|]. constructor; [|constructor].
    unfold pipeInRange. cbn [pipe_x topHeight]. unfold_config.
    destruct (Hrnd n) as [Hlo Hhi].
    match goal with
    | |- context [Math_floor (mul (rnd n) ?m)] =>
        destruct (floor_range (rnd n) m) as [Hf0 Hf1];
          [exact_arith; lra|exact Hlo|exact Hhi|]
    end.
    set (f := Math_floor _) in *. clearbody f.
    pose proof (ExactFacts.add_eq f (lit 50)) as Htop.
    pose proof (ExactFacts.lit_eq 50) as H50. pose proof (ExactFacts.lit_eq 400) as H400.
    repeat split; lra.
  - unfold ret. split; [exact Hps|]. unfold gtb in E. unfold_config.
    exact_arith. split; lra.
Qed.

Lemma movePipes_range (ps ps' : list (Pipe Q)) (bs bs' : list (Bird Q)) (s s' : Q) :
  movePipes ps bs s = Val (ps', bs', s') ->
  Forall pipeInRange ps -> Forall pipeInRange ps'.
Proof.
  revert ps' bs' s'. induction ps as [|p ps IH]; intros ps' bs' s' Hrun Hps; simpl in Hrun.
  - apply Val_inj in Hrun. injection Hrun as <- _ _. constructor.
  - inversion Hps as [|? ? Hp Hrest]; subst.
    destruct (movePipes ps bs s) as [[[ps1 bs1] s1]|]; [|discriminate].
    specialize (IH _ _ _ eq_refl Hrest). cbn [obind] in Hrun.
    assert (Hmoved : forall flag,
               ltb (add (sub (pipe_x p) PIPE_SPEED) PIPE_WIDTH) (lit 0) = false ->
               pipeInRange {| pipe_x := sub (pipe_x p) PIPE_SPEED;
                              topHeight := topHeight p; passed := flag |}).
    { intros flag Hkept. destruct Hp as (Hx0 & Hx1 & Ht0 & Ht1).
      unfold pipeInRange. cbn [pipe_x topHeight]. unfold_config. exact_arith.
      repeat split; lra. }
    unfold movePipe in Hrun.
    destruct (ltb (add (sub (pipe_x p) PIPE_SPEED) PIPE_WIDTH) (lit 0)) eqn:Ekept.
    + cbn [obind] in Hrun. apply Val_inj in Hrun. injection Hrun as <- _ _. exact IH.
    + destruct (passed p).
      * cbn [obind] in Hrun. apply Val_inj in Hrun. injection Hrun as <- _ _.
        constructor; auto.
      * destruct bs1 as [|b0 rest]; [discriminate|].
        destruct (gtb (x b0) _); cbn [obind] in Hrun;
          apply Val_inj in Hrun; injection Hrun as <- _ _; constructor; auto.
Qed.

(** X14.  With draws in [0, 1), a step keeps the pipes in range: every pipe
    has [-52 <= x <= 400] (it is dropped once it is wholly off screen) and
    [50 <= topHeight <= 300], so that its gap [topHeight, topHeight + 150]
    lies between the ceiling and the ground with a margin of 50; and the
    spawn counter stays between 0 and 100. *)
Theorem update_world_in_range
        (Math_exp : Q -> Q) (Math_random : nat -> Q)
        (mode : GameMode) (isAutopilot : bool) (g g' : Game Q) :
  unitDraws Math_random ->
  worldInRange g ->
  update Math_exp Math_random mode isAutopilot g = Val g' ->
  worldInRange g' /\
  forall p, In p (pipes g') ->
            (50 <= topHeight p)%Q /\ (topHeight p + 150 <= 600 - 100 - 50)%Q.
Proof.
  intros Hrnd Hworld Hrun.
  assert (Hg' : worldInRange g').
  { destruct Hworld as (Hps & Hc0 & Hc1). unfold update in Hrun.
    destruct (updateBirds _ _ _ _ _) as [bs1|]; [|discriminate].
    cbn [obind] in Hrun.
    assert (Hphase : forall g1,
               pipes g1 = pipes g -> lastPipeSpawn g1 = lastPipeSpawn g ->
               (let '(ps1, counter1, n1) :=
                  spawnPipe Math_random (pipes g1) (lastPipeSpawn g1) (draws g1) in
                obind (movePipes ps1 bs1 (scoreRef g1)) (fun '(ps2, bs2, shown2) =>
                Val {| birds := bs2; pipes := ps2; lastPipeSpawn := counter1;
                       scoreRef := shown2; savedBrains := savedBrains g1;
                       gameState := gameState g1;
                       highScore := highScore g1; generation := generation g1;
                       aliveCount := aliveCount g1; bestScore := bestScore g1;
                       storedModel := storedModel g1; draws := n1 |})) = Val g' ->
               worldInRange g').
    { clear Hrun. intros g1 Hpipes Hcounter Hphase. rewrite Hpipes, Hcounter in Hphase.
      pose proof (spawnPipe_range Math_random (pipes g) (lastPipeSpawn g) (draws g1)
                                  Hrnd Hps Hc0) as Hspawn.
      destruct (spawnPipe _ _ _ _) as [[ps1 c1] n1].
      cbv beta iota in Hspawn. destruct Hspawn as (Hps1 & Hc).
      destruct (movePipes ps1 bs1 (scoreRef g1)) as [[[ps2 bs2] s2]|] eqn:Emove;
        [|discriminate].
      cbn [obind] in Hphase. apply Val_inj in Hphase. subst g'.
      split; [|exact Hc]. cbn [pipes].
      eapply movePipes_range; eassumption. }
    destruct mode.
    - destruct (negb (isFirstAlive bs1)).
      + apply Val_inj in Hrun. subst g'. repeat split; assumption.
      + eapply Hphase; [| |exact Hrun]; reflexivity.
    - destruct (Nat.eqb (living bs1) 0).
      + unfold nextGeneration in Hrun.
        destruct (createAIBirds _ _ _ _) as [newBirds n'].
        destruct (sort _); [discriminate|].
        apply Val_inj in Hrun. subst g'. unfold worldInRange. cbn [pipes lastPipeSpawn].
        split; [constructor|]. rewrite ExactFacts.lit_eq. split; lra.
      + eapply Hphase; [| |exact Hrun]; reflexivity. }
  split; [exact Hg'|]. intros p Hp.
  destruct Hg' as (Hps & _). rewrite Forall_forall in Hps.
  destruct (Hps p Hp) as (_ & _ & Ht0 & Ht1). split; lra.
Qed.

Lemma update_dead_untouched_witness :
  exists g',
    update Samples.sampleExp Runs.steadyRandom AI false Flock.pair = Val g' /\
    nth_error (birds g') 1 = Some Flock.down.
Proof.
  eexists. split; [vm_compute; reflexivity|].
  match goal with
  | |- nth_error (birds ?g') 1 = _ =>
      apply (update_dead_untouched Q _ Samples.sampleExp Runs.steadyRandom AI false
               Flock.pair g' 1 Flock.down)
  end; vm_compute; reflexivity.
Defined.

Lemma update_world_in_range_witness :
  exists g',
    update Samples.sampleExp Runs.steadyRandom PLAYER false Flock.pair = Val g' /\
    worldInRange g'.
Proof.
  eexists. split; [vm_compute; reflexivity|].
  match goal with
  | |- worldInRange ?g' =>
      apply (update_world_in_range Samples.sampleExp Runs.steadyRandom PLAYER false
               Flock.pair g')
  end.
  - apply steadyRandom_unit.
  - unfold worldInRange, pipeInRange. vm_compute.
    split; [constructor; [|constructor]|]; repeat split; discriminate.
  - vm_compute. reflexivity.
Defined.

(** ** A training session never throws *)

Section Topology.

Context (R : Type) `{Number R}.
Variable Math_exp : R -> R.
Variable Math_random : nat -> R.

Lemma hasTopology_indexable (i h o : nat) (nn : NeuralNetwork R) :
  hasTopology R i h o nn -> indexable R nn.
Proof.
  intros (Ti & Th & To & L1 & _ & L2 & _). unfold indexable. lia.
Qed.

Lemma createAIBird_topology (best : list (NeuralNetwork R)) (i m : nat) :
  Forall (hasTopology R 4 6 1) best ->
  hasTopology R 4 6 1 (brain (fst (createAIBird Math_random best i m))).
Proof.
  intros Hbest. destruct best as [|first rest].
  - unfold createAIBird, bind, ret, random.
    pose proof (new_NeuralNetwork_topology R Math_random 4 6 1 (S m)) as Hnew.
    destruct (new_NeuralNetwork Math_random 4 6 1 (S m)) as [b m']. exact Hnew.
  - destruct i as [|i].
    + rewrite createAIBird_champion. cbn [brain newBird].
      now inversion Hbest.
    + destruct (createAIBird_child R Math_random first rest (S i) m) as (n & n' & hue & ->);
        [lia|].
      cbn [brain newBird]. apply mutate_topology. rewrite copy_same.
      rewrite Forall_forall in Hbest. apply Hbest. apply nth_In.
      apply Nat.mod_upper_bound. discriminate.
Qed.

Lemma createAIBirds_topology (best : list (NeuralNetwork R)) (pop n : nat) :
  Forall (hasTopology R 4 6 1) best ->
  Forall (fun b => hasTopology R 4 6 1 (brain b))
         (fst (createAIBirds Math_random pop best n)).
Proof.
  intros Hbest. apply mapM_Forall. intros i m. now apply createAIBird_topology.
Qed.

Lemma updateBird_brain (ai : bool) (t : Pipe R) (ps : list (Pipe R)) (b b' : Bird R) :
  updateBird Math_exp ai t ps b = Val b' -> brain b' = brain b.
Proof.
  unfold updateBird. destruct (negb (alive b)).
  - intros Hb. apply Val_inj in Hb. now subst b'.
  - destruct (decide Math_exp ai t b) as [v0|]; [|discriminate].
    cbn [obind]. intros Hb. apply Val_inj in Hb. now subst b'.
Qed.

Lemma bumps_brain (k : nat) (b : Bird R) :
  brain (Nat.iter k (@bumpScore R _) b) = brain b.
Proof.
  induction k as [|k IH]; simpl; [reflexivity|].
  unfold bumpScore at 1. now destruct (alive _).
Qed.

Lemma updateBirds_brains (P : NeuralNetwork R -> Prop) (ai : bool) (t : Pipe R)
      (ps : list (Pipe R)) (bs bs1 : list (Bird R)) :
  updateBirds Math_exp ai t ps bs = Val bs1 ->
  Forall (fun b => P (brain b)) bs -> Forall (fun b => P (brain b)) bs1.
Proof.
  intros Hrun. apply updateBirds_each in Hrun.
  induction Hrun as [|b b1 bs bs1 Hb _ IH]; intros Hbs; [constructor|].
  inversion Hbs; subst. constructor; [|auto].
  now rewrite (updateBird_brain _ _ _ _ _ Hb).
Qed.

Lemma firstn_brains (P : NeuralNetwork R -> Prop) (k : nat) (bs : list (Bird R)) :
  Forall (fun b => P (brain b)) bs ->
  Forall P (map (@brain R _) (firstn k (sort bs))).
Proof.
  rewrite !Forall_forall. intros Hbs nn Hnn.
  apply in_map_iff in Hnn as (b & <- & Hb).
  apply Hbs. apply (sort_In R). rewrite <- (firstn_skipn k (sort bs)).
  apply in_or_app. now left.
Qed.

End Topology.

Lemma startTraining_population (Math_random : nat -> Q) (g0 : Game Q) :
  trainingPopulation (startTraining Math_random g0).
Proof.
  unfold trainingPopulation, startTraining.
  pose proof (createAIBirds_length Q Math_random [] AI_POPULATION (draws g0)) as Hlen.
  pose proof (createAIBirds_topology Q Math_random [] AI_POPULATION (draws g0)
                                     (Forall_nil _)) as Htop.
  destruct (createAIBirds Math_random AI_POPULATION [] (draws g0)) as [bs n'].
  split; assumption.
Qed.

Lemma update_population (Math_exp : Q -> Q) (Math_random : nat -> Q)
      (ap : bool) (g g' : Game Q) :
  trainingPopulation g ->
  update Math_exp Math_random AI ap g = Val g' ->
  trainingPopulation g'.
Proof.
  intros [Hlen Htop] Hrun. unfold update in Hrun.
  destruct (updateBirds _ _ _ _ _) as [bs1|] eqn:Ebirds; [|discriminate].
  pose proof (updateBirds_length Q _ _ _ _ _ _ Ebirds) as Hlen1.
  pose proof (updateBirds_brains Q _ (hasTopology Q 4 6 1) _ _ _ _ _ Ebirds Htop) as Htop1.
  cbn [obind] in Hrun.
  destruct (Nat.eqb (living bs1) 0).
  - unfold nextGeneration in Hrun. cbn [birds draws] in Hrun.
    pose proof (createAIBirds_length Q Math_random
                  (map (@brain Q _) (firstn 5 (sort bs1))) AI_POPULATION (draws g)) as Hlen'.
    pose proof (createAIBirds_topology Q Math_random
                  (map (@brain Q _) (firstn 5 (sort bs1))) AI_POPULATION (draws g)
                  (firstn_brains Q _ 5 bs1 Htop1)) as Htop'.
    destruct (createAIBirds _ _ _ _) as [newBirds n'].
    destruct (sort bs1); [discriminate|].
    apply Val_inj in Hrun. subst g'. split; assumption.
  - apply pipePhase in Hrun as ((k & Hbs) & _).
    unfold trainingPopulation. rewrite Hbs, length_map. split; [congruence|].
    apply Forall_forall. intros b Hb. apply in_map_iff in Hb as (b1 & <- & Hb1).
    rewrite bumps_brain. rewrite Forall_forall in Htop1. now apply Htop1.
Qed.

Lemma reachable_population (Math_exp : Q -> Q) (Math_random : nat -> Q) (g : Game Q) :
  reachable Math_exp Math_random g -> trainingPopulation g.
Proof.
  induction 1 as [g0|g g' ap _ IH _ Hrun].
  - apply startTraining_population.
  - exact (update_population Math_exp Math_random ap g g' IH Hrun).
Qed.

(** X15.  In every state of a training session there are [AI_POPULATION]
    birds, each with a network of topology 4/6/1, the game is [PLAYING], and
    the next step does not throw: it returns a state of the session.  So a
    session can always go on, rollover after rollover. *)
Theorem training_step_returns (Math_exp : Q -> Q) (Math_random : nat -> Q) (g : Game Q) :
  reachable Math_exp Math_random g ->
  List.length (birds g) = AI_POPULATION /\
  Forall (fun b => hasTopology Q 4 6 1 (brain b)) (birds g) /\
  gameState g = PLAYING /\
  forall isAutopilot, exists g',
      update Math_exp Math_random AI isAutopilot g = Val g' /\
      reachable Math_exp Math_random g'.
Proof.
  intros Hreach.
  destruct (reachable_population Math_exp Math_random g Hreach) as [Hlen Htop].
  pose proof (reachable_playing Math_exp Math_random g Hreach) as Hplaying.
  repeat split; trivial. intros ap.
  destruct (update Math_exp Math_random AI ap g) as [g'|] eqn:Erun.
  - exists g'. split; [reflexivity|].
    exact (reachable_step Math_exp Math_random g g' ap Hreach Hplaying Erun).
  - exfalso. apply update_throw in Erun as [[_ Hnil]|[_ (b & Hb & _ & Hno)]].
    + rewrite Hnil in Hlen. discriminate.
    + apply Hno. rewrite Forall_forall in Htop.
      exact (hasTopology_indexable Q 4 6 1 _ (Htop b Hb)).
Qed.

Lemma training_step_returns_witness :
  List.length (birds Training.start) = AI_POPULATION /\
  gameState Training.start = PLAYING.
Proof.
  destruct (training_step_returns Samples.sampleExp Training.trainingRandom Training.start)
    as (Hlen & _ & Hplaying & _).
  - apply reachable_start.
  - split; assumption.
Defined.

(** X16.  In every state of a training session the birds that are alive
    agree on distance, score and fitness, and no bird that is down is ahead of
    one that is alive in distance, in score or in fitness. *)
Theorem training_live_birds_lead
        (Math_exp : Q -> Q) (Math_random : nat -> Q) (g : Game Q) (a c : Bird Q) :
  reachable Math_exp Math_random g ->
  In a (birds g) -> In c (birds g) ->
  alive a = true ->
  (alive c = true ->
   distance c = distance a /\ score c = score a /\ fitness c = fitness a) /\
  (alive c = false ->
   (distance c <= distance a)%Q /\ (score c <= score a)%Q /\ (fitness c <= fitness a)%Q).
Proof.
  intros Hreach Ha Hc Halive.
  destruct (reachable_generationInv Math_exp Math_random g Hreach)
    as (D & P0 & P & HP & Hbirds & _).
  pose proof (Hbirds a Ha) as Hinva. rewrite Halive in Hinva.
  destruct Hinva as (Hda & Hsa & Hfa).
  pose proof (Hbirds c Hc) as Hinvc. split; intros Hcalive; rewrite Hcalive in Hinvc.
  - destruct Hinvc as (Hdc & Hsc & Hfc). repeat split; congruence.
  - destruct Hinvc as (Hdc & Hsc & Hup). unfold upToDate in Hup.
    apply formula_of in Hup, Hfa. rewrite Hda, Hsa. repeat split; lra.
Qed.

Lemma training_live_birds_lead_witness :
  let d := newBird Samples.sampleNetwork Yellow in
  let a := nth 0 (birds Training.start) d in
  let c := nth 1 (birds Training.start) d in
  (alive c = true ->
   distance c = distance a /\ score c = score a /\ fitness c = fitness a) /\
  (alive c = false ->
   (distance c <= distance a)%Q /\ (score c <= score a)%Q /\ (fitness c <= fitness a)%Q).
Proof.
  intros d a c.
  apply (training_live_birds_lead Samples.sampleExp Training.trainingRandom
           Training.start a c).
  - apply reachable_start.
  - apply nth_In. vm_compute. lia.
  - apply nth_In. vm_compute. lia.
  - vm_compute. reflexivity.
Defined.

(** ** The parents of a generation *)

Lemma insert_descending (a : Bird Q) (l : list (Bird Q)) :
  descending l -> descending (insert a l).
Proof.
  induction l as [|c l IH]; cbn [insert descending].
  - intros _. split; [intros b []|exact I].
  - intros [Hc Hl]. destruct (before c a) eqn:E; cbn [descending].
    + apply before_exact in E. split; [|now apply IH].
      intros b Hb. apply insert_In in Hb as [->|Hb]; [now apply Qlt_le_weak|now apply Hc].
    + apply before_exact in E. split; [|split; assumption].
      intros b [<-|Hb]; [exact E|].
      apply Qle_trans with (fitness c); [now apply Hc|exact E].
Qed.

Lemma sort_descending (l : list (Bird Q)) : descending (sort l).
Proof.
  induction l as [|a l IH]; simpl; [exact I|]. now apply insert_descending.
Qed.

Lemma descending_split (k : nat) (l : list (Bird Q)) :
  descending l ->
  forall p r, In p (firstn k l) -> In r (skipn k l) -> (fitness r <= fitness p)%Q.
Proof.
  revert k. induction l as [|a l IH]; intros k Hl p r Hp Hr.
  - destruct k; destruct Hp.
  - destruct k as [|k]; [destruct Hp|].
    destruct Hl as [Ha Hl]. cbn [firstn skipn] in Hp, Hr.
    destruct Hp as [<-|Hp].
    + apply Ha. rewrite <- (firstn_skipn k l). apply in_or_app. now right.
    + exact (IH k Hl p r Hp Hr).
Qed.

(** X17.  At a rollover the saved brains are those of the fittest birds: the
    population splits into the parents (5 of them, or all birds when there
    are fewer) and the others, and no other bird has a higher fitness than
    any parent.  The parents are kept in order of fitness, highest first. *)
Theorem nextGeneration_parents_fittest (Math_random : nat -> Q) (g g' : Game Q) :
  nextGeneration Math_random g = Val g' ->
  exists parents others,
    sort (birds g) = parents ++ others /\
    savedBrains g' = map (@brain Q _) parents /\
    List.length parents = Nat.min 5 (List.length (birds g)) /\
    (forall b, In b (birds g) <-> In b parents \/ In b others) /\
    descending parents /\
    (forall p r, In p parents -> In r others -> (fitness r <= fitness p)%Q).
Proof.
  intros Hrun.
  exists (firstn 5 (sort (birds g))), (skipn 5 (sort (birds g))).
  pose proof (sort_descending (birds g)) as Hsorted.
  split; [now rewrite firstn_skipn|]. split; [|split; [|split; [|split]]].
  - unfold nextGeneration in Hrun.
    destruct (createAIBirds _ _ _ _) as [newBirds n'].
    destruct (sort (birds g)); [discriminate|].
    apply Val_inj in Hrun. now subst g'.
  - now rewrite length_firstn, (sort_length Q).
  - intros b. rewrite <- in_app_iff, firstn_skipn. symmetry. apply (sort_In Q).
  - rewrite <- (firstn_skipn 5 (sort (birds g))) in Hsorted.
    clear -Hsorted. induction (firstn 5 (sort (birds g))) as [|a l IH]; [exact I|].
    destruct Hsorted as [Ha Hl]. split; [|now apply IH].
    intros b Hb. apply Ha. apply in_or_app. now left.
  - now apply descending_split.
Qed.

Lemma nextGeneration_parents_fittest_witness :
  exists g' parents others,
    nextGeneration Runs.steadyRandom Flock.pair = Val g' /\
    sort (birds Flock.pair) = parents ++ others /\
    savedBrains g' = map (@brain Q _) parents /\
    List.length parents = 2.
Proof.
  eexists.
  match goal with
  | |- exists parents others, _ = Val ?g' /\ _ =>
      destruct (nextGeneration_parents_fittest Runs.steadyRandom Flock.pair g')
        as (parents & others & Hsort & Hsaved & Hlen & _)
  end.
  - vm_compute. reflexivity.
  - exists parents, others. repeat split; assumption.
Defined.

(** ** Stopping a training session *)

Lemma resetGame_effects (R : Type) (NR : Number R) (Math_random : nat -> R) (g : Game R) :
  let g' := resetGame Math_random g in
  gameState g' = READY /\ generation g' = 1 /\ pipes g' = [] /\
  lastPipeSpawn g' = lit 0 /\ scoreRef g' = lit 0 /\ savedBrains g' = [] /\
  highScore g' = highScore g /\ storedModel g' = storedModel g /\
  aliveCount g' = AI_POPULATION /\
  List.length (birds g') = AI_POPULATION /\
  Forall (fun b => exists nn c, b = newBird nn c /\ hasTopology R 4 6 1 nn) (birds g').
Proof.
  unfold resetGame.
  pose proof (createAIBirds_length R Math_random [] AI_POPULATION (draws g)) as Hlen.
  pose proof (createAIBirds_fresh R Math_random [] AI_POPULATION (draws g)) as Hnew.
  pose proof (createAIBirds_topology R Math_random [] AI_POPULATION (draws g)
                                     (Forall_nil _)) as Htop.
  destruct (createAIBirds Math_random AI_POPULATION [] (draws g)) as [bs n'].
  cbn [fst] in Hlen, Hnew, Htop. cbv zeta.
  cbn [gameState generation pipes lastPipeSpawn scoreRef savedBrains highScore
       storedModel aliveCount birds].
  repeat split; trivial.
  rewrite Forall_forall in *. intros b Hb.
  destruct (Hnew b Hb) as (nn & c & ->). exists nn, c. split; [reflexivity|].
  exact (Htop _ Hb).
Qed.

Lemma filter_alive_In {R : Type} `{Number R} (b : Bird R) (bs : list (Bird R)) :
  In b (filter (@alive R _) bs) <-> In b bs /\ alive b = true.
Proof. apply filter_In. Qed.

(** X18.  STOP & SAVE stores the brain of a bird that is alive and whose
    fitness no other alive bird exceeds; when no bird is alive the stored
    model is left as it is.  Either way the game is then reset: [READY],
    generation 1, no pipes, score and spawn counter 0, no saved brains, the
    high score kept, and [AI_POPULATION] new birds at the spawn point with
    networks of topology 4/6/1. *)
Theorem stopAndSave_saves_fittest (Math_random : nat -> Q) (g : Game Q) :
  let g' := stopAndSave Math_random g in
  (gameState g' = READY /\ generation g' = 1 /\ pipes g' = [] /\
   lastPipeSpawn g' = lit 0 /\ scoreRef g' = lit 0 /\ savedBrains g' = [] /\
   highScore g' = highScore g /\ aliveCount g' = AI_POPULATION /\
   List.length (birds g') = AI_POPULATION /\
   Forall (fun b => exists nn c, b = newBird nn c /\ hasTopology Q 4 6 1 nn) (birds g')) /\
  (living (birds g) = 0 -> storedModel g' = storedModel g) /\
  (0 < living (birds g) ->
   exists best,
     In best (birds g) /\ alive best = true /\
     storedModel g' = Some (toJSON (brain best)) /\
     forall c, In c (birds g) -> alive c = true -> (fitness c <= fitness best)%Q).
Proof.
  intros g'. unfold g', stopAndSave.
  match goal with
  | |- context [resetGame Math_random ?g1] =>
      destruct (resetGame_effects Q _ Math_random g1)
        as (Hstate & Hgen & Hpipes & Hspawn & Hscore & Hsaved & Hhigh & Hstored &
            Hcount & Hlen & Hnew)
  end.
  cbn [highScore storedModel] in Hhigh, Hstored.
  split; [repeat split; assumption|].
  rewrite Hstored. clear. unfold living.
  set (aliveBirds := filter (@alive Q _) (birds g)).
  assert (Halive : forall b, In b aliveBirds <-> In b (birds g) /\ alive b = true)
    by (intros b; exact (filter_alive_In b (birds g))).
  pose proof (sort_headMax aliveBirds) as Hmax.
  pose proof (fun b => sort_In Q b aliveBirds) as Hin.
  pose proof (sort_length Q aliveBirds) as Hsort.
  clearbody aliveBirds. split.
  - intros Hnone. now destruct aliveBirds.
  - intros Hsome.
    destruct aliveBirds as [|a l]; [simpl in Hsome; lia|].
    destruct (sort (a :: l)) as [|best rest]; [discriminate|].
    assert (Hbest : In best (birds g) /\ alive best = true).
    { apply Halive. apply Hin. now left. }
    exists best. repeat split; try apply Hbest.
    intros c Hc Hcalive. apply Hmax. apply Hin. apply Halive. now split.
Qed.

Lemma sort_ties (l : list (Bird Q)) :
  (forall a c, In a l -> In c l -> fitness a = fitness c) -> sort l = l.
Proof.
  induction l as [|a l IH]; intros Hties; [reflexivity|].
  cbn [sort]. rewrite IH by (intros b c Hb Hc; apply Hties; now right).
  destruct l as [|c l]; [reflexivity|]. cbn [insert].
  assert (E : before c a = false).
  { apply before_exact. rewrite (Hties c a); [apply Qle_refl|right; now left|now left]. }
  now rewrite E.
Qed.

Lemma find_filter {A} (f : A -> bool) (l : list A) :
  find f l = hd_error (filter f l).
Proof.
  induction l as [|a l IH]; simpl; [reflexivity|]. now destruct (f a).
Qed.

Lemma update_AI_living (R : Type) (NR : Number R) (Math_exp : R -> R)
      (Math_random : nat -> R) (ap : bool) (g g' : Game R) :
  update Math_exp Math_random AI ap g = Val g' -> 0 < living (birds g').
Proof.
  unfold update. intros Hrun.
  destruct (updateBirds _ _ _ _ _) as [bs1|]; [|discriminate].
  cbn [obind] in Hrun.
  destruct (Nat.eqb (living bs1) 0) eqn:Eover.
  - destruct (nextGeneration_effects R Math_random _ _ Hrun) as (_ & _ & _ & _ & _ & ->).
    unfold AI_POPULATION. lia.
  - apply Nat.eqb_neq in Eover. apply pipePhase in Hrun as ((k & ->) & _).
    rewrite living_bumps. lia.
Qed.

Lemma reachable_living (Math_exp : Q -> Q) (Math_random : nat -> Q) (g : Game Q) :
  reachable Math_exp Math_random g -> 0 < living (birds g).
Proof.
  intros [g0|g1 g' ap _ _ Hrun].
  - unfold startTraining.
    pose proof (createAIBirds_length Q Math_random [] AI_POPULATION (draws g0)) as Hlen.
    pose proof (createAIBirds_fresh Q Math_random [] AI_POPULATION (draws g0)) as Hnew.
    destruct (createAIBirds Math_random AI_POPULATION [] (draws g0)) as [bs n'].
    cbn [fst birds] in *. rewrite (living_fresh Q _ Hnew), Hlen. unfold AI_POPULATION. lia.
  - exact (update_AI_living Q _ Math_exp Math_random ap g1 g' Hrun).
Qed.

(** X19.  In every state of a training session a bird is alive, and STOP &
    SAVE stores the brain of the first bird of the population that is alive
    (the alive birds tie on fitness, and the sort keeps their order). *)
Theorem stopAndSave_training
        (Math_exp : Q -> Q) (Math_random : nat -> Q) (g : Game Q) :
  reachable Math_exp Math_random g ->
  exists best,
    find (@alive Q _) (birds g) = Some best /\
    storedModel (stopAndSave Math_random g) = Some (toJSON (brain best)).
Proof.
  intros Hreach.
  pose proof (reachable_living Math_exp Math_random g Hreach) as Hliving.
  destruct (reachable_generationInv Math_exp Math_random g Hreach)
    as (D & P0 & P & _ & Hbirds & _).
  unfold stopAndSave.
  match goal with
  | |- context [resetGame Math_random ?g1] =>
      destruct (resetGame_effects Q _ Math_random g1) as (_ & _ & _ & _ & _ & _ & _ & -> & _)
  end.
  cbn [storedModel]. rewrite find_filter. unfold living in Hliving.
  assert (Hties : forall a c, In a (filter (@alive Q _) (birds g)) ->
                              In c (filter (@alive Q _) (birds g)) ->
                              fitness a = fitness c).
  { intros a c Ha Hc. apply filter_alive_In in Ha as [Ha Haalive].
    apply filter_alive_In in Hc as [Hc Hcalive].
    pose proof (Hbirds a Ha) as Hinva. rewrite Haalive in Hinva.
    pose proof (Hbirds c Hc) as Hinvc. rewrite Hcalive in Hinvc.
    destruct Hinva as (_ & _ & Hfa). destruct Hinvc as (_ & _ & Hfc). congruence. }
  rewrite (sort_ties _ Hties).
  destruct (filter (@alive Q _) (birds g)) as [|best rest]; [simpl in Hliving; lia|].
  exists best. split; reflexivity.
Qed.

Lemma stopAndSave_training_witness :
  exists best,
    find (@alive Q _) (birds Training.start) = Some best /\
    storedModel (stopAndSave Training.trainingRandom Training.start)
    = Some (toJSON (brain best)).
Proof.
  apply (stopAndSave_training Samples.sampleExp Training.trainingRandom Training.start).
  apply reachable_start.
Defined.

(** ** The frame loop *)






(** The same frame in the two arithmetics, 50 ms after the last one at speed
    1, in manual play: without rounding three time steps fit and nothing is
    left; in binary64 the third subtraction leaves [16.666666666666661],
    just below the time step [16.666666666666668], and only two steps are
    made. *)
Lemma loopWrapper_rounding :
  loopWrapper Samples.sampleExp Runs.steadyRandom 31 true PLAYER false 1%Q 1050%Q
              Rounding.clockExact Runs.playerStart
  = Some (afterFrame Q Samples.sampleExp Runs.steadyRandom PLAYER false 3 1050%Q 0%Q
                     Runs.playerStart) /\
  loopWrapper (fun t => t) (fun _ => Binary64.of_Q (7 # 10)%Q) 31 true PLAYER false
              1%float 1050%float Rounding.clockBinary64 (Runs.scriptedBinary64 0)
  = Some (afterFrame float (fun t => t) (fun _ => Binary64.of_Q (7 # 10)%Q) PLAYER false
                     2 1050%float 0x1.0aaaaaaaaaaa9p+4%float (Runs.scriptedBinary64 0)) /\
  @FIXED_TIME_STEP float _ = 0x1.0aaaaaaaaaaabp+4%float.
Proof. vm_compute. repeat split. Qed.

(** ** Game over, and a flap *)

Lemma updateBirds_down (R : Type) (NR : Number R) (Math_exp : R -> R)
      (ai : bool) (t : Pipe R) (ps : list (Pipe R)) (bs : list (Bird R)) :
  Forall (fun b => alive b = false) bs -> updateBirds Math_exp ai t ps bs = Val bs.
Proof.
  induction 1 as [|b bs Hb _ IH]; cbn [updateBirds]; [reflexivity|].
  unfold updateBird at 1. rewrite Hb. cbn [negb obind]. now rewrite IH.
Qed.

Lemma isFirstAlive_down (R : Type) (NR : Number R) (bs : list (Bird R)) :
  Forall (fun b => alive b = false) bs -> isFirstAlive bs = false.
Proof. intros [|b l Hb _]; [reflexivity|exact Hb]. Qed.

(** X21.  In player mode, once every bird is down a step only declares the
    game over, and doing so again changes nothing: the state after it is a
    fixed point of the step, so the steps that the frame loop still makes
    after the bird went down are harmless. *)
Theorem player_game_over_settles
        (Math_exp : Q -> Q) (Math_random : nat -> Q) (isAutopilot : bool) (g : Game Q) :
  Forall (fun b => alive b = false) (birds g) ->
  update Math_exp Math_random PLAYER isAutopilot g = Val (gameOver g) /\
  update Math_exp Math_random PLAYER isAutopilot (gameOver g) = Val (gameOver g).
Proof.
  intros Hdown.
  assert (Hstep : forall g0 : Game Q,
             Forall (fun b => alive b = false) (birds g0) ->
             update Math_exp Math_random PLAYER isAutopilot g0 = Val (gameOver g0)).
  { intros g0 Hdown0. unfold update.
    rewrite (updateBirds_down Q _ Math_exp _ _ _ _ Hdown0). cbn [obind].
    rewrite (isFirstAlive_down Q _ _ Hdown0). cbn [negb]. now destruct g0. }
  split; [now apply Hstep|].
  rewrite Hstep by exact Hdown. f_equal.
  unfold gameOver. cbn [birds pipes lastPipeSpawn scoreRef savedBrains gameState highScore
                         generation aliveCount bestScore storedModel draws].
  f_equal.
  destruct (gtb (scoreRef g) (highScore g)) eqn:Ehigh; [|now rewrite Ehigh].
  assert (E : gtb (scoreRef g) (scoreRef g) = false)
    by (unfold gtb; apply ExactFacts.ltb_ge; apply Qle_refl).
  now rewrite E.
Qed.

Lemma player_game_over_settles_witness :
  update Samples.sampleExp Runs.steadyRandom PLAYER false Flock.fallen
  = Val (gameOver Flock.fallen) /\
  update Samples.sampleExp Runs.steadyRandom PLAYER false (gameOver Flock.fallen)
  = Val (gameOver Flock.fallen).
Proof.
  apply (player_game_over_settles Samples.sampleExp Runs.steadyRandom false Flock.fallen).
  vm_compute. repeat constructor.
Defined.

Lemma bumps_position (R : Type) (NR : Number R) (k : nat) (b : Bird R) :
  y (Nat.iter k (@bumpScore R _) b) = y b /\
  velocity (Nat.iter k (@bumpScore R _) b) = velocity b.
Proof.
  induction k as [|k [Hy Hv]]; simpl; [split; reflexivity|].
  unfold bumpScore at 1 3. destruct (alive _); cbn [y velocity]; split; assumption.
Qed.

(** X22.  A flap ([jump], called from a callback that sees no autopilot, then
    a step of player mode, with the autopilot on or off): whatever the
    velocity was and whatever the network decides, the bird ends the step
    with velocity [JUMP_STRENGTH + GRAVITY] and with that velocity added to
    its [y], unless that takes it to the ceiling, where it is put at
    [y = BIRD_RADIUS] with velocity 0; the game is [PLAYING] from the flap
    on, and without the autopilot the step does not throw.  The sums are the
    program's: the velocity is -7.4 without rounding and the double nearest
    to -7.4 in binary64.  Holds for every number representation. *)
Theorem flap_lifts (R : Type) (NR : Number R)
        (Math_exp : R -> R) (Math_random : nat -> R) (isAutopilot : bool)
        (g g' : Game R) (b0 : Bird R) (rest : list (Bird R)) :
  birds g = b0 :: rest ->
  alive b0 = true ->
  gameState g <> GAME_OVER ->
  update Math_exp Math_random PLAYER isAutopilot (jump PLAYER false g) = Val g' ->
  (gameState (jump PLAYER false g) = PLAYING /\
   exists b0' rest',
     birds g' = b0' :: rest' /\
     let v := add JUMP_STRENGTH GRAVITY in
     let y1 := add (y b0) v in
     (hitsCeiling y1 = false -> y b0' = y1 /\ velocity b0' = v) /\
     (hitsCeiling y1 = true -> y b0' = BIRD_RADIUS /\ velocity b0' = lit 0)) /\
  (exists g0, update Math_exp Math_random PLAYER false (jump PLAYER false g) = Val g0) /\
  (@add Q _ JUMP_STRENGTH GRAVITY == - (74 # 10))%Q /\
  @add float _ JUMP_STRENGTH GRAVITY = (-0x1.d99999999999ap+2)%float.
Proof.
  intros Hbirds Halive Hstate Erun.
  split; [|split; [|split; [vm_compute; reflexivity|vm_compute; reflexivity]]].
  - set (flapped := {| x := x b0; y := y b0; velocity := JUMP_STRENGTH;
                       rotation := rotation b0; brain := brain b0;
                       fitness := fitness b0; score := score b0;
                       distance := distance b0; alive := alive b0;
                       color := color b0 |}).
    assert (Hjump : birds (jump PLAYER false g) = flapped :: rest /\
                    gameState (jump PLAYER false g) = PLAYING).
    { unfold jump. rewrite Hbirds. destruct (gameState g); try congruence; split; reflexivity. }
    destruct Hjump as [Hflapped Hplaying]. split; [exact Hplaying|].
    apply update_cases in Erun as (bs1 & Hbs1 & Hend).
    rewrite Hflapped in Hbs1. cbn [updateBirds] in Hbs1.
    destruct (updateBird Math_exp isAutopilot _ _ flapped) as [b1|] eqn:Eb1; [|discriminate].
    cbn [obind] in Hbs1.
    destruct (updateBirds Math_exp isAutopilot _ _ rest) as [rest1|]; [|discriminate].
    cbn [obind] in Hbs1. apply Val_inj in Hbs1. subst bs1.
    assert (Hb1 : (hitsCeiling (add (y b0) (add JUMP_STRENGTH GRAVITY)) = false ->
                   y b1 = add (y b0) (add JUMP_STRENGTH GRAVITY) /\
                   velocity b1 = add JUMP_STRENGTH GRAVITY) /\
                  (hitsCeiling (add (y b0) (add JUMP_STRENGTH GRAVITY)) = true ->
                   y b1 = BIRD_RADIUS /\ velocity b1 = lit 0)).
    { clear -Eb1 Halive. unfold updateBird in Eb1.
      cbn [alive flapped] in Eb1. rewrite Halive in Eb1. cbn [negb] in Eb1.
      destruct (decide Math_exp isAutopilot _ flapped) as [v0|] eqn:Edecide; [|discriminate].
      assert (Hv0 : v0 = JUMP_STRENGTH).
      { unfold decide in Edecide. destruct isAutopilot.
        - destruct (predict Math_exp _ _) as [output|]; [|discriminate].
          cbn [obind velocity flapped] in Edecide. apply Val_inj in Edecide.
          now destruct (wantsJump output).
        - cbn [velocity flapped] in Edecide. now apply Val_inj in Edecide. }
      subst v0. cbn [obind] in Eb1. apply Val_inj in Eb1. subst b1.
      cbn [y velocity flapped].
      destruct (hitsCeiling _); split; intros Hc; try discriminate; split; reflexivity. }
    assert (Hsame : forall k, y (Nat.iter k (@bumpScore R _) b1) = y b1 /\
                              velocity (Nat.iter k (@bumpScore R _) b1) = velocity b1)
      by (intros k; apply bumps_position).
    cbv zeta.
    destruct Hend as [brains n Hmode _ _ _ | _ _ Hsame' _ | k Hbumps _].
    + discriminate Hmode.
    + exists b1, rest1. split; [exact Hsame'|exact Hb1].
    + exists (Nat.iter k (@bumpScore R _) b1), (map (Nat.iter k (@bumpScore R _)) rest1).
      destruct (Hsame k) as [-> ->]. split; [exact Hbumps|exact Hb1].
  - destruct (update Math_exp Math_random PLAYER false (jump PLAYER false g))
      as [g0|] eqn:Emanual; [now exists g0|].
    apply update_throw in Emanual as [[Hmode _]|[Hsteer _]]; discriminate.
Qed.

Lemma flap_lifts_witness :
  exists g' b0' rest',
    update Samples.sampleExp Runs.steadyRandom PLAYER false (jump PLAYER false Flock.pair)
    = Val g' /\
    birds g' = b0' :: rest' /\
    y b0' = add 300%Q (add JUMP_STRENGTH GRAVITY) /\
    (y b0' == 300 - (74 # 10))%Q.
Proof.
  eexists.
  match goal with
  | |- exists b0' rest', _ = Val ?g' /\ _ =>
      destruct (flap_lifts Q _ Samples.sampleExp Runs.steadyRandom false Flock.pair g'
                  (Samples.birdAt 300 0) [Flock.down])
        as [(_ & b0' & rest' & Hbirds & Hrise & _) _]
  end.
  - reflexivity.
  - reflexivity.
  - discriminate.
  - vm_compute. reflexivity.
  - exists b0', rest'. split; [reflexivity|]. split; [exact Hbirds|].
    destruct Hrise as [Hy _]; [vm_compute; reflexivity|].
    split; [exact Hy|]. rewrite Hy. vm_compute. reflexivity.
Defined.

(** ** Copies *)

(** X23.  [copy()] returns a network equal to the original in every field,
    and, because it first builds a random network of the same dimensions
    that it then overwrites, it makes one draw per parameter of those
    dimensions. *)
Theorem copy_equal (R : Type) (NR : Number R) (Math_random : nat -> R)
        (nn : NeuralNetwork R) (n : nat) :
  fst (copy Math_random nn n) = nn /\
  snd (copy Math_random nn n) =
  n + parameterCount (inputNodes nn) (hiddenNodes nn) (outputNodes nn).
Proof.
  split; [apply copy_same|].
  unfold copy, bind, ret.
  destruct (new_NeuralNetwork_parts R Math_random (fun _ => True)
              (inputNodes nn) (hiddenNodes nn) (outputNodes nn) n (fun _ => I))
    as [_ Hdraws].
  destruct (new_NeuralNetwork _ _ _ _ _) as [fresh m]. exact Hdraws.
Qed.
